(** * CorvusPrint: the event-and-configuration bridge

    A shallow embedding of
      - libslic3r/SlicingEvents.hpp, libslic3r/SlicingEventDispatcher.hpp
      - libslic3r/ConfigChangeDispatcher.hpp
      - slic3r/Network/MqttConfigPublisher.{hpp,cpp}
      - slic3r/Network/MqttEventSink.{hpp,cpp}
      - slic3r/Network/HttpSlicerApi.{hpp,cpp}
      - slic3r/GUI/WxSlicingEventSink.hpp, slic3r/GUI/Studio.{hpp,cpp}
    followed by the properties of the design document that concern them and
    by further properties of the same code.  The code is taken as compiled
    with [SLIC3R_HAS_MOSQUITTO] set.

    Conventions.  A C++ object that is only compared by identity (a sink, a
    listener, a callback, the mosquitto client) is a [nat]; a pointer that may
    be null is an [option].  A member function that calls out to objects
    outside this code base returns the list of calls it made, in order.  The
    mutexes are not modelled: every member function below is one critical
    section and is taken to run to completion. *)

From Stdlib Require Import ZArith List String Ascii Bool Lia Uint63 PrimFloat DecimalString.
From stdpp Require Import base decidable option list strings gmap.
Import ListNotations.

Set Warnings "-inexact-float".

(** ** Text helpers *)

(** The double quote character, and a string made of it. *)
Definition dquote_char : ascii := "034"%char.
Definition dq : string := String dquote_char EmptyString.

(** [quoted s] is [s] between two double quotes. *)
Definition quoted (s : string) : string := dq +:+ s +:+ dq.

(** [operator<<(int)] and [std::to_string(size_t)]: decimal digits. *)
Definition show_int (z : Z) : string := NilZero.string_of_int (Z.to_int z).
Definition to_string (n : nat) : string := NilZero.string_of_uint (Nat.to_uint n).

(** [s.c_str()] as a callee that takes a [const char*] reads it: the
    characters before the first NUL byte. *)
Fixpoint c_str (s : string) : string :=
  match s with
  | EmptyString => EmptyString
  | String c rest => if Ascii.eqb c "000" then EmptyString else String c (c_str rest)
  end.

(** [static_cast<int>(n)] of a [size_t]: wrap-around to 32 bits, two's
    complement. *)
Definition static_cast_int (n : nat) : Z :=
  let w := (Z.of_nat n mod 2 ^ 32)%Z in
  if (w <? 2 ^ 31)%Z then w else (w - 2 ^ 32)%Z.

(** ** libslic3r/PrintBase.hpp (declarations only) *)

Module PrintBase.

(** Modelled from the spec: [PrintBase::SlicingStatus] is declared in
    libslic3r/PrintBase.hpp, which is not part of the sources.  These are the
    fields the code reads: the percentage, the message text, the bit flags
    and the warning step. *)
Record SlicingStatus := {
  percent : Z;
  text : string;
  flags : Z;
  warning_step : Z
}.

(** PrintBase.hpp is outside these sources: the values the two-argument
    constructor [SlicingStatus(percent, text)] gives to the remaining
    fields are parameters. *)
Class Defaults := {
  default_flags : Z;
  default_warning_step : Z
}.

Definition make `{Defaults} (percent : Z) (text : string) : SlicingStatus :=
  {| percent := percent; text := text;
     flags := default_flags; warning_step := default_warning_step |}.

End PrintBase.

(** ** libslic3r/SlicingEvents.hpp *)

Module SlicingCompletedInfo.

Inductive Status := Finished | Cancelled | Error.

Global Instance Status_eq_dec : EqDecision Status.
Proof. solve_decision. Defined.

Record t := {
  status : Status;
  error_message : string;
  error_object_ids : list N;
  critical_error : bool;
  invalidate_plater : bool
}.

(** The member initialisers of the struct. *)
Definition default : t :=
  {| status := Finished; error_message := EmptyString; error_object_ids := [];
     critical_error := false; invalidate_plater := false |}.

Definition finished (i : t) : bool := bool_decide (status i = Finished).
Definition success (i : t) : bool := bool_decide (status i = Finished).
Definition cancelled (i : t) : bool := bool_decide (status i = Cancelled).
Definition error (i : t) : bool := bool_decide (status i = Error).

End SlicingCompletedInfo.

Module ISlicingEventSink.

(** One constructor per pure virtual method of the interface, carrying the
    arguments of the call. *)
Inductive call :=
| on_slicing_update (status : PrintBase.SlicingStatus)
| on_slicing_completed (timestamp : Z)
| on_process_finished (info : SlicingCompletedInfo.t)
| on_export_began
| on_export_finished (path : string).

End ISlicingEventSink.

(** [SlicingEventSinkPtr = std::shared_ptr<ISlicingEventSink>]: [None] is the
    null pointer, [Some s] points to the sink object [s].  [operator==] on
    shared pointers compares the objects pointed to. *)
Definition SlicingEventSinkPtr := option nat.

(** A method call received by a sink object. *)
Record Invocation := {
  receiver : nat;
  method : ISlicingEventSink.call
}.

(** ** libslic3r/SlicingEventDispatcher.hpp *)

Module SlicingEventDispatcher.

Record t := { m_sinks : list SlicingEventSinkPtr }.

(** [SlicingEventDispatcher() = default]. *)
Definition create : t := {| m_sinks := [] |}.

(** [v.erase(std::remove(v.begin(), v.end(), x), v.end())]. *)
Fixpoint erase_remove (x : SlicingEventSinkPtr) (v : list SlicingEventSinkPtr)
  : list SlicingEventSinkPtr :=
  match v with
  | [] => []
  | y :: v' => if decide (y = x) then erase_remove x v' else y :: erase_remove x v'
  end.

Definition add_sink (sink : SlicingEventSinkPtr) (d : t) : t :=
  match sink with
  | None => d
  | Some _ => {| m_sinks := m_sinks d ++ [sink] |}
  end.

Definition remove_sink (sink : SlicingEventSinkPtr) (d : t) : t :=
  {| m_sinks := erase_remove sink (m_sinks d) |}.

Definition clear_sinks (d : t) : t := {| m_sinks := [] |}.

Definition sink_count (d : t) : nat := length (m_sinks d).

(** [for (auto& sink : m_sinks) if (sink) sink->c(...)]: the calls made, in
    order. *)
Fixpoint for_each_sink (c : ISlicingEventSink.call) (sinks : list SlicingEventSinkPtr)
  : list Invocation :=
  match sinks with
  | [] => []
  | None :: rest => for_each_sink c rest
  | Some s :: rest => {| receiver := s; method := c |} :: for_each_sink c rest
  end.

Definition on_slicing_update (d : t) (status : PrintBase.SlicingStatus) : list Invocation :=
  for_each_sink (ISlicingEventSink.on_slicing_update status) (m_sinks d).

Definition on_slicing_completed (d : t) (timestamp : Z) : list Invocation :=
  for_each_sink (ISlicingEventSink.on_slicing_completed timestamp) (m_sinks d).

Definition on_process_finished (d : t) (info : SlicingCompletedInfo.t) : list Invocation :=
  for_each_sink (ISlicingEventSink.on_process_finished info) (m_sinks d).

Definition on_export_began (d : t) : list Invocation :=
  for_each_sink ISlicingEventSink.on_export_began (m_sinks d).

Definition on_export_finished (d : t) (path : string) : list Invocation :=
  for_each_sink (ISlicingEventSink.on_export_finished path) (m_sinks d).

(** The dispatcher is itself a sink: an event [c] arriving at it runs the
    override of the same name. *)
Definition dispatch (d : t) (c : ISlicingEventSink.call) : list Invocation :=
  match c with
  | ISlicingEventSink.on_slicing_update status => on_slicing_update d status
  | ISlicingEventSink.on_slicing_completed timestamp => on_slicing_completed d timestamp
  | ISlicingEventSink.on_process_finished info => on_process_finished d info
  | ISlicingEventSink.on_export_began => on_export_began d
  | ISlicingEventSink.on_export_finished path => on_export_finished d path
  end.

(** The three calls that change the sink list, and a run of them. *)
Inductive op :=
| AddSink (sink : SlicingEventSinkPtr)
| RemoveSink (sink : SlicingEventSinkPtr)
| ClearSinks.

Definition step (d : t) (o : op) : t :=
  match o with
  | AddSink sink => add_sink sink d
  | RemoveSink sink => remove_sink sink d
  | ClearSinks => clear_sinks d
  end.

Definition run (ops : list op) (d : t) : t := fold_left step ops d.

(** How many of the calls in a trace went to the sink object [s]. *)
Definition calls_on (s : nat) (tr : list Invocation) : nat :=
  length (List.filter (fun i => Nat.eqb (receiver i) s) tr).

(** How many references to the sink object [s] the list holds. *)
Definition references (s : nat) (d : t) : nat :=
  length (List.filter (fun p => bool_decide (p = Some s)) (m_sinks d)).

(** The sink objects behind the non-null entries, in list order. *)
Definition targets (d : t) : list nat := omap id (m_sinks d).

End SlicingEventDispatcher.

(** ** boost::any, as far as this code inspects it *)

Inductive boost_any :=
| any_bool (b : bool)
| any_int (i : Z)
| any_double (x : float)
| any_string (s : string)
| any_strings (v : list string)
| any_doubles (v : list float)
| any_ints (v : list Z)
| any_other.   (* an empty [any], or one that holds any other type *)

(** ** libslic3r/ConfigChangeDispatcher.hpp *)

Module ConfigChangeDispatcher.

(** A [std::weak_ptr<IConfigChangeListener>] names a listener object;
    whether [lock()] succeeds depends on which objects are still owned
    somewhere, which the caller of [notify] supplies as [alive]. *)
Definition weak_ptr := nat.

(** A [std::function]: [None] is the empty function. *)
Definition callback := option nat.

Record t := {
  m_listeners : list weak_ptr;
  m_callbacks : list callback;
  m_enabled : bool
}.

(** The member initialisers: empty vectors, [m_enabled{true}]. *)
Definition create : t :=
  {| m_listeners := []; m_callbacks := []; m_enabled := true |}.

(** What [notify] calls. *)
Inductive delivery :=
| listener_on_config_change (listener : nat) (opt_key : string) (value : boost_any)
| callback_invoked (f : nat) (opt_key : string) (value : boost_any).

Definition add_listener (listener : weak_ptr) (b : t) : t :=
  {| m_listeners := m_listeners b ++ [listener];
     m_callbacks := m_callbacks b; m_enabled := m_enabled b |}.

Definition add_callback (f : callback) (b : t) : t :=
  {| m_listeners := m_listeners b;
     m_callbacks := m_callbacks b ++ [f]; m_enabled := m_enabled b |}.

(** The [while (it != m_listeners.end())] loop: the entries that stay, and
    the calls made. *)
Fixpoint sweep_and_notify (alive : nat -> bool) (opt_key : string) (value : boost_any)
    (ls : list weak_ptr) : list weak_ptr * list delivery :=
  match ls with
  | [] => ([], [])
  | w :: rest =>
      let '(kept, calls) := sweep_and_notify alive opt_key value rest in
      if alive w
      then (w :: kept, listener_on_config_change w opt_key value :: calls)
      else (kept, calls)
  end.

(** The [for (auto& callback : m_callbacks)] loop. *)
Fixpoint call_callbacks (opt_key : string) (value : boost_any) (cs : list callback)
  : list delivery :=
  match cs with
  | [] => []
  | None :: rest => call_callbacks opt_key value rest
  | Some f :: rest => callback_invoked f opt_key value :: call_callbacks opt_key value rest
  end.

Definition notify (alive : nat -> bool) (opt_key : string) (value : boost_any) (b : t)
  : t * list delivery :=
  let '(kept, calls) := sweep_and_notify alive opt_key value (m_listeners b) in
  ({| m_listeners := kept; m_callbacks := m_callbacks b; m_enabled := m_enabled b |},
   calls ++ call_callbacks opt_key value (m_callbacks b)).

Definition clear (b : t) : t :=
  {| m_listeners := []; m_callbacks := []; m_enabled := m_enabled b |}.

Definition set_enabled (enabled : bool) (b : t) : t :=
  {| m_listeners := m_listeners b; m_callbacks := m_callbacks b; m_enabled := enabled |}.

Definition is_enabled (b : t) : bool := m_enabled b.

(** The number of entries of a listener list whose object is gone. *)
Definition expired (alive : nat -> bool) (ls : list weak_ptr) : nat :=
  length (List.filter (fun w => negb (alive w)) ls).

(** How many entries of the listener list name the listener object [l]. *)
Definition entries (l : nat) (b : t) : nat :=
  length (List.filter (fun w => Nat.eqb w l) (m_listeners b)).

(** How many of the calls are [on_config_change] on the listener object
    [l]. *)
Definition calls_to (l : nat) (ds : list delivery) : nat :=
  length (List.filter (fun d => match d with
                                | listener_on_config_change l' _ _ => Nat.eqb l' l
                                | callback_invoked _ _ _ => false
                                end) ds).

End ConfigChangeDispatcher.

(** ** libslic3r/Config.hpp and libslic3r/PrintConfig.hpp (declarations only) *)

Definition INT_MIN : Z := (-2147483648)%Z.
Definition INT_MAX : Z := 2147483647%Z.
Definition FLT_MAX : float := 0x1.fffffep127%float.

(** Config.hpp is outside these sources.  The type of the [min] and [max]
    members of [ConfigOptionDef] is therefore a parameter, together with the
    two comparisons the publisher makes on it: [b != i] against an [int]
    constant and [b != x] against a [float] constant. *)
Class ConfigDecl := {
  bound : Type;
  bound_ne_int : bound -> Z -> bool;
  bound_ne_float : bound -> float -> bool
}.

Module ConfigOptionDef.

(** Modelled from the spec: [ConfigOptionDef] is declared in
    libslic3r/Config.hpp, which is not part of the sources.  These are the
    members the publisher reads: label, category, tooltip, unit text, the
    numeric bounds and the enum tables.  [enum_keys_map] is a pointer to a
    [std::map<std::string,int>], listed here in key order. *)
Record t `{ConfigDecl} := {
  label : string;
  category : string;
  tooltip : string;
  sidetext : string;
  min : bound;
  max : bound;
  enum_keys_map : option (list (string * Z));
  enum_values : list string;
  enum_labels : list string
}.

End ConfigOptionDef.

(** Modelled from the spec: the class [ConfigOption] and its subclasses are
    declared in libslic3r/Config.hpp, which is not part of the sources.  There
    is one constructor per option type the publisher has a [case] for, with
    the member it reads; [ConfigOptionOther] stands for every remaining type,
    scalar or vector, all of which reach the [default:] labels. *)
Inductive ConfigOption :=
| ConfigOptionBool (value : bool)
| ConfigOptionInt (value : Z)
| ConfigOptionFloat (value : float)
| ConfigOptionPercent (value : float)
| ConfigOptionString (value : string)
| ConfigOptionFloatOrPercent (value : float) (percent : bool)
| ConfigOptionEnum (value : Z)
| ConfigOptionFloats (values : list float)
| ConfigOptionPercents (values : list float)
| ConfigOptionInts (values : list Z)
| ConfigOptionBools (values : list bool)
| ConfigOptionStrings (values : list string)
| ConfigOptionPoints (values : list (float * float))
| ConfigOptionOther (vector : bool) (size : nat).

(** [ConfigOption::is_vector()]. *)
Definition is_vector (opt : ConfigOption) : bool :=
  match opt with
  | ConfigOptionFloats _ | ConfigOptionPercents _ | ConfigOptionInts _
  | ConfigOptionBools _ | ConfigOptionStrings _ | ConfigOptionPoints _ => true
  | ConfigOptionOther vector _ => vector
  | _ => false
  end.

(** The number of values a vector option holds. *)
Definition vector_size (opt : ConfigOption) : nat :=
  match opt with
  | ConfigOptionFloats v | ConfigOptionPercents v => length v
  | ConfigOptionInts v => length v
  | ConfigOptionBools v => length v
  | ConfigOptionStrings v => length v
  | ConfigOptionPoints v => length v
  | ConfigOptionOther true n => n
  | _ => 0
  end.

Module DynamicPrintConfig.

(** Modelled from the spec: [DynamicPrintConfig] is declared in
    libslic3r/PrintConfig.hpp, which is not part of the sources.  A config is
    its options, one entry per key, in the order [keys()] lists them. *)
Definition t := list (string * ConfigOption).

Definition keys (c : t) : list string := map fst c.

(** [config.option(opt_key)]: null when the key is absent. *)
Fixpoint option_ (c : t) (opt_key : string) : option ConfigOption :=
  match c with
  | [] => None
  | (k, o) :: rest => if String.eqb k opt_key then Some o else option_ rest opt_key
  end.

(** [config.option<ConfigOptionFloatsNullable>(opt_key)]: null as well when
    the option is not a vector of floats. *)
Definition option_floats (c : t) (opt_key : string) : option (list float) :=
  match option_ c opt_key with
  | Some (ConfigOptionFloats values) => Some values
  | _ => None
  end.

End DynamicPrintConfig.

(** ** std::ostringstream *)

(** What [operator<<] can be given in this code. *)
Inductive insertion `{ConfigDecl} :=
| lit (s : string)          (* a string literal of the source *)
| str (s : string)          (* a [std::string] *)
| int (i : Z)
| dbl (x : float)
| num (b : bound)           (* a [min] or [max] of a [ConfigOptionDef] *)
| setprecision (n : nat).

(** The standard library's rendering of floating-point numbers at a given
    precision, and the option registry [print_config_def], are outside this
    code base. *)
Class Platform `{ConfigDecl} := {
  show_double : nat -> float -> string;
  show_bound : nat -> bound -> string;
  (** [print_config_def.get(opt_key)] *)
  print_config_def_get : string -> option ConfigOptionDef.t;
}.

(** [json.str()] for a stream that received [ins], the precision being
    [prec] before. *)
Fixpoint str_from `{Platform} (prec : nat) (ins : list insertion) : string :=
  match ins with
  | [] => EmptyString
  | lit s :: rest => s +:+ str_from prec rest
  | str s :: rest => s +:+ str_from prec rest
  | int i :: rest => show_int i +:+ str_from prec rest
  | dbl x :: rest => show_double prec x +:+ str_from prec rest
  | num b :: rest => show_bound prec b +:+ str_from prec rest
  | setprecision n :: rest => str_from n rest
  end.

(** A fresh stream has precision 6. *)
Definition str_of `{Platform} (ins : list insertion) : string := str_from 6 ins.

(** The insertion that follows the first occurrence of the literal [l]. *)
Fixpoint after_literal `{ConfigDecl} (l : string) (ins : list insertion) : option insertion :=
  match ins with
  | lit s :: rest =>
      if String.eqb s l then head rest else after_literal l rest
  | _ :: rest => after_literal l rest
  | [] => None
  end.

(** Whether the literal [l] was inserted. *)
Fixpoint has_literal `{ConfigDecl} (l : string) (ins : list insertion) : bool :=
  match ins with
  | lit s :: rest => String.eqb s l || has_literal l rest
  | _ :: rest => has_literal l rest
  | [] => false
  end.

(** The precision a stream has after it received [ins]. *)
Fixpoint precision_after `{ConfigDecl} (prec : nat) (ins : list insertion) : nat :=
  match ins with
  | [] => prec
  | setprecision n :: rest => precision_after n rest
  | _ :: rest => precision_after prec rest
  end.

(** [pat] occurs in the text [s]. *)
Definition occurs (pat s : string) : Prop := exists a b : string, s = a +:+ pat +:+ b.

(** A search for [pat] through a text, one character at a time: the state
    is the number of characters of [pat] that the text read so far ends
    with, and stays at [String.length pat] once [pat] has been read.  A
    character that does not continue [pat] starts it again when it is its
    first character: this finds every occurrence of a [pat] that holds its
    first character once, as the two literals searched for do. *)
Definition scan_step (pat : string) (q : nat) (c : ascii) : nat :=
  if String.length pat <=? q then q
  else if match String.get q pat with Some x => Ascii.eqb x c | None => false end then S q
  else if match String.get 0 pat with Some x => Ascii.eqb x c | None => false end then 1
  else 0.

Fixpoint scan (pat : string) (q : nat) (s : string) : nat :=
  match s with
  | EmptyString => q
  | String c rest => scan pat (scan_step pat q c) rest
  end.

(** The states of a search for [,"min":] or [,"max":] in a payload: after a
    delimiter, between two members, and within a string. *)
Definition after_delimiter (q : nat) : Prop := q <= 1.
Definition between_members (q : nat) : Prop := q <= 2 \/ q = 6.
Definition within_string (q : nat) : Prop := q <= 5.

(** Every text that [ins] can put on a stream takes a search for [pat] from
    a state of [X] to a state of [Y]. *)
Definition takes `{Platform} (pat : string) (X Y : nat -> Prop) (ins : list insertion) : Prop :=
  forall prec q, X q -> Y (scan pat q (str_from prec ins)).

(** No rendering of a number holds a double quote. *)
Definition plain_numbers `{Platform} : Prop :=
  (forall prec x, ~ In dquote_char (list_ascii_of_string (show_double prec x)))
  /\ (forall prec b, ~ In dquote_char (list_ascii_of_string (show_bound prec b))).

(** ** slic3r/Network/MqttConfigPublisher.hpp *)

Record ConfigTopicInfo := {
  page : string;
  group : string
}.

Module ConfigTopics.
Module Quality.
Definition PAGE : string := "quality".
Module LayerHeight.
Definition GROUP : string := "layer_height".
End LayerHeight.
Module LineWidth.
Definition GROUP : string := "line_width".
End LineWidth.
Module Seam.
Definition GROUP : string := "seam".
End Seam.
Module Precision.
Definition GROUP : string := "precision".
End Precision.
Module Ironing.
Definition GROUP : string := "ironing".
End Ironing.
Module WallGenerator.
Definition GROUP : string := "wall_generator".
End WallGenerator.
Module Advanced.
Definition GROUP : string := "advanced".
End Advanced.
End Quality.
Module Strength.
Definition PAGE : string := "strength".
Module Walls.
Definition GROUP : string := "walls".
End Walls.
Module TopBottomShells.
Definition GROUP : string := "top_bottom_shells".
End TopBottomShells.
Module SparseInfill.
Definition GROUP : string := "sparse_infill".
End SparseInfill.
Module Advanced.
Definition GROUP : string := "advanced".
End Advanced.
End Strength.
Module Speed.
Definition PAGE : string := "speed".
Module InitialLayer.
Definition GROUP : string := "initial_layer".
End InitialLayer.
Module OtherLayers.
Definition GROUP : string := "other_layers".
End OtherLayers.
Module Travel.
Definition GROUP : string := "travel".
End Travel.
Module Acceleration.
Definition GROUP : string := "acceleration".
End Acceleration.
Module Jerk.
Definition GROUP : string := "jerk".
End Jerk.
End Speed.
Module Support.
Definition PAGE : string := "support".
Module General.
Definition GROUP : string := "general".
End General.
Module Raft.
Definition GROUP : string := "raft".
End Raft.
Module Filament.
Definition GROUP : string := "filament".
End Filament.
Module Advanced.
Definition GROUP : string := "advanced".
End Advanced.
Module TreeSupport.
Definition GROUP : string := "tree_support".
End TreeSupport.
End Support.
Module Others.
Definition PAGE : string := "others".
Module BedAdhesion.
Definition GROUP : string := "bed_adhesion".
End BedAdhesion.
Module PrimeTower.
Definition GROUP : string := "prime_tower".
End PrimeTower.
Module FlushOptions.
Definition GROUP : string := "flush_options".
End FlushOptions.
Module SpecialMode.
Definition GROUP : string := "special_mode".
End SpecialMode.
Module Advanced.
Definition GROUP : string := "advanced".
End Advanced.
Module GcodeOutput.
Definition GROUP : string := "gcode_output".
End GcodeOutput.
End Others.
End ConfigTopics.

(** ** slic3r/Network/MqttConfigPublisher.cpp *)

(** One call [mosquitto_publish(m_mosq, nullptr, topic, payloadlen, payload,
    qos, retain)].  [topic] is the C string the library reads at the pointer
    it gets; [payload] is the buffer at [payload.data()], of which the
    library is told to read [payloadlen] bytes. *)
Record PublishCall := {
  topic : string;
  payloadlen : Z;
  payload : string;
  qos : Z;
  retain : bool
}.

Definition MOSQ_ERR_SUCCESS : Z := 0%Z.

(** libmosquitto is outside this code base: the code returned by
    [mosquitto_publish] is a parameter, and may depend on every call made on
    the client so far. *)
Class Mosquitto := {
  mosquitto_publish_rc : list PublishCall -> PublishCall -> Z
}.

(** A computation that calls [mosquitto_publish]: from the calls made so far
    to a result and the calls made since. *)
Definition Wire (A : Type) : Type := list PublishCall -> A * list PublishCall.

Global Instance Wire_ret : MRet Wire := fun A a w => (a, w).
Global Instance Wire_bind : MBind Wire :=
  fun A B f m w => let '(a, w') := m w in f a w'.

Definition mosquitto_publish `{Mosquitto} (c : PublishCall) : Wire Z :=
  fun w => (mosquitto_publish_rc w c, w ++ [c]).

(** A range-based [for] whose body returns nothing. *)
Fixpoint for_each {A : Type} (l : list A) (body : A -> Wire unit) : Wire unit :=
  match l with
  | [] => mret tt
  | x :: rest => body x ;; for_each rest body
  end.

(** The calls a computation adds to those made before. *)
Definition calls_of {A : Type} (m : Wire A) (before : list PublishCall) : list PublishCall :=
  drop (length before) (snd (m before)).

(** A computation only ever adds calls to those made before it. *)
Definition extends {A : Type} (m : Wire A) : Prop :=
  forall w, snd (m w) = w ++ calls_of m w.

Definition json_escape_char (c : ascii) : string :=
  if Ascii.eqb c "034" then "\" +:+ dq
  else if Ascii.eqb c "\" then "\\"
  else if Ascii.eqb c "008" then "\b"
  else if Ascii.eqb c "012" then "\f"
  else if Ascii.eqb c "010" then "\n"
  else if Ascii.eqb c "013" then "\r"
  else if Ascii.eqb c "009" then "\t"
  else String c EmptyString.

Fixpoint json_escape (s : string) : string :=
  match s with
  | EmptyString => EmptyString
  | String c rest => json_escape_char c +:+ json_escape rest
  end.

(** The [for (size_t i = 0; i < vec.size(); ++i)] loops that write the
    elements of an array, separated by commas. *)
Fixpoint comma_separated `{ConfigDecl} {A : Type} (elem : A -> list insertion)
    (first : bool) (v : list A) : list insertion :=
  match v with
  | [] => []
  | x :: rest =>
      (if first then [] else [lit ","]) ++ elem x ++ comma_separated elem false rest
  end.

(** The per-extruder option names of [get_extruder_topic_group]. *)
Definition extruder_basic_opts : gset string := list_to_set [
  "extruder_type"; "nozzle_diameter"; "nozzle_volume"; "extruder_printable_height";
  "extruder_printable_area"; "default_nozzle_volume_type"; "extruder_offset"; "extruder_colour"
].
Definition extruder_layer_opts : gset string := list_to_set [
  "min_layer_height"; "max_layer_height"
].
Definition extruder_retraction_opts : gset string := list_to_set [
  "retraction_length"; "z_hop"; "retract_lift_above"; "retract_lift_below";
  "z_hop_types"; "retraction_speed"; "deretraction_speed"; "retract_restart_extra";
  "retraction_minimum_travel"; "retract_when_changing_layer"; "wipe"; "wipe_distance";
  "retract_before_wipe"; "retract_length_toolchange"; "retract_restart_extra_toolchange";
  "long_retractions_when_cut"; "retraction_distances_when_cut"
].

(** The option names of [get_printer_topic]. *)
Definition basic_printable_opts : gset string := list_to_set [
  "printable_area"; "bed_exclude_area"; "printable_height"; "best_object_pos"
].
Definition basic_advanced_opts : gset string := list_to_set [
  "gcode_flavor"; "use_relative_e_distances"; "use_firmware_retraction";
  "machine_load_filament_time"; "machine_unload_filament_time";
  "machine_switch_extruder_time"; "machine_hotend_change_time";
  "printer_structure"; "scan_first_layer"; "thumbnail_size"
].
Definition basic_clearance_opts : gset string := list_to_set [
  "extruder_clearance_max_radius"; "extruder_clearance_dist_to_rod";
  "extruder_clearance_height_to_rod"; "extruder_clearance_height_to_lid"
].
Definition basic_accessory_opts : gset string := list_to_set [
  "nozzle_type"; "auxiliary_fan"; "fan_direction"; "support_chamber_temp_control";
  "support_air_filtration"; "cooling_filter_enabled"; "auto_disable_filter_on_overheat"
].
Definition gcode_opts : gset string := list_to_set [
  "machine_start_gcode"; "machine_end_gcode"; "printing_by_object_gcode";
  "before_layer_change_gcode"; "layer_change_gcode"; "time_lapse_gcode";
  "wrapping_detection_gcode"; "change_filament_gcode"; "machine_pause_gcode";
  "template_custom_gcode"
].
Definition motion_speed_opts : gset string := list_to_set [
  "machine_max_speed_x"; "machine_max_speed_y"; "machine_max_speed_z"; "machine_max_speed_e"
].
Definition motion_accel_opts : gset string := list_to_set [
  "machine_max_acceleration_x"; "machine_max_acceleration_y";
  "machine_max_acceleration_z"; "machine_max_acceleration_e";
  "machine_max_acceleration_extruding"; "machine_max_acceleration_retracting";
  "machine_max_acceleration_travel"
].
Definition motion_jerk_opts : gset string := list_to_set [
  "machine_max_jerk_x"; "machine_max_jerk_y"; "machine_max_jerk_z"; "machine_max_jerk_e"
].

(** [set.count(opt_key)] as a condition. *)
Definition count (s : gset string) (opt_key : string) : bool := bool_decide (opt_key ∈ s).

Definition get_printer_topic (opt_key : string) : string :=
  if count basic_printable_opts opt_key then "basic_information/printable_space/" +:+ opt_key
  else if count basic_advanced_opts opt_key then "basic_information/advanced/" +:+ opt_key
  else if count basic_clearance_opts opt_key then "basic_information/extruder_clearance/" +:+ opt_key
  else if count basic_accessory_opts opt_key then "basic_information/accessory/" +:+ opt_key
  else if count gcode_opts opt_key then "machine_gcode/" +:+ opt_key
  else if count motion_speed_opts opt_key then "motion_ability/speed/" +:+ opt_key
  else if count motion_accel_opts opt_key then "motion_ability/acceleration/" +:+ opt_key
  else if count motion_jerk_opts opt_key then "motion_ability/jerk/" +:+ opt_key
  else if String.eqb opt_key "printer_notes" then "notes/" +:+ opt_key
  else "misc/" +:+ opt_key.

Definition get_extruder_topic_group (opt_key : string) : string :=
  if count extruder_basic_opts opt_key then "basic_information"
  else if count extruder_layer_opts opt_key then "layer_height_limits"
  else if count extruder_retraction_opts opt_key then "retraction"
  else EmptyString.

(** The assignments [m_topic_map[key] = {page, group}] of [init_topic_map],
    in source order. *)
Definition topic_assignments : list (string * ConfigTopicInfo) :=
  [
  ("layer_height", {| page := ConfigTopics.Quality.PAGE; group := ConfigTopics.Quality.LayerHeight.GROUP |});
  ("initial_layer_print_height", {| page := ConfigTopics.Quality.PAGE; group := ConfigTopics.Quality.LayerHeight.GROUP |});
  ("line_width", {| page := ConfigTopics.Quality.PAGE; group := ConfigTopics.Quality.LineWidth.GROUP |});
  ("initial_layer_line_width", {| page := ConfigTopics.Quality.PAGE; group := ConfigTopics.Quality.LineWidth.GROUP |});
  ("outer_wall_line_width", {| page := ConfigTopics.Quality.PAGE; group := ConfigTopics.Quality.LineWidth.GROUP |});
  ("inner_wall_line_width", {| page := ConfigTopics.Quality.PAGE; group := ConfigTopics.Quality.LineWidth.GROUP |});
  ("top_surface_line_width", {| page := ConfigTopics.Quality.PAGE; group := ConfigTopics.Quality.LineWidth.GROUP |});
  ("sparse_infill_line_width", {| page := ConfigTopics.Quality.PAGE; group := ConfigTopics.Quality.LineWidth.GROUP |});
  ("internal_solid_infill_line_width", {| page := ConfigTopics.Quality.PAGE; group := ConfigTopics.Quality.LineWidth.GROUP |});
  ("support_line_width", {| page := ConfigTopics.Quality.PAGE; group := ConfigTopics.Quality.LineWidth.GROUP |});
  ("seam_position", {| page := ConfigTopics.Quality.PAGE; group := ConfigTopics.Quality.Seam.GROUP |});
  ("seam_placement_away_from_overhangs", {| page := ConfigTopics.Quality.PAGE; group := ConfigTopics.Quality.Seam.GROUP |});
  ("seam_gap", {| page := ConfigTopics.Quality.PAGE; group := ConfigTopics.Quality.Seam.GROUP |});
  ("seam_slope_conditional", {| page := ConfigTopics.Quality.PAGE; group := ConfigTopics.Quality.Seam.GROUP |});
  ("scarf_angle_threshold", {| page := ConfigTopics.Quality.PAGE; group := ConfigTopics.Quality.Seam.GROUP |});
  ("seam_slope_entire_loop", {| page := ConfigTopics.Quality.PAGE; group := ConfigTopics.Quality.Seam.GROUP |});
  ("seam_slope_steps", {| page := ConfigTopics.Quality.PAGE; group := ConfigTopics.Quality.Seam.GROUP |});
  ("seam_slope_inner_walls", {| page := ConfigTopics.Quality.PAGE; group := ConfigTopics.Quality.Seam.GROUP |});
  ("override_filament_scarf_seam_setting", {| page := ConfigTopics.Quality.PAGE; group := ConfigTopics.Quality.Seam.GROUP |});
  ("seam_slope_type", {| page := ConfigTopics.Quality.PAGE; group := ConfigTopics.Quality.Seam.GROUP |});
  ("seam_slope_start_height", {| page := ConfigTopics.Quality.PAGE; group := ConfigTopics.Quality.Seam.GROUP |});
  ("seam_slope_gap", {| page := ConfigTopics.Quality.PAGE; group := ConfigTopics.Quality.Seam.GROUP |});
  ("seam_slope_min_length", {| page := ConfigTopics.Quality.PAGE; group := ConfigTopics.Quality.Seam.GROUP |});
  ("wipe_speed", {| page := ConfigTopics.Quality.PAGE; group := ConfigTopics.Quality.Seam.GROUP |});
  ("role_base_wipe_speed", {| page := ConfigTopics.Quality.PAGE; group := ConfigTopics.Quality.Seam.GROUP |});
  ("slice_closing_radius", {| page := ConfigTopics.Quality.PAGE; group := ConfigTopics.Quality.Precision.GROUP |});
  ("resolution", {| page := ConfigTopics.Quality.PAGE; group := ConfigTopics.Quality.Precision.GROUP |});
  ("enable_arc_fitting", {| page := ConfigTopics.Quality.PAGE; group := ConfigTopics.Quality.Precision.GROUP |});
  ("xy_hole_compensation", {| page := ConfigTopics.Quality.PAGE; group := ConfigTopics.Quality.Precision.GROUP |});
  ("xy_contour_compensation", {| page := ConfigTopics.Quality.PAGE; group := ConfigTopics.Quality.Precision.GROUP |});
  ("enable_circle_compensation", {| page := ConfigTopics.Quality.PAGE; group := ConfigTopics.Quality.Precision.GROUP |});
  ("circle_compensation_manual_offset", {| page := ConfigTopics.Quality.PAGE; group := ConfigTopics.Quality.Precision.GROUP |});
  ("elefant_foot_compensation", {| page := ConfigTopics.Quality.PAGE; group := ConfigTopics.Quality.Precision.GROUP |});
  ("precise_outer_wall", {| page := ConfigTopics.Quality.PAGE; group := ConfigTopics.Quality.Precision.GROUP |});
  ("precise_z_height", {| page := ConfigTopics.Quality.PAGE; group := ConfigTopics.Quality.Precision.GROUP |});
  ("ironing_type", {| page := ConfigTopics.Quality.PAGE; group := ConfigTopics.Quality.Ironing.GROUP |});
  ("ironing_pattern", {| page := ConfigTopics.Quality.PAGE; group := ConfigTopics.Quality.Ironing.GROUP |});
  ("ironing_speed", {| page := ConfigTopics.Quality.PAGE; group := ConfigTopics.Quality.Ironing.GROUP |});
  ("ironing_flow", {| page := ConfigTopics.Quality.PAGE; group := ConfigTopics.Quality.Ironing.GROUP |});
  ("ironing_spacing", {| page := ConfigTopics.Quality.PAGE; group := ConfigTopics.Quality.Ironing.GROUP |});
  ("ironing_inset", {| page := ConfigTopics.Quality.PAGE; group := ConfigTopics.Quality.Ironing.GROUP |});
  ("ironing_direction", {| page := ConfigTopics.Quality.PAGE; group := ConfigTopics.Quality.Ironing.GROUP |});
  ("wall_generator", {| page := ConfigTopics.Quality.PAGE; group := ConfigTopics.Quality.WallGenerator.GROUP |});
  ("wall_transition_angle", {| page := ConfigTopics.Quality.PAGE; group := ConfigTopics.Quality.WallGenerator.GROUP |});
  ("wall_transition_filter_deviation", {| page := ConfigTopics.Quality.PAGE; group := ConfigTopics.Quality.WallGenerator.GROUP |});
  ("wall_transition_length", {| page := ConfigTopics.Quality.PAGE; group := ConfigTopics.Quality.WallGenerator.GROUP |});
  ("wall_distribution_count", {| page := ConfigTopics.Quality.PAGE; group := ConfigTopics.Quality.WallGenerator.GROUP |});
  ("min_bead_width", {| page := ConfigTopics.Quality.PAGE; group := ConfigTopics.Quality.WallGenerator.GROUP |});
  ("min_feature_size", {| page := ConfigTopics.Quality.PAGE; group := ConfigTopics.Quality.WallGenerator.GROUP |});
  ("wall_sequence", {| page := ConfigTopics.Quality.PAGE; group := ConfigTopics.Quality.Advanced.GROUP |});
  ("is_infill_first", {| page := ConfigTopics.Quality.PAGE; group := ConfigTopics.Quality.Advanced.GROUP |});
  ("bridge_flow", {| page := ConfigTopics.Quality.PAGE; group := ConfigTopics.Quality.Advanced.GROUP |});
  ("thick_bridges", {| page := ConfigTopics.Quality.PAGE; group := ConfigTopics.Quality.Advanced.GROUP |});
  ("print_flow_ratio", {| page := ConfigTopics.Quality.PAGE; group := ConfigTopics.Quality.Advanced.GROUP |});
  ("top_solid_infill_flow_ratio", {| page := ConfigTopics.Quality.PAGE; group := ConfigTopics.Quality.Advanced.GROUP |});
  ("initial_layer_flow_ratio", {| page := ConfigTopics.Quality.PAGE; group := ConfigTopics.Quality.Advanced.GROUP |});
  ("top_one_wall_type", {| page := ConfigTopics.Quality.PAGE; group := ConfigTopics.Quality.Advanced.GROUP |});
  ("top_area_threshold", {| page := ConfigTopics.Quality.PAGE; group := ConfigTopics.Quality.Advanced.GROUP |});
  ("only_one_wall_first_layer", {| page := ConfigTopics.Quality.PAGE; group := ConfigTopics.Quality.Advanced.GROUP |});
  ("detect_overhang_wall", {| page := ConfigTopics.Quality.PAGE; group := ConfigTopics.Quality.Advanced.GROUP |});
  ("smooth_speed_discontinuity_area", {| page := ConfigTopics.Quality.PAGE; group := ConfigTopics.Quality.Advanced.GROUP |});
  ("smooth_coefficient", {| page := ConfigTopics.Quality.PAGE; group := ConfigTopics.Quality.Advanced.GROUP |});
  ("reduce_crossing_wall", {| page := ConfigTopics.Quality.PAGE; group := ConfigTopics.Quality.Advanced.GROUP |});
  ("max_travel_detour_distance", {| page := ConfigTopics.Quality.PAGE; group := ConfigTopics.Quality.Advanced.GROUP |});
  ("avoid_crossing_wall_includes_support", {| page := ConfigTopics.Quality.PAGE; group := ConfigTopics.Quality.Advanced.GROUP |});
  ("z_direction_outwall_speed_continuous", {| page := ConfigTopics.Quality.PAGE; group := ConfigTopics.Quality.Advanced.GROUP |});
  ("wall_loops", {| page := ConfigTopics.Strength.PAGE; group := ConfigTopics.Strength.Walls.GROUP |});
  ("embedding_wall_into_infill", {| page := ConfigTopics.Strength.PAGE; group := ConfigTopics.Strength.Walls.GROUP |});
  ("detect_thin_wall", {| page := ConfigTopics.Strength.PAGE; group := ConfigTopics.Strength.Walls.GROUP |});
  ("interface_shells", {| page := ConfigTopics.Strength.PAGE; group := ConfigTopics.Strength.TopBottomShells.GROUP |});
  ("top_surface_pattern", {| page := ConfigTopics.Strength.PAGE; group := ConfigTopics.Strength.TopBottomShells.GROUP |});
  ("top_shell_layers", {| page := ConfigTopics.Strength.PAGE; group := ConfigTopics.Strength.TopBottomShells.GROUP |});
  ("top_shell_thickness", {| page := ConfigTopics.Strength.PAGE; group := ConfigTopics.Strength.TopBottomShells.GROUP |});
  ("top_color_penetration_layers", {| page := ConfigTopics.Strength.PAGE; group := ConfigTopics.Strength.TopBottomShells.GROUP |});
  ("bottom_surface_pattern", {| page := ConfigTopics.Strength.PAGE; group := ConfigTopics.Strength.TopBottomShells.GROUP |});
  ("bottom_shell_layers", {| page := ConfigTopics.Strength.PAGE; group := ConfigTopics.Strength.TopBottomShells.GROUP |});
  ("bottom_shell_thickness", {| page := ConfigTopics.Strength.PAGE; group := ConfigTopics.Strength.TopBottomShells.GROUP |});
  ("bottom_color_penetration_layers", {| page := ConfigTopics.Strength.PAGE; group := ConfigTopics.Strength.TopBottomShells.GROUP |});
  ("infill_instead_top_bottom_surfaces", {| page := ConfigTopics.Strength.PAGE; group := ConfigTopics.Strength.TopBottomShells.GROUP |});
  ("internal_solid_infill_pattern", {| page := ConfigTopics.Strength.PAGE; group := ConfigTopics.Strength.TopBottomShells.GROUP |});
  ("sparse_infill_density", {| page := ConfigTopics.Strength.PAGE; group := ConfigTopics.Strength.SparseInfill.GROUP |});
  ("fill_multiline", {| page := ConfigTopics.Strength.PAGE; group := ConfigTopics.Strength.SparseInfill.GROUP |});
  ("sparse_infill_pattern", {| page := ConfigTopics.Strength.PAGE; group := ConfigTopics.Strength.SparseInfill.GROUP |});
  ("locked_skin_infill_pattern", {| page := ConfigTopics.Strength.PAGE; group := ConfigTopics.Strength.SparseInfill.GROUP |});
  ("skin_infill_density", {| page := ConfigTopics.Strength.PAGE; group := ConfigTopics.Strength.SparseInfill.GROUP |});
  ("locked_skeleton_infill_pattern", {| page := ConfigTopics.Strength.PAGE; group := ConfigTopics.Strength.SparseInfill.GROUP |});
  ("skeleton_infill_density", {| page := ConfigTopics.Strength.PAGE; group := ConfigTopics.Strength.SparseInfill.GROUP |});
  ("infill_lock_depth", {| page := ConfigTopics.Strength.PAGE; group := ConfigTopics.Strength.SparseInfill.GROUP |});
  ("skin_infill_depth", {| page := ConfigTopics.Strength.PAGE; group := ConfigTopics.Strength.SparseInfill.GROUP |});
  ("skin_infill_line_width", {| page := ConfigTopics.Strength.PAGE; group := ConfigTopics.Strength.SparseInfill.GROUP |});
  ("skeleton_infill_line_width", {| page := ConfigTopics.Strength.PAGE; group := ConfigTopics.Strength.SparseInfill.GROUP |});
  ("symmetric_infill_y_axis", {| page := ConfigTopics.Strength.PAGE; group := ConfigTopics.Strength.SparseInfill.GROUP |});
  ("infill_shift_step", {| page := ConfigTopics.Strength.PAGE; group := ConfigTopics.Strength.SparseInfill.GROUP |});
  ("infill_rotate_step", {| page := ConfigTopics.Strength.PAGE; group := ConfigTopics.Strength.SparseInfill.GROUP |});
  ("sparse_infill_anchor", {| page := ConfigTopics.Strength.PAGE; group := ConfigTopics.Strength.SparseInfill.GROUP |});
  ("sparse_infill_anchor_max", {| page := ConfigTopics.Strength.PAGE; group := ConfigTopics.Strength.SparseInfill.GROUP |});
  ("filter_out_gap_fill", {| page := ConfigTopics.Strength.PAGE; group := ConfigTopics.Strength.SparseInfill.GROUP |});
  ("infill_wall_overlap", {| page := ConfigTopics.Strength.PAGE; group := ConfigTopics.Strength.Advanced.GROUP |});
  ("infill_direction", {| page := ConfigTopics.Strength.PAGE; group := ConfigTopics.Strength.Advanced.GROUP |});
  ("bridge_angle", {| page := ConfigTopics.Strength.PAGE; group := ConfigTopics.Strength.Advanced.GROUP |});
  ("minimum_sparse_infill_area", {| page := ConfigTopics.Strength.PAGE; group := ConfigTopics.Strength.Advanced.GROUP |});
  ("infill_combination", {| page := ConfigTopics.Strength.PAGE; group := ConfigTopics.Strength.Advanced.GROUP |});
  ("detect_narrow_internal_solid_infill", {| page := ConfigTopics.Strength.PAGE; group := ConfigTopics.Strength.Advanced.GROUP |});
  ("ensure_vertical_shell_thickness", {| page := ConfigTopics.Strength.PAGE; group := ConfigTopics.Strength.Advanced.GROUP |});
  ("detect_floating_vertical_shell", {| page := ConfigTopics.Strength.PAGE; group := ConfigTopics.Strength.Advanced.GROUP |});
  ("initial_layer_speed", {| page := ConfigTopics.Speed.PAGE; group := ConfigTopics.Speed.InitialLayer.GROUP |});
  ("initial_layer_infill_speed", {| page := ConfigTopics.Speed.PAGE; group := ConfigTopics.Speed.InitialLayer.GROUP |});
  ("outer_wall_speed", {| page := ConfigTopics.Speed.PAGE; group := ConfigTopics.Speed.OtherLayers.GROUP |});
  ("inner_wall_speed", {| page := ConfigTopics.Speed.PAGE; group := ConfigTopics.Speed.OtherLayers.GROUP |});
  ("small_perimeter_speed", {| page := ConfigTopics.Speed.PAGE; group := ConfigTopics.Speed.OtherLayers.GROUP |});
  ("small_perimeter_threshold", {| page := ConfigTopics.Speed.PAGE; group := ConfigTopics.Speed.OtherLayers.GROUP |});
  ("sparse_infill_speed", {| page := ConfigTopics.Speed.PAGE; group := ConfigTopics.Speed.OtherLayers.GROUP |});
  ("internal_solid_infill_speed", {| page := ConfigTopics.Speed.PAGE; group := ConfigTopics.Speed.OtherLayers.GROUP |});
  ("vertical_shell_speed", {| page := ConfigTopics.Speed.PAGE; group := ConfigTopics.Speed.OtherLayers.GROUP |});
  ("top_surface_speed", {| page := ConfigTopics.Speed.PAGE; group := ConfigTopics.Speed.OtherLayers.GROUP |});
  ("enable_overhang_speed", {| page := ConfigTopics.Speed.PAGE; group := ConfigTopics.Speed.OtherLayers.GROUP |});
  ("overhang_1_4_speed", {| page := ConfigTopics.Speed.PAGE; group := ConfigTopics.Speed.OtherLayers.GROUP |});
  ("overhang_2_4_speed", {| page := ConfigTopics.Speed.PAGE; group := ConfigTopics.Speed.OtherLayers.GROUP |});
  ("overhang_3_4_speed", {| page := ConfigTopics.Speed.PAGE; group := ConfigTopics.Speed.OtherLayers.GROUP |});
  ("overhang_4_4_speed", {| page := ConfigTopics.Speed.PAGE; group := ConfigTopics.Speed.OtherLayers.GROUP |});
  ("overhang_totally_speed", {| page := ConfigTopics.Speed.PAGE; group := ConfigTopics.Speed.OtherLayers.GROUP |});
  ("enable_height_slowdown", {| page := ConfigTopics.Speed.PAGE; group := ConfigTopics.Speed.OtherLayers.GROUP |});
  ("slowdown_start_height", {| page := ConfigTopics.Speed.PAGE; group := ConfigTopics.Speed.OtherLayers.GROUP |});
  ("slowdown_start_speed", {| page := ConfigTopics.Speed.PAGE; group := ConfigTopics.Speed.OtherLayers.GROUP |});
  ("slowdown_start_acc", {| page := ConfigTopics.Speed.PAGE; group := ConfigTopics.Speed.OtherLayers.GROUP |});
  ("slowdown_end_height", {| page := ConfigTopics.Speed.PAGE; group := ConfigTopics.Speed.OtherLayers.GROUP |});
  ("slowdown_end_speed", {| page := ConfigTopics.Speed.PAGE; group := ConfigTopics.Speed.OtherLayers.GROUP |});
  ("slowdown_end_acc", {| page := ConfigTopics.Speed.PAGE; group := ConfigTopics.Speed.OtherLayers.GROUP |});
  ("bridge_speed", {| page := ConfigTopics.Speed.PAGE; group := ConfigTopics.Speed.OtherLayers.GROUP |});
  ("gap_infill_speed", {| page := ConfigTopics.Speed.PAGE; group := ConfigTopics.Speed.OtherLayers.GROUP |});
  ("support_speed", {| page := ConfigTopics.Speed.PAGE; group := ConfigTopics.Speed.OtherLayers.GROUP |});
  ("support_interface_speed", {| page := ConfigTopics.Speed.PAGE; group := ConfigTopics.Speed.OtherLayers.GROUP |});
  ("travel_speed", {| page := ConfigTopics.Speed.PAGE; group := ConfigTopics.Speed.Travel.GROUP |});
  ("default_acceleration", {| page := ConfigTopics.Speed.PAGE; group := ConfigTopics.Speed.Acceleration.GROUP |});
  ("travel_acceleration", {| page := ConfigTopics.Speed.PAGE; group := ConfigTopics.Speed.Acceleration.GROUP |});
  ("initial_layer_travel_acceleration", {| page := ConfigTopics.Speed.PAGE; group := ConfigTopics.Speed.Acceleration.GROUP |});
  ("initial_layer_acceleration", {| page := ConfigTopics.Speed.PAGE; group := ConfigTopics.Speed.Acceleration.GROUP |});
  ("outer_wall_acceleration", {| page := ConfigTopics.Speed.PAGE; group := ConfigTopics.Speed.Acceleration.GROUP |});
  ("inner_wall_acceleration", {| page := ConfigTopics.Speed.PAGE; group := ConfigTopics.Speed.Acceleration.GROUP |});
  ("top_surface_acceleration", {| page := ConfigTopics.Speed.PAGE; group := ConfigTopics.Speed.Acceleration.GROUP |});
  ("sparse_infill_acceleration", {| page := ConfigTopics.Speed.PAGE; group := ConfigTopics.Speed.Acceleration.GROUP |});
  ("accel_to_decel_enable", {| page := ConfigTopics.Speed.PAGE; group := ConfigTopics.Speed.Acceleration.GROUP |});
  ("accel_to_decel_factor", {| page := ConfigTopics.Speed.PAGE; group := ConfigTopics.Speed.Acceleration.GROUP |});
  ("default_jerk", {| page := ConfigTopics.Speed.PAGE; group := ConfigTopics.Speed.Jerk.GROUP |});
  ("outer_wall_jerk", {| page := ConfigTopics.Speed.PAGE; group := ConfigTopics.Speed.Jerk.GROUP |});
  ("inner_wall_jerk", {| page := ConfigTopics.Speed.PAGE; group := ConfigTopics.Speed.Jerk.GROUP |});
  ("infill_jerk", {| page := ConfigTopics.Speed.PAGE; group := ConfigTopics.Speed.Jerk.GROUP |});
  ("top_surface_jerk", {| page := ConfigTopics.Speed.PAGE; group := ConfigTopics.Speed.Jerk.GROUP |});
  ("initial_layer_jerk", {| page := ConfigTopics.Speed.PAGE; group := ConfigTopics.Speed.Jerk.GROUP |});
  ("travel_jerk", {| page := ConfigTopics.Speed.PAGE; group := ConfigTopics.Speed.Jerk.GROUP |});
  ("enable_support", {| page := ConfigTopics.Support.PAGE; group := ConfigTopics.Support.General.GROUP |});
  ("support_type", {| page := ConfigTopics.Support.PAGE; group := ConfigTopics.Support.General.GROUP |});
  ("support_style", {| page := ConfigTopics.Support.PAGE; group := ConfigTopics.Support.General.GROUP |});
  ("support_threshold_angle", {| page := ConfigTopics.Support.PAGE; group := ConfigTopics.Support.General.GROUP |});
  ("support_on_build_plate_only", {| page := ConfigTopics.Support.PAGE; group := ConfigTopics.Support.General.GROUP |});
  ("support_critical_regions_only", {| page := ConfigTopics.Support.PAGE; group := ConfigTopics.Support.General.GROUP |});
  ("support_remove_small_overhang", {| page := ConfigTopics.Support.PAGE; group := ConfigTopics.Support.General.GROUP |});
  ("raft_layers", {| page := ConfigTopics.Support.PAGE; group := ConfigTopics.Support.Raft.GROUP |});
  ("raft_contact_distance", {| page := ConfigTopics.Support.PAGE; group := ConfigTopics.Support.Raft.GROUP |});
  ("support_filament", {| page := ConfigTopics.Support.PAGE; group := ConfigTopics.Support.Filament.GROUP |});
  ("support_interface_filament", {| page := ConfigTopics.Support.PAGE; group := ConfigTopics.Support.Filament.GROUP |});
  ("support_interface_not_for_body", {| page := ConfigTopics.Support.PAGE; group := ConfigTopics.Support.Filament.GROUP |});
  ("raft_first_layer_density", {| page := ConfigTopics.Support.PAGE; group := ConfigTopics.Support.Advanced.GROUP |});
  ("raft_first_layer_expansion", {| page := ConfigTopics.Support.PAGE; group := ConfigTopics.Support.Advanced.GROUP |});
  ("tree_support_wall_count", {| page := ConfigTopics.Support.PAGE; group := ConfigTopics.Support.Advanced.GROUP |});
  ("support_top_z_distance", {| page := ConfigTopics.Support.PAGE; group := ConfigTopics.Support.Advanced.GROUP |});
  ("support_bottom_z_distance", {| page := ConfigTopics.Support.PAGE; group := ConfigTopics.Support.Advanced.GROUP |});
  ("support_base_pattern", {| page := ConfigTopics.Support.PAGE; group := ConfigTopics.Support.Advanced.GROUP |});
  ("support_base_pattern_spacing", {| page := ConfigTopics.Support.PAGE; group := ConfigTopics.Support.Advanced.GROUP |});
  ("support_angle", {| page := ConfigTopics.Support.PAGE; group := ConfigTopics.Support.Advanced.GROUP |});
  ("support_interface_top_layers", {| page := ConfigTopics.Support.PAGE; group := ConfigTopics.Support.Advanced.GROUP |});
  ("support_interface_bottom_layers", {| page := ConfigTopics.Support.PAGE; group := ConfigTopics.Support.Advanced.GROUP |});
  ("support_interface_pattern", {| page := ConfigTopics.Support.PAGE; group := ConfigTopics.Support.Advanced.GROUP |});
  ("support_interface_spacing", {| page := ConfigTopics.Support.PAGE; group := ConfigTopics.Support.Advanced.GROUP |});
  ("support_bottom_interface_spacing", {| page := ConfigTopics.Support.PAGE; group := ConfigTopics.Support.Advanced.GROUP |});
  ("support_expansion", {| page := ConfigTopics.Support.PAGE; group := ConfigTopics.Support.Advanced.GROUP |});
  ("support_object_xy_distance", {| page := ConfigTopics.Support.PAGE; group := ConfigTopics.Support.Advanced.GROUP |});
  ("top_z_overrides_xy_distance", {| page := ConfigTopics.Support.PAGE; group := ConfigTopics.Support.Advanced.GROUP |});
  ("support_object_first_layer_gap", {| page := ConfigTopics.Support.PAGE; group := ConfigTopics.Support.Advanced.GROUP |});
  ("bridge_no_support", {| page := ConfigTopics.Support.PAGE; group := ConfigTopics.Support.Advanced.GROUP |});
  ("max_bridge_length", {| page := ConfigTopics.Support.PAGE; group := ConfigTopics.Support.Advanced.GROUP |});
  ("independent_support_layer_height", {| page := ConfigTopics.Support.PAGE; group := ConfigTopics.Support.Advanced.GROUP |});
  ("tree_support_branch_distance", {| page := ConfigTopics.Support.PAGE; group := ConfigTopics.Support.TreeSupport.GROUP |});
  ("tree_support_branch_diameter", {| page := ConfigTopics.Support.PAGE; group := ConfigTopics.Support.TreeSupport.GROUP |});
  ("tree_support_branch_angle", {| page := ConfigTopics.Support.PAGE; group := ConfigTopics.Support.TreeSupport.GROUP |});
  ("tree_support_branch_diameter_angle", {| page := ConfigTopics.Support.PAGE; group := ConfigTopics.Support.TreeSupport.GROUP |});
  ("skirt_loops", {| page := ConfigTopics.Others.PAGE; group := ConfigTopics.Others.BedAdhesion.GROUP |});
  ("skirt_height", {| page := ConfigTopics.Others.PAGE; group := ConfigTopics.Others.BedAdhesion.GROUP |});
  ("skirt_distance", {| page := ConfigTopics.Others.PAGE; group := ConfigTopics.Others.BedAdhesion.GROUP |});
  ("brim_type", {| page := ConfigTopics.Others.PAGE; group := ConfigTopics.Others.BedAdhesion.GROUP |});
  ("brim_width", {| page := ConfigTopics.Others.PAGE; group := ConfigTopics.Others.BedAdhesion.GROUP |});
  ("brim_object_gap", {| page := ConfigTopics.Others.PAGE; group := ConfigTopics.Others.BedAdhesion.GROUP |});
  ("enable_prime_tower", {| page := ConfigTopics.Others.PAGE; group := ConfigTopics.Others.PrimeTower.GROUP |});
  ("prime_tower_skip_points", {| page := ConfigTopics.Others.PAGE; group := ConfigTopics.Others.PrimeTower.GROUP |});
  ("prime_tower_enable_framework", {| page := ConfigTopics.Others.PAGE; group := ConfigTopics.Others.PrimeTower.GROUP |});
  ("prime_tower_width", {| page := ConfigTopics.Others.PAGE; group := ConfigTopics.Others.PrimeTower.GROUP |});
  ("prime_tower_max_speed", {| page := ConfigTopics.Others.PAGE; group := ConfigTopics.Others.PrimeTower.GROUP |});
  ("prime_tower_brim_width", {| page := ConfigTopics.Others.PAGE; group := ConfigTopics.Others.PrimeTower.GROUP |});
  ("prime_tower_infill_gap", {| page := ConfigTopics.Others.PAGE; group := ConfigTopics.Others.PrimeTower.GROUP |});
  ("prime_tower_rib_wall", {| page := ConfigTopics.Others.PAGE; group := ConfigTopics.Others.PrimeTower.GROUP |});
  ("prime_tower_extra_rib_length", {| page := ConfigTopics.Others.PAGE; group := ConfigTopics.Others.PrimeTower.GROUP |});
  ("prime_tower_rib_width", {| page := ConfigTopics.Others.PAGE; group := ConfigTopics.Others.PrimeTower.GROUP |});
  ("prime_tower_fillet_wall", {| page := ConfigTopics.Others.PAGE; group := ConfigTopics.Others.PrimeTower.GROUP |});
  ("flush_into_infill", {| page := ConfigTopics.Others.PAGE; group := ConfigTopics.Others.FlushOptions.GROUP |});
  ("flush_into_objects", {| page := ConfigTopics.Others.PAGE; group := ConfigTopics.Others.FlushOptions.GROUP |});
  ("flush_into_support", {| page := ConfigTopics.Others.PAGE; group := ConfigTopics.Others.FlushOptions.GROUP |});
  ("slicing_mode", {| page := ConfigTopics.Others.PAGE; group := ConfigTopics.Others.SpecialMode.GROUP |});
  ("print_sequence", {| page := ConfigTopics.Others.PAGE; group := ConfigTopics.Others.SpecialMode.GROUP |});
  ("spiral_mode", {| page := ConfigTopics.Others.PAGE; group := ConfigTopics.Others.SpecialMode.GROUP |});
  ("spiral_mode_smooth", {| page := ConfigTopics.Others.PAGE; group := ConfigTopics.Others.SpecialMode.GROUP |});
  ("spiral_mode_max_xy_smoothing", {| page := ConfigTopics.Others.PAGE; group := ConfigTopics.Others.SpecialMode.GROUP |});
  ("timelapse_type", {| page := ConfigTopics.Others.PAGE; group := ConfigTopics.Others.SpecialMode.GROUP |});
  ("fuzzy_skin", {| page := ConfigTopics.Others.PAGE; group := ConfigTopics.Others.SpecialMode.GROUP |});
  ("fuzzy_skin_point_distance", {| page := ConfigTopics.Others.PAGE; group := ConfigTopics.Others.SpecialMode.GROUP |});
  ("fuzzy_skin_thickness", {| page := ConfigTopics.Others.PAGE; group := ConfigTopics.Others.SpecialMode.GROUP |});
  ("enable_wrapping_detection", {| page := ConfigTopics.Others.PAGE; group := ConfigTopics.Others.Advanced.GROUP |});
  ("interlocking_beam", {| page := ConfigTopics.Others.PAGE; group := ConfigTopics.Others.Advanced.GROUP |});
  ("mmu_segmented_region_interlocking_depth", {| page := ConfigTopics.Others.PAGE; group := ConfigTopics.Others.Advanced.GROUP |});
  ("interlocking_beam_width", {| page := ConfigTopics.Others.PAGE; group := ConfigTopics.Others.Advanced.GROUP |});
  ("interlocking_orientation", {| page := ConfigTopics.Others.PAGE; group := ConfigTopics.Others.Advanced.GROUP |});
  ("interlocking_beam_layer_count", {| page := ConfigTopics.Others.PAGE; group := ConfigTopics.Others.Advanced.GROUP |});
  ("interlocking_depth", {| page := ConfigTopics.Others.PAGE; group := ConfigTopics.Others.Advanced.GROUP |});
  ("interlocking_boundary_avoidance", {| page := ConfigTopics.Others.PAGE; group := ConfigTopics.Others.Advanced.GROUP |});
  ("sparse_infill_filament", {| page := ConfigTopics.Others.PAGE; group := ConfigTopics.Others.Advanced.GROUP |});
  ("solid_infill_filament", {| page := ConfigTopics.Others.PAGE; group := ConfigTopics.Others.Advanced.GROUP |});
  ("wall_filament", {| page := ConfigTopics.Others.PAGE; group := ConfigTopics.Others.Advanced.GROUP |});
  ("reduce_infill_retraction", {| page := ConfigTopics.Others.PAGE; group := ConfigTopics.Others.GcodeOutput.GROUP |});
  ("gcode_add_line_number", {| page := ConfigTopics.Others.PAGE; group := ConfigTopics.Others.GcodeOutput.GROUP |});
  ("exclude_object", {| page := ConfigTopics.Others.PAGE; group := ConfigTopics.Others.GcodeOutput.GROUP |});
  ("filename_format", {| page := ConfigTopics.Others.PAGE; group := ConfigTopics.Others.GcodeOutput.GROUP |});
  ("post_process", {| page := ConfigTopics.Others.PAGE; group := ConfigTopics.Others.GcodeOutput.GROUP |});
  ("process_notes", {| page := ConfigTopics.Others.PAGE; group := ConfigTopics.Others.GcodeOutput.GROUP |})
  ].

Module MqttConfigPublisher.

Record t := {
  m_broker_host : string;
  m_broker_port : Z;
  m_client_id : string;
  m_topic_prefix : string;
  m_mosq : option nat;
  m_connected : bool;
  m_initialized : bool;
  m_topic_map : gmap string ConfigTopicInfo
}.

Definition init_topic_map (m : gmap string ConfigTopicInfo) : gmap string ConfigTopicInfo :=
  fold_left (fun m kv => <[fst kv := snd kv]> m) topic_assignments m.

(** The constructor: the member initialisers, then [init_topic_map()]. *)
Definition create : t :=
  {| m_broker_host := "localhost";
     m_broker_port := 1883;
     m_client_id := "corvusprint-config";
     m_topic_prefix := "slicer/";
     m_mosq := None;
     m_connected := false;
     m_initialized := false;
     m_topic_map := init_topic_map ∅ |}.

Definition configure (broker_host : string) (broker_port : Z) (client_id : string) (p : t) : t :=
  {| m_broker_host := broker_host;
     m_broker_port := broker_port;
     m_client_id := client_id;
     m_topic_prefix := m_topic_prefix p;
     m_mosq := m_mosq p;
     m_connected := m_connected p;
     m_initialized := m_initialized p;
     m_topic_map := m_topic_map p |}.

Definition set_topic_prefix (prefix : string) (p : t) : t :=
  {| m_broker_host := m_broker_host p;
     m_broker_port := m_broker_port p;
     m_client_id := m_client_id p;
     m_topic_prefix := prefix;
     m_mosq := m_mosq p;
     m_connected := m_connected p;
     m_initialized := m_initialized p;
     m_topic_map := m_topic_map p |}.

Definition set_connected (c : bool) (p : t) : t :=
  {| m_broker_host := m_broker_host p;
     m_broker_port := m_broker_port p;
     m_client_id := m_client_id p;
     m_topic_prefix := m_topic_prefix p;
     m_mosq := m_mosq p;
     m_connected := c;
     m_initialized := m_initialized p;
     m_topic_map := m_topic_map p |}.

Definition on_connect_callback (rc : Z) (p : t) : t :=
  if (rc =? 0)%Z then set_connected true p else p.

Definition on_disconnect_callback (p : t) : t := set_connected false p.

Definition is_connected (p : t) : bool := m_connected p.

Definition get_topic (p : t) (opt_key : string) : string :=
  match m_topic_map p !! opt_key with
  | Some it => "config/" +:+ page it +:+ "/" +:+ group it +:+ "/" +:+ opt_key
  | None => "config/unknown/" +:+ opt_key
  end.

(** The [try] block of [serialize_value].  Each [any_cast] follows a test of
    [value.type()] for the same type, so none of them throws. *)
Definition serialize_any `{ConfigDecl} (value : boost_any) : list insertion :=
  match value with
  | any_bool b =>
      [lit (quoted "value" +:+ ":"); lit (if b then "true" else "false");
       lit ("," +:+ quoted "type" +:+ ":" +:+ quoted "bool")]
  | any_int i =>
      [lit (quoted "value" +:+ ":"); int i;
       lit ("," +:+ quoted "type" +:+ ":" +:+ quoted "int")]
  | any_double x =>
      [lit (quoted "value" +:+ ":"); setprecision 6; dbl x;
       lit ("," +:+ quoted "type" +:+ ":" +:+ quoted "float")]
  | any_string s =>
      [lit (quoted "value" +:+ ":" +:+ dq); str (json_escape s); lit dq;
       lit ("," +:+ quoted "type" +:+ ":" +:+ quoted "string")]
  | any_strings vec =>
      [lit (quoted "value" +:+ ":[")]
      ++ comma_separated (fun s => [lit dq; str (json_escape s); lit dq]) true vec
      ++ [lit ("]," +:+ quoted "type" +:+ ":" +:+ quoted "strings")]
  | any_doubles vec =>
      [lit (quoted "value" +:+ ":[")]
      ++ comma_separated (fun x => [setprecision 6; dbl x]) true vec
      ++ [lit ("]," +:+ quoted "type" +:+ ":" +:+ quoted "floats")]
  | any_ints vec =>
      [lit (quoted "value" +:+ ":[")]
      ++ comma_separated (fun i => [int i]) true vec
      ++ [lit ("]," +:+ quoted "type" +:+ ":" +:+ quoted "ints")]
  | any_other =>
      [lit (quoted "value" +:+ ":null," +:+ quoted "type" +:+ ":" +:+ quoted "unknown")]
  end.

(** The literals that open the [min] and [max] members of [meta]. *)
Definition min_literal : string := "," +:+ quoted "min" +:+ ":".
Definition max_literal : string := "," +:+ quoted "max" +:+ ":".

(** Either of the two. *)
Definition bound_literal (l : string) : Prop := l = min_literal \/ l = max_literal.

(** The [if (opt_def)] block of [serialize_value]. *)
Definition serialize_meta `{ConfigDecl} (opt_def : ConfigOptionDef.t) : list insertion :=
  [lit ("," +:+ quoted "meta" +:+ ":{");
   lit (quoted "label" +:+ ":" +:+ dq); str (json_escape (ConfigOptionDef.label opt_def)); lit dq;
   lit ("," +:+ quoted "category" +:+ ":" +:+ dq);
   str (json_escape (ConfigOptionDef.category opt_def)); lit dq;
   lit ("," +:+ quoted "tooltip" +:+ ":" +:+ dq);
   str (json_escape (ConfigOptionDef.tooltip opt_def)); lit dq]
  ++ (if negb (String.eqb (ConfigOptionDef.sidetext opt_def) EmptyString)
      then [lit ("," +:+ quoted "unit" +:+ ":" +:+ dq);
            str (json_escape (ConfigOptionDef.sidetext opt_def)); lit dq]
      else [])
  ++ (if bound_ne_int (ConfigOptionDef.min opt_def) INT_MIN
         && bound_ne_float (ConfigOptionDef.min opt_def) (- FLT_MAX)%float
      then [lit min_literal; num (ConfigOptionDef.min opt_def)]
      else [])
  ++ (if bound_ne_int (ConfigOptionDef.max opt_def) INT_MAX
         && bound_ne_float (ConfigOptionDef.max opt_def) FLT_MAX
      then [lit max_literal; num (ConfigOptionDef.max opt_def)]
      else [])
  ++ match ConfigOptionDef.enum_keys_map opt_def with
     | Some (kv0 :: kvs) =>
         [lit ("," +:+ quoted "options" +:+ ":[")]
         ++ comma_separated
              (fun kv => [lit ("{" +:+ quoted "key" +:+ ":" +:+ dq); str (json_escape (fst kv));
                          lit (dq +:+ "," +:+ quoted "value" +:+ ":"); int (snd kv); lit "}"])
              true (kv0 :: kvs)
         ++ [lit "]"]
     | _ => []
     end
  ++ match ConfigOptionDef.enum_values opt_def with
     | [] => []
     | vs => [lit ("," +:+ quoted "enum_values" +:+ ":[")]
             ++ comma_separated (fun s => [lit dq; str (json_escape s); lit dq]) true vs
             ++ [lit "]"]
     end
  ++ match ConfigOptionDef.enum_labels opt_def with
     | [] => []
     | vs => [lit ("," +:+ quoted "enum_labels" +:+ ":[")]
             ++ comma_separated (fun s => [lit dq; str (json_escape s); lit dq]) true vs
             ++ [lit "]"]
     end
  ++ [lit "}"].

(** What [serialize_value] inserts into its stream [json]. *)
Definition serialize_value_stream `{Platform} (opt_key : string) (value : boost_any)
  : list insertion :=
  [lit ("{" +:+ quoted "key" +:+ ":" +:+ dq); str (json_escape opt_key); lit (dq +:+ ",")]
  ++ serialize_any value
  ++ match print_config_def_get opt_key with
     | Some opt_def => serialize_meta opt_def
     | None => []
     end
  ++ [lit "}"].

Definition serialize_value `{Platform} (opt_key : string) (value : boost_any) : string :=
  str_of (serialize_value_stream opt_key value).

Definition publish `{Mosquitto} (p : t) (topic : string) (payload : string) (retained : bool)
  : Wire bool :=
  match m_mosq p with
  | Some _ =>
      if m_connected p then
        let full_topic := m_topic_prefix p +:+ topic in
        rc ← mosquitto_publish
                {| topic := c_str full_topic;
                   payloadlen := static_cast_int (String.length payload);
                   payload := payload;
                   qos := 1;
                   retain := retained |};
        mret (rc =? MOSQ_ERR_SUCCESS)%Z
      else mret false
  | None => mret false
  end.

Definition publish_change `{Platform} `{Mosquitto} (p : t) (opt_key : string) (value : boost_any)
  : Wire unit :=
  if negb (m_connected p) then mret tt
  else
    let topic := get_topic p opt_key in
    let payload := serialize_value opt_key value in
    publish p topic payload true ;; mret tt.

Definition on_config_change `{Platform} `{Mosquitto} (p : t) (opt_key : string)
    (value : boost_any) : Wire unit :=
  publish_change p opt_key value.

(** [ss << v.x() << "," << v.y()] on a fresh stream, for a point [v]. *)
Definition point_string `{Platform} (v : float * float) : string :=
  str_of [dbl (fst v); lit ","; dbl (snd v)].

(** [ss << fop->value; if (fop->percent) ss << "%"] on a fresh stream. *)
Definition float_or_percent_string `{Platform} (value : float) (percent : bool) : string :=
  str_of ([dbl value] ++ if percent then [lit "%"] else []).

(** The [switch (opt->type())] of the per-extruder branch of
    [publish_printer_config]: [Some value] when [has_value] ends up true. *)
Definition extruder_value `{Platform} (opt : ConfigOption) (ext_idx : nat) : option boost_any :=
  match opt with
  | ConfigOptionFloats values | ConfigOptionPercents values =>
      any_double <$> values !! ext_idx
  | ConfigOptionInts values => any_int <$> values !! ext_idx
  | ConfigOptionBools values => any_bool <$> values !! ext_idx
  | ConfigOptionStrings values => any_string <$> values !! ext_idx
  | ConfigOptionPoints values => (fun v => any_string (point_string v)) <$> values !! ext_idx
  | _ => None
  end.

(** The [switch (opt->type())] of the other branch. *)
Definition scalar_value `{Platform} (opt : ConfigOption) : option boost_any :=
  match opt with
  | ConfigOptionBool value => Some (any_bool value)
  | ConfigOptionInt value => Some (any_int value)
  | ConfigOptionFloat value => Some (any_double value)
  | ConfigOptionPercent value => Some (any_double value)
  | ConfigOptionString value => Some (any_string value)
  | ConfigOptionFloatOrPercent value percent =>
      Some (any_string (float_or_percent_string value percent))
  | ConfigOptionEnum value => Some (any_int value)
  | ConfigOptionFloats values => Some (any_doubles values)
  | ConfigOptionInts values => Some (any_ints values)
  | ConfigOptionStrings values => Some (any_strings values)
  | _ => None
  end.

(** The topic of the value of extruder [ext_idx]. *)
Definition extruder_topic (ext_idx : nat) (extruder_group opt_key : string) : string :=
  "config/printer/extruder/" +:+ to_string ext_idx +:+ "/" +:+ extruder_group +:+ "/" +:+ opt_key.

(** The body of the [for (ext_idx ...)] loop. *)
Definition publish_extruder_value `{Platform} `{Mosquitto} (p : t) (opt_key : string)
    (opt : ConfigOption) (extruder_group : string) (ext_idx : nat) : Wire unit :=
  match extruder_value opt ext_idx with
  | Some value =>
      let topic := extruder_topic ext_idx extruder_group opt_key in
      let payload := serialize_value opt_key value in
      publish p topic payload true ;; mret tt
  | None => mret tt
  end.

(** The body of the [for (opt_key : printer_config.keys())] loop. *)
Definition publish_printer_option `{Platform} `{Mosquitto} (p : t)
    (printer_config : DynamicPrintConfig.t) (num_extruders : nat) (opt_key : string)
  : Wire unit :=
  match DynamicPrintConfig.option_ printer_config opt_key with
  | None => mret tt
  | Some opt =>
      let extruder_group := get_extruder_topic_group opt_key in
      let is_extruder_opt := negb (String.eqb extruder_group EmptyString) in
      if is_extruder_opt && is_vector opt then
        for_each (seq 0 num_extruders) (publish_extruder_value p opt_key opt extruder_group)
      else
        match scalar_value opt with
        | Some value =>
            let topic := "config/printer/" +:+ get_printer_topic opt_key in
            let payload := serialize_value opt_key value in
            publish p topic payload true ;; mret tt
        | None => mret tt
        end
  end.

(** [num_extruders]: the length of [nozzle_diameter], 1 without it. *)
Definition num_extruders_of (printer_config : DynamicPrintConfig.t) : nat :=
  match DynamicPrintConfig.option_floats printer_config "nozzle_diameter" with
  | Some values => length values
  | None => 1
  end.

Definition preset_name_payload `{Platform} (preset_name : string) : string :=
  str_of [lit ("{" +:+ quoted "key" +:+ ":" +:+ quoted "preset_name" +:+ ","
               +:+ quoted "value" +:+ ":" +:+ dq);
          str (json_escape preset_name);
          lit (dq +:+ "," +:+ quoted "type" +:+ ":" +:+ quoted "string" +:+ "}")].

Definition publish_printer_config `{Platform} `{Mosquitto} (p : t)
    (printer_config : DynamicPrintConfig.t) (preset_name : string) : Wire unit :=
  if negb (m_connected p) then mret tt
  else
    publish p "config/printer/preset_name" (preset_name_payload preset_name) true ;;
    let num_extruders := num_extruders_of printer_config in
    for_each (DynamicPrintConfig.keys printer_config)
             (publish_printer_option p printer_config num_extruders).

(** *** The remaining member functions *)

(** The calls into libmosquitto other than [mosquitto_publish].  A string
    argument is the [std::string] whose [c_str()] the code passes. *)
Inductive LibCall :=
| mosquitto_lib_init
| mosquitto_new (client_id : string)
| mosquitto_int_option_v5 (h : nat)
| mosquitto_connect_callback_set (h : nat)
| mosquitto_disconnect_callback_set (h : nat)
| mosquitto_connect (h : nat) (host : string) (port : Z) (keepalive : Z)
| mosquitto_loop_start (h : nat)
| mosquitto_loop_stop (h : nat) (force : bool)
| mosquitto_disconnect (h : nat)
| mosquitto_destroy (h : nat)
| mosquitto_lib_cleanup.

(** What the library answers during one [connect()]: the client
    [mosquitto_new] returns, null or not, and the codes of
    [mosquitto_connect] and [mosquitto_loop_start]. *)
Record Answers := {
  new_result : option nat;
  connect_rc : Z;
  loop_start_rc : Z
}.

Definition set_initialized (i : bool) (p : t) : t :=
  {| m_broker_host := m_broker_host p;
     m_broker_port := m_broker_port p;
     m_client_id := m_client_id p;
     m_topic_prefix := m_topic_prefix p;
     m_mosq := m_mosq p;
     m_connected := m_connected p;
     m_initialized := i;
     m_topic_map := m_topic_map p |}.

Definition set_mosq (m : option nat) (p : t) : t :=
  {| m_broker_host := m_broker_host p;
     m_broker_port := m_broker_port p;
     m_client_id := m_client_id p;
     m_topic_prefix := m_topic_prefix p;
     m_mosq := m;
     m_connected := m_connected p;
     m_initialized := m_initialized p;
     m_topic_map := m_topic_map p |}.

(** The part of [connect()] from [mosquitto_connect] on, for the client [h]. *)
Definition connect_client (a : Answers) (h : nat) (p : t) : bool * t * list LibCall :=
  let calls := [mosquitto_connect h (m_broker_host p) (m_broker_port p) 60] in
  if negb (connect_rc a =? MOSQ_ERR_SUCCESS)%Z then (false, p, calls)
  else
    let calls := calls ++ [mosquitto_loop_start h] in
    if negb (loop_start_rc a =? MOSQ_ERR_SUCCESS)%Z
    then (false, p, calls ++ [mosquitto_disconnect h])
    else (true, p, calls).

(** [connect()]: the result, the publisher afterwards, the library calls. *)
Definition connect (a : Answers) (p : t) : bool * t * list LibCall :=
  if m_connected p then (true, p, [])
  else
    let '(p, init) :=
      if negb (m_initialized p) then (set_initialized true p, [mosquitto_lib_init])
      else (p, []) in
    match m_mosq p with
    | None =>
        let created := [mosquitto_new (m_client_id p)] in
        match new_result a with
        | None => (false, set_mosq None p, init ++ created)
        | Some h =>
            let p := set_mosq (Some h) p in
            let options := [mosquitto_int_option_v5 h;
                            mosquitto_connect_callback_set h;
                            mosquitto_disconnect_callback_set h] in
            let '(r, p, calls) := connect_client a h p in
            (r, p, init ++ created ++ options ++ calls)
        end
    | Some h =>
        let '(r, p, calls) := connect_client a h p in
        (r, p, init ++ calls)
    end.

Definition disconnect (p : t) : t * list LibCall :=
  match m_mosq p with
  | Some h =>
      if m_connected p
      then (set_connected false p, [mosquitto_loop_stop h true; mosquitto_disconnect h])
      else (p, [])
  | None => (p, [])
  end.

(** The destructor: the library calls it makes. *)
Definition destroy (p : t) : list LibCall :=
  let '(p, calls) := disconnect p in
  calls
  ++ match m_mosq p with Some h => [mosquitto_destroy h] | None => [] end
  ++ (if m_initialized p then [mosquitto_lib_cleanup] else []).

(** [register_with_dispatcher()], for the publisher object [self]: the bus
    gets a weak pointer to it. *)
Definition register_with_dispatcher (self : nat) (bus : ConfigChangeDispatcher.t)
  : ConfigChangeDispatcher.t :=
  ConfigChangeDispatcher.add_listener self bus.

(** What the calls of one [notify] do when the listener object [self] is
    this publisher: each [on_config_change] on [self] runs the override. *)
Definition receive `{Platform} `{Mosquitto} (self : nat) (p : t)
    (ds : list ConfigChangeDispatcher.delivery) : Wire unit :=
  for_each ds (fun d =>
    match d with
    | ConfigChangeDispatcher.listener_on_config_change l opt_key value =>
        if Nat.eqb l self then on_config_change p opt_key value else mret tt
    | ConfigChangeDispatcher.callback_invoked _ _ _ => mret tt
    end).

(** The [switch (opt->type())] of [publish_full_config]. *)
Definition full_config_value `{Platform} (opt : ConfigOption) : option boost_any :=
  match opt with
  | ConfigOptionBool value => Some (any_bool value)
  | ConfigOptionInt value => Some (any_int value)
  | ConfigOptionFloat value => Some (any_double value)
  | ConfigOptionPercent value => Some (any_double value)
  | ConfigOptionString value => Some (any_string value)
  | ConfigOptionFloatOrPercent value percent =>
      Some (any_string (float_or_percent_string value percent))
  | ConfigOptionEnum value => Some (any_int value)
  | _ => None
  end.

(** The body of the loop of [publish_full_config]. *)
Definition publish_full_option `{Platform} `{Mosquitto} (p : t)
    (config : DynamicPrintConfig.t) (opt_key : string) : Wire unit :=
  match DynamicPrintConfig.option_ config opt_key with
  | None => mret tt
  | Some opt =>
      match full_config_value opt with
      | None => mret tt
      | Some value =>
          let topic := get_topic p opt_key in
          let payload := serialize_value opt_key value in
          publish p topic payload true ;; mret tt
      end
  end.

(** [publish_full_config].  The loop goes through [m_topic_map], a
    [std::unordered_map], whose order C++ leaves open; here it is the order
    of [map_to_list]. *)
Definition publish_full_config `{Platform} `{Mosquitto} (p : t)
    (config : DynamicPrintConfig.t) : Wire unit :=
  if negb (m_connected p) then mret tt
  else for_each (map fst (map_to_list (m_topic_map p))) (publish_full_option p config).

(** The [switch (opt->type())] of [publish_filament_config]. *)
Definition filament_value `{Platform} (opt : ConfigOption) : option boost_any :=
  match opt with
  | ConfigOptionBool value => Some (any_bool value)
  | ConfigOptionInt value => Some (any_int value)
  | ConfigOptionFloat value => Some (any_double value)
  | ConfigOptionPercent value => Some (any_double value)
  | ConfigOptionString value => Some (any_string value)
  | ConfigOptionFloatOrPercent value percent =>
      Some (any_string (float_or_percent_string value percent))
  | ConfigOptionEnum value => Some (any_int value)
  | ConfigOptionFloats values => Some (any_doubles values)
  | ConfigOptionInts values => Some (any_ints values)
  | ConfigOptionStrings values => Some (any_strings values)
  | _ => None
  end.

(** [extruder_prefix] of [publish_filament_config]; [std::to_string] of an
    [int]. *)
Definition filament_prefix (extruder_idx : Z) : string :=
  "config/filament/" +:+ show_int extruder_idx +:+ "/".

Definition filament_name_payload `{Platform} (preset_name : string) (extruder_idx : Z)
  : string :=
  str_of [lit ("{" +:+ quoted "key" +:+ ":" +:+ quoted "preset_name" +:+ ","
               +:+ quoted "value" +:+ ":" +:+ dq);
          str (json_escape preset_name);
          lit (dq +:+ "," +:+ quoted "type" +:+ ":" +:+ quoted "string" +:+ ","
               +:+ quoted "extruder" +:+ ":");
          int extruder_idx;
          lit "}"].

(** The body of the loop of [publish_filament_config]. *)
Definition publish_filament_option `{Platform} `{Mosquitto} (p : t)
    (filament_config : DynamicPrintConfig.t) (extruder_idx : Z) (opt_key : string)
  : Wire unit :=
  match DynamicPrintConfig.option_ filament_config opt_key with
  | None => mret tt
  | Some opt =>
      match filament_value opt with
      | None => mret tt
      | Some value =>
          let topic := filament_prefix extruder_idx +:+ opt_key in
          let payload := serialize_value opt_key value in
          publish p topic payload true ;; mret tt
      end
  end.

Definition publish_filament_config `{Platform} `{Mosquitto} (p : t)
    (filament_config : DynamicPrintConfig.t) (preset_name : string) (extruder_idx : Z)
  : Wire unit :=
  if negb (m_connected p) then mret tt
  else
    publish p (filament_prefix extruder_idx +:+ "preset_name")
            (filament_name_payload preset_name extruder_idx) true ;;
    for_each (DynamicPrintConfig.keys filament_config)
             (publish_filament_option p filament_config extruder_idx).

(** The call that publishes [payload] under [topic] with the prefix [prefix],
    retained, at QoS 1. *)
Definition retained_call_of (prefix topic payload : string) : PublishCall :=
  {| topic := c_str (prefix +:+ topic);
     payloadlen := static_cast_int (String.length payload);
     payload := payload;
     qos := 1;
     retain := true |}.

(** The call [publish_filament_config] makes for one entry of the config, if
    any. *)
Definition filament_call `{Platform} (p : t) (extruder_idx : Z)
    (entry : string * ConfigOption) : option PublishCall :=
  (fun value => retained_call_of (m_topic_prefix p)
                  (filament_prefix extruder_idx +:+ fst entry)
                  (serialize_value (fst entry) value))
  <$> filament_value (snd entry).

(** *** Notions used to state the properties of the publisher *)

(** The vector option types the per-extruder [switch] has a [case] for. *)
Definition supported_vector (opt : ConfigOption) : bool :=
  match opt with
  | ConfigOptionFloats _ | ConfigOptionPercents _ | ConfigOptionInts _
  | ConfigOptionBools _ | ConfigOptionStrings _ | ConfigOptionPoints _ => true
  | _ => false
  end.

(** The values of a vector option, each as the per-extruder [switch] wraps
    it. *)
Definition extruder_values `{Platform} (opt : ConfigOption) : list boost_any :=
  match opt with
  | ConfigOptionFloats values | ConfigOptionPercents values => any_double <$> values
  | ConfigOptionInts values => any_int <$> values
  | ConfigOptionBools values => any_bool <$> values
  | ConfigOptionStrings values => any_string <$> values
  | ConfigOptionPoints values => (fun v => any_string (point_string v)) <$> values
  | _ => []
  end.

(** The call that publishes [payload] under [topic], retained. *)
Definition retained_call (p : t) (topic payload : string) : PublishCall :=
  {| topic := c_str (m_topic_prefix p +:+ topic);
     payloadlen := static_cast_int (String.length payload);
     payload := payload;
     qos := 1;
     retain := true |}.

(** The call that publishes the value of extruder [ext_idx]. *)
Definition extruder_call `{Platform} (p : t) (opt_key extruder_group : string)
    (ext_idx : nat) (value : boost_any) : PublishCall :=
  retained_call p (extruder_topic ext_idx extruder_group opt_key)
                (serialize_value opt_key value).

(** The [min] and [max] values written to a stream. *)
Fixpoint bounds_written `{ConfigDecl} (ins : list insertion) : list bound :=
  match ins with
  | num b :: rest => b :: bounds_written rest
  | _ :: rest => bounds_written rest
  | [] => []
  end.

End MqttConfigPublisher.

(** ** slic3r/Network/MqttEventSink.{hpp,cpp} *)

Module MqttConfig.

(** [struct MqttConfig]. *)
Record t := {
  broker_host : string;
  broker_port : Z;
  client_id : string;
  topic_prefix : string;
  username : string;
  password : string;
  use_tls : bool;
  keepalive : Z;
  qos : Z
}.

(** The member initialisers. *)
Definition default : t :=
  {| broker_host := "localhost";
     broker_port := 1883;
     client_id := "corvusprint-slicer";
     topic_prefix := "slicer/";
     username := EmptyString;
     password := EmptyString;
     use_tls := false;
     keepalive := 60;
     qos := 1 |}.

End MqttConfig.

Module MqttEventSink.

Record t := {
  m_config : MqttConfig.t;
  m_mosq : option nat;
  m_connected : bool;
  m_initialized : bool
}.

(** [json_escape] of MqttEventSink.cpp is, character for character, the
    function of the same name of MqttConfigPublisher.cpp, [json_escape]
    above. *)

Definition publish `{Mosquitto} (s : t) (topic : string) (payload : string) (retained : bool)
  : Wire bool :=
  match m_mosq s with
  | Some _ =>
      if m_connected s then
        let full_topic := MqttConfig.topic_prefix (m_config s) +:+ topic in
        rc ← mosquitto_publish
                (Build_PublishCall (c_str full_topic)
                   (static_cast_int (String.length payload))
                   payload
                   (MqttConfig.qos (m_config s))
                   retained);
        mret (rc =? MOSQ_ERR_SUCCESS)%Z
      else mret false
  | None => mret false
  end.

(** [serialize_status].  [is_helio] is the member of that name of the
    status, which the record [PrintBase.SlicingStatus] does not carry and
    which is therefore passed beside it. *)
Definition serialize_status (status : PrintBase.SlicingStatus) (is_helio : bool) : string :=
  "{"
  +:+ quoted "percent" +:+ ":" +:+ show_int (PrintBase.percent status) +:+ ","
  +:+ quoted "message" +:+ ":" +:+ dq +:+ json_escape (PrintBase.text status) +:+ dq +:+ ","
  +:+ quoted "flags" +:+ ":" +:+ show_int (PrintBase.flags status) +:+ ","
  +:+ quoted "warning_step" +:+ ":" +:+ show_int (PrintBase.warning_step status) +:+ ","
  +:+ quoted "is_helio" +:+ ":" +:+ (if is_helio then "true" else "false")
  +:+ "}".

(** The loop that writes [error_object_ids], separated by commas. *)
Fixpoint object_ids (first : bool) (ids : list N) : string :=
  match ids with
  | [] => EmptyString
  | id :: rest =>
      (if first then EmptyString else ",") +:+ show_int (Z.of_N id) +:+ object_ids false rest
  end.

Definition serialize_completed (info : SlicingCompletedInfo.t) : string :=
  "{"
  +:+ quoted "status" +:+ ":"
  +:+ match SlicingCompletedInfo.status info with
      | SlicingCompletedInfo.Finished => quoted "finished"
      | SlicingCompletedInfo.Cancelled => quoted "cancelled"
      | SlicingCompletedInfo.Error => quoted "error"
      end
  +:+ ","
  +:+ quoted "error_message" +:+ ":" +:+ dq
  +:+ json_escape (SlicingCompletedInfo.error_message info) +:+ dq +:+ ","
  +:+ quoted "critical_error" +:+ ":"
  +:+ (if SlicingCompletedInfo.critical_error info then "true" else "false") +:+ ","
  +:+ quoted "invalidate_plater" +:+ ":"
  +:+ (if SlicingCompletedInfo.invalidate_plater info then "true" else "false") +:+ ","
  +:+ quoted "error_object_ids" +:+ ":["
  +:+ object_ids true (SlicingCompletedInfo.error_object_ids info)
  +:+ "]"
  +:+ "}".

Definition on_slicing_update `{Mosquitto} (s : t) (status : PrintBase.SlicingStatus)
    (is_helio : bool) : Wire unit :=
  publish s "status" (serialize_status status is_helio) false ;; mret tt.

Definition on_slicing_completed `{Mosquitto} (s : t) (timestamp : Z) : Wire unit :=
  publish s "slicing_completed"
          ("{" +:+ quoted "timestamp" +:+ ":" +:+ show_int timestamp +:+ "}") false ;;
  mret tt.

Definition on_process_finished `{Mosquitto} (s : t) (info : SlicingCompletedInfo.t)
  : Wire unit :=
  publish s "finished" (serialize_completed info) true ;; mret tt.

Definition on_export_began `{Mosquitto} (s : t) : Wire unit :=
  publish s "export/began" ("{" +:+ quoted "phase" +:+ ":" +:+ quoted "began" +:+ "}") false ;;
  mret tt.

Definition on_export_finished `{Mosquitto} (s : t) (path : string) : Wire unit :=
  publish s "export/finished"
          ("{" +:+ quoted "phase" +:+ ":" +:+ quoted "finished" +:+ ","
           +:+ quoted "path" +:+ ":" +:+ dq +:+ json_escape path +:+ dq +:+ "}") false ;;
  mret tt.

(** The sink as the dispatcher sees it: a call [c] runs the override of the
    same name. *)
Definition receive `{Mosquitto} (s : t) (is_helio : bool) (c : ISlicingEventSink.call)
  : Wire unit :=
  match c with
  | ISlicingEventSink.on_slicing_update status => on_slicing_update s status is_helio
  | ISlicingEventSink.on_slicing_completed timestamp => on_slicing_completed s timestamp
  | ISlicingEventSink.on_process_finished info => on_process_finished s info
  | ISlicingEventSink.on_export_began => on_export_began s
  | ISlicingEventSink.on_export_finished path => on_export_finished s path
  end.

(** The calls into libmosquitto other than [mosquitto_publish]; a password
    of [None] is the null pointer, and any other string argument is the
    [std::string] whose [c_str()] the code passes. *)
Inductive LibCall :=
| mosquitto_lib_init
| mosquitto_new (client_id : string)
| mosquitto_int_option_v5 (h : nat)
| mosquitto_connect_callback_set (h : nat)
| mosquitto_disconnect_callback_set (h : nat)
| mosquitto_username_pw_set (h : nat) (username : string) (password : option string)
| mosquitto_connect (h : nat) (host : string) (port : Z) (keepalive : Z)
| mosquitto_loop_start (h : nat)
| mosquitto_loop_stop (h : nat) (force : bool)
| mosquitto_disconnect (h : nat)
| mosquitto_destroy (h : nat)
| mosquitto_lib_cleanup.

(** The constructor; [a] holds what the library answers. *)
Definition create (a : MqttConfigPublisher.Answers) (config : MqttConfig.t)
  : t * list LibCall :=
  let calls := [mosquitto_lib_init; mosquitto_new (MqttConfig.client_id config)] in
  match MqttConfigPublisher.new_result a with
  | Some h =>
      ({| m_config := config; m_mosq := Some h; m_connected := false;
          m_initialized := true |},
       calls
       ++ [mosquitto_int_option_v5 h;
           mosquitto_connect_callback_set h;
           mosquitto_disconnect_callback_set h]
       ++ (if negb (String.eqb (MqttConfig.username config) EmptyString)
           then [mosquitto_username_pw_set h (MqttConfig.username config)
                   (if String.eqb (MqttConfig.password config) EmptyString
                    then None else Some (MqttConfig.password config))]
           else []))
  | None =>
      ({| m_config := config; m_mosq := None; m_connected := false;
          m_initialized := true |},
       calls)
  end.

Definition set_connected (c : bool) (s : t) : t :=
  {| m_config := m_config s; m_mosq := m_mosq s; m_connected := c;
     m_initialized := m_initialized s |}.

Definition connect (a : MqttConfigPublisher.Answers) (s : t) : bool * t * list LibCall :=
  match m_mosq s with
  | None => (false, s, [])
  | Some h =>
      if m_connected s then (true, s, [])
      else
        let calls := [mosquitto_connect h (MqttConfig.broker_host (m_config s))
                        (MqttConfig.broker_port (m_config s))
                        (MqttConfig.keepalive (m_config s))] in
        if negb (MqttConfigPublisher.connect_rc a =? MOSQ_ERR_SUCCESS)%Z
        then (false, s, calls)
        else
          let calls := calls ++ [mosquitto_loop_start h] in
          if negb (MqttConfigPublisher.loop_start_rc a =? MOSQ_ERR_SUCCESS)%Z
          then (false, s, calls ++ [mosquitto_disconnect h])
          else (true, s, calls)
  end.

Definition disconnect (s : t) : t * list LibCall :=
  match m_mosq s with
  | Some h =>
      if m_connected s
      then (set_connected false s, [mosquitto_loop_stop h true; mosquitto_disconnect h])
      else (s, [])
  | None => (s, [])
  end.

Definition is_connected (s : t) : bool := m_connected s.

Definition on_connect_callback (rc : Z) (s : t) : t :=
  if (rc =? 0)%Z then set_connected true s else s.

Definition on_disconnect_callback (s : t) : t := set_connected false s.

(** The destructor: the library calls it makes. *)
Definition destroy (s : t) : list LibCall :=
  let '(s, calls) := disconnect s in
  calls
  ++ match m_mosq s with Some h => [mosquitto_destroy h] | None => [] end
  ++ (if m_initialized s then [mosquitto_lib_cleanup] else []).

(** Whether an event is published retained. *)
Definition event_retained (c : ISlicingEventSink.call) : bool :=
  match c with
  | ISlicingEventSink.on_process_finished _ => true
  | _ => false
  end.

(** The topic an event goes to, below the prefix. *)
Definition event_topic (c : ISlicingEventSink.call) : string :=
  match c with
  | ISlicingEventSink.on_slicing_update _ => "status"
  | ISlicingEventSink.on_slicing_completed _ => "slicing_completed"
  | ISlicingEventSink.on_process_finished _ => "finished"
  | ISlicingEventSink.on_export_began => "export/began"
  | ISlicingEventSink.on_export_finished _ => "export/finished"
  end.

End MqttEventSink.

(** ** slic3r/GUI/WxSlicingEventSink.hpp *)

Module WxSlicingEventSink.

(** The events the sink constructs.  wxWidgets and the event classes of
    BackgroundSlicingProcess.hpp are outside these sources: an event is the
    constructor arguments and the setter calls made on it.
    [SlicingProcessCompletedEvent::StatusType] has the three values of
    [SlicingCompletedInfo::Status], under the same names. *)
Inductive wxEvent :=
| SlicingStatusEvent (eventType : Z) (winid : Z) (status : PrintBase.SlicingStatus)
| wxCommandEvent (commandType : Z) (SetInt : option Z) (SetString : option string)
| SlicingProcessCompletedEvent (eventType : Z) (winid : Z)
    (status : SlicingCompletedInfo.Status) (exception_is_null : bool).

Record t := {
  m_handler : option nat;
  m_slicing_update_event_type : Z;
  m_slicing_completed_id : Z;
  m_finished_id : Z;
  m_export_began_id : Z;
  m_export_finished_id : Z
}.

(** [wxQueueEvent(handler, event)]. *)
Definition wxQueueEvent (handler : nat) (event : wxEvent) : list (nat * wxEvent) :=
  [(handler, event)].

Definition on_slicing_update (s : t) (status : PrintBase.SlicingStatus) : list (nat * wxEvent) :=
  match m_handler s with
  | Some handler =>
      wxQueueEvent handler (SlicingStatusEvent (m_slicing_update_event_type s) 0 status)
  | None => []
  end.

Definition on_slicing_completed (s : t) (timestamp : Z) : list (nat * wxEvent) :=
  match m_handler s with
  | Some handler =>
      if negb (m_slicing_completed_id s =? 0)%Z
      then wxQueueEvent handler (wxCommandEvent (m_slicing_completed_id s) (Some timestamp) None)
      else []
  | None => []
  end.

Definition on_process_finished (s : t) (info : SlicingCompletedInfo.t) : list (nat * wxEvent) :=
  match m_handler s with
  | Some handler =>
      if negb (m_finished_id s =? 0)%Z
      then
        let wx_status :=
          match SlicingCompletedInfo.status info with
          | SlicingCompletedInfo.Finished => SlicingCompletedInfo.Finished
          | SlicingCompletedInfo.Cancelled => SlicingCompletedInfo.Cancelled
          | SlicingCompletedInfo.Error => SlicingCompletedInfo.Error
          end in
        wxQueueEvent handler (SlicingProcessCompletedEvent (m_finished_id s) 0 wx_status true)
      else []
  | None => []
  end.

Definition on_export_began (s : t) : list (nat * wxEvent) :=
  match m_handler s with
  | Some handler =>
      if negb (m_export_began_id s =? 0)%Z
      then wxQueueEvent handler (wxCommandEvent (m_export_began_id s) None None)
      else []
  | None => []
  end.

Definition on_export_finished (s : t) (path : string) : list (nat * wxEvent) :=
  match m_handler s with
  | Some handler =>
      if negb (m_export_finished_id s =? 0)%Z
      then wxQueueEvent handler (wxCommandEvent (m_export_finished_id s) None (Some path))
      else []
  | None => []
  end.

Definition set_handler (handler : option nat) (s : t) : t :=
  {| m_handler := handler;
     m_slicing_update_event_type := m_slicing_update_event_type s;
     m_slicing_completed_id := m_slicing_completed_id s;
     m_finished_id := m_finished_id s;
     m_export_began_id := m_export_began_id s;
     m_export_finished_id := m_export_finished_id s |}.

(** The sink as the dispatcher sees it. *)
Definition receive (s : t) (c : ISlicingEventSink.call) : list (nat * wxEvent) :=
  match c with
  | ISlicingEventSink.on_slicing_update status => on_slicing_update s status
  | ISlicingEventSink.on_slicing_completed timestamp => on_slicing_completed s timestamp
  | ISlicingEventSink.on_process_finished info => on_process_finished s info
  | ISlicingEventSink.on_export_began => on_export_began s
  | ISlicingEventSink.on_export_finished path => on_export_finished s path
  end.

(** The identifier that gates an event; [on_slicing_update] has none. *)
Definition gate (s : t) (c : ISlicingEventSink.call) : option Z :=
  match c with
  | ISlicingEventSink.on_slicing_update _ => None
  | ISlicingEventSink.on_slicing_completed _ => Some (m_slicing_completed_id s)
  | ISlicingEventSink.on_process_finished _ => Some (m_finished_id s)
  | ISlicingEventSink.on_export_began => Some (m_export_began_id s)
  | ISlicingEventSink.on_export_finished _ => Some (m_export_finished_id s)
  end.

End WxSlicingEventSink.

(** ** slic3r/GUI/Studio.{hpp,cpp} *)

(** libslic3r/PresetBundle.hpp is outside these sources: a bundle is a state
    of some type with the members the code reads and the member functions it
    calls.  [preset] is a [Preset*] into one of the collections, read through
    the bundle as it is at the time of the read.  [full_config] gives [None]
    when it throws. *)
Class PresetBundle := {
  bundle : Type;
  preset : Type;
  preset_config : bundle -> preset -> DynamicPrintConfig.t;
  printers_find_preset : bundle -> string -> option preset;
  printers_get_selected_preset_name : bundle -> string;
  printers_select_preset_by_name : bundle -> string -> bool * bundle;
  update_compatible : bundle -> bundle;
  filaments_find_preset : bundle -> string -> option preset;
  filament_presets : bundle -> list string;
  set_filament_preset : bundle -> Z -> string -> bundle;
  full_config : bundle -> option DynamicPrintConfig.t
}.

Module Studio.

(** [m_preset_bundle] holds the bundle it points to; the code changes the
    bundle in place through the pointer. *)
Record t `{PresetBundle} := {
  m_preset_bundle : option bundle;
  m_mqtt_publisher : option MqttConfigPublisher.t
}.

(** The constructor followed by [init()]. *)
Definition init `{PresetBundle} : t :=
  {| m_preset_bundle := None;
     m_mqtt_publisher := Some MqttConfigPublisher.create |}.

(** The static functions take and return [s_instance]. *)
Definition create `{PresetBundle} (s_instance : option t) : option t :=
  match s_instance with
  | Some _ => s_instance
  | None => Some init
  end.

(** [shutdown()]: the studio afterwards and the library calls made.
    [m_mqtt_publisher.reset()] is taken to release the last owner of the
    publisher (the bus holds a weak pointer, a handler a copy only while it
    runs), so that the destructor of the publisher runs there. *)
Definition shutdown `{PresetBundle} (s : t) : t * list MqttConfigPublisher.LibCall :=
  match m_mqtt_publisher s with
  | Some p =>
      let '(p, calls) := MqttConfigPublisher.disconnect p in
      ({| m_preset_bundle := None; m_mqtt_publisher := None |},
       calls ++ MqttConfigPublisher.destroy p)
  | None => ({| m_preset_bundle := None; m_mqtt_publisher := None |}, [])
  end.

Definition destroy `{PresetBundle} (s_instance : option t)
  : option t * list MqttConfigPublisher.LibCall :=
  match s_instance with
  | None => (None, [])
  | Some s => (None, snd (shutdown s))
  end.

Definition is_initialized `{PresetBundle} (s_instance : option t) : bool :=
  match s_instance with Some _ => true | None => false end.

Definition set_preset_bundle `{PresetBundle} (b : option bundle) (s : t) : t :=
  {| m_preset_bundle := b; m_mqtt_publisher := m_mqtt_publisher s |}.

Definition preset_bundle `{PresetBundle} (s : t) : option bundle := m_preset_bundle s.

Definition mqtt_publisher `{PresetBundle} (s : t) : option MqttConfigPublisher.t :=
  m_mqtt_publisher s.

(** [init_mqtt], on the studio whose publisher is the listener object
    [self] and with the bus [ConfigChangeDispatcher::instance()]: the result,
    the studio and the bus afterwards, the library calls. *)
Definition init_mqtt `{PresetBundle} (a : MqttConfigPublisher.Answers) (self : nat)
    (broker_host : string) (broker_port : Z) (client_id : string)
    (s : t) (bus : ConfigChangeDispatcher.t)
  : bool * t * ConfigChangeDispatcher.t * list MqttConfigPublisher.LibCall :=
  match m_mqtt_publisher s with
  | None => (false, s, bus, [])
  | Some p =>
      let p := MqttConfigPublisher.configure broker_host broker_port client_id p in
      let '(connected, p, calls) := MqttConfigPublisher.connect a p in
      let s := {| m_preset_bundle := m_preset_bundle s; m_mqtt_publisher := Some p |} in
      if connected
      then (true, s, MqttConfigPublisher.register_with_dispatcher self bus, calls)
      else (false, s, bus, calls)
  end.

Definition publish_full_config `{PresetBundle} `{Platform} `{Mosquitto} (s : t) : Wire unit :=
  match m_mqtt_publisher s with
  | None => mret tt
  | Some p =>
      if negb (MqttConfigPublisher.is_connected p) then mret tt
      else
        match m_preset_bundle s with
        | None => mret tt
        | Some b =>
            match full_config b with
            | Some config => MqttConfigPublisher.publish_full_config p config
            | None => mret tt
            end
        end
  end.

End Studio.

(** ** slic3r/Network/HttpSlicerApi.{hpp,cpp} *)

(** slic3r/GUI/BackgroundSlicingProcess.hpp is outside these sources: the
    process behind [m_process] is a state of some type, with the member
    functions the handlers call. *)
Class BackgroundSlicingProcess := {
  process : Type;
  start : process -> bool * process;
  stop : process -> bool * process;
  reset : process -> process
}.

(** The part of [httplib::Response] the handlers write. *)
Record Response := {
  status : Z;
  body : string;
  content_type : string
}.

Definition set_status (s : Z) (res : Response) : Response :=
  {| status := s; body := body res; content_type := content_type res |}.

Definition set_content (s : string) (type : string) (res : Response) : Response :=
  {| status := status res; body := s; content_type := type |}.

Module HttpSlicerApi.

Definition json_escape_char (c : ascii) : string :=
  if Ascii.eqb c "034" then "\" +:+ dq
  else if Ascii.eqb c "\" then "\\"
  else if Ascii.eqb c "010" then "\n"
  else if Ascii.eqb c "013" then "\r"
  else if Ascii.eqb c "009" then "\t"
  else String c EmptyString.

Fixpoint json_escape (s : string) : string :=
  match s with
  | EmptyString => EmptyString
  | String c rest => json_escape_char c +:+ json_escape rest
  end.

(** The [if (has_completed)] block of [status_to_json]. *)
Definition completed_to_json (completed : SlicingCompletedInfo.t) : string :=
  "," +:+ quoted "completed" +:+ ":{"
  +:+ quoted "status" +:+ ":"
  +:+ match SlicingCompletedInfo.status completed with
      | SlicingCompletedInfo.Finished => quoted "finished"
      | SlicingCompletedInfo.Cancelled => quoted "cancelled"
      | SlicingCompletedInfo.Error => quoted "error"
      end
  +:+ (if negb (String.eqb (SlicingCompletedInfo.error_message completed) EmptyString)
       then "," +:+ quoted "error_message" +:+ ":" +:+ dq
            +:+ json_escape (SlicingCompletedInfo.error_message completed) +:+ dq
       else EmptyString)
  +:+ "}".

Definition status_to_json (status : PrintBase.SlicingStatus) (has_completed : bool)
    (completed : SlicingCompletedInfo.t) : string :=
  "{"
  +:+ quoted "percent" +:+ ":" +:+ show_int (PrintBase.percent status) +:+ ","
  +:+ quoted "message" +:+ ":" +:+ dq +:+ json_escape (PrintBase.text status) +:+ dq +:+ ","
  +:+ quoted "flags" +:+ ":" +:+ show_int (PrintBase.flags status) +:+ ","
  +:+ quoted "warning_step" +:+ ":" +:+ show_int (PrintBase.warning_step status)
  +:+ (if has_completed then completed_to_json completed else EmptyString)
  +:+ "}".

Record t `{BackgroundSlicingProcess} := {
  m_process : option process;
  m_last_status : PrintBase.SlicingStatus;
  m_last_completed : SlicingCompletedInfo.t;
  m_has_completed : bool
}.

(** The constructor: [m_last_status(0, "")], the other members by their
    initialisers. *)
Definition create `{BackgroundSlicingProcess} `{PrintBase.Defaults}
    (process : option process) : t :=
  {| m_process := process;
     m_last_status := PrintBase.make 0 EmptyString;
     m_last_completed := SlicingCompletedInfo.default;
     m_has_completed := false |}.

Definition update_status `{BackgroundSlicingProcess}
    (status : PrintBase.SlicingStatus) (api : t) : t :=
  {| m_process := m_process api;
     m_last_status := status;
     m_last_completed := m_last_completed api;
     m_has_completed := m_has_completed api |}.

Definition update_completed `{BackgroundSlicingProcess}
    (info : SlicingCompletedInfo.t) (api : t) : t :=
  {| m_process := m_process api;
     m_last_status := m_last_status api;
     m_last_completed := info;
     m_has_completed := true |}.

Definition no_process (res : Response) : Response :=
  set_content ("{" +:+ quoted "error" +:+ ":" +:+ quoted "No process configured" +:+ "}")
              "application/json" (set_status 500 res).

(** The handler of [GET /api/status]. *)
Definition get_api_status `{BackgroundSlicingProcess} (api : t) (res : Response) : Response :=
  let json := status_to_json (m_last_status api) (m_has_completed api) (m_last_completed api) in
  set_content json "application/json" res.

(** The handler of [POST /api/start]. *)
Definition post_api_start `{BackgroundSlicingProcess} (api : t) (res : Response)
  : t * Response :=
  match m_process api with
  | None => (api, no_process res)
  | Some proc =>
      let '(started, proc') := start proc in
      if started then
        ({| m_process := Some proc';
            m_last_status := m_last_status api;
            m_last_completed := m_last_completed api;
            m_has_completed := false |},
         set_content ("{" +:+ quoted "status" +:+ ":" +:+ quoted "started" +:+ "}")
                     "application/json" res)
      else
        ({| m_process := Some proc';
            m_last_status := m_last_status api;
            m_last_completed := m_last_completed api;
            m_has_completed := m_has_completed api |},
         set_content ("{" +:+ quoted "error" +:+ ":"
                      +:+ quoted "Could not start (already running or empty)" +:+ "}")
                     "application/json" (set_status 400 res))
  end.

(** The handler of [POST /api/stop]. *)
Definition post_api_stop `{BackgroundSlicingProcess} (api : t) (res : Response)
  : t * Response :=
  match m_process api with
  | None => (api, no_process res)
  | Some proc =>
      let '(stopped, proc') := stop proc in
      ({| m_process := Some proc';
          m_last_status := m_last_status api;
          m_last_completed := m_last_completed api;
          m_has_completed := m_has_completed api |},
       if stopped then
         set_content ("{" +:+ quoted "status" +:+ ":" +:+ quoted "stopped" +:+ "}")
                     "application/json" res
       else
         set_content ("{" +:+ quoted "error" +:+ ":"
                      +:+ quoted "Could not stop (not running)" +:+ "}")
                     "application/json" (set_status 400 res))
  end.

(** The handler of [POST /api/reset]. *)
Definition post_api_reset `{BackgroundSlicingProcess} `{PrintBase.Defaults}
    (api : t) (res : Response) : t * Response :=
  match m_process api with
  | None => (api, no_process res)
  | Some proc =>
      ({| m_process := Some (reset proc);
          m_last_status := PrintBase.make 0 EmptyString;
          m_last_completed := m_last_completed api;
          m_has_completed := false |},
       set_content ("{" +:+ quoted "status" +:+ ":" +:+ quoted "reset" +:+ "}")
                   "application/json" res)
  end.

(** *** The preset handlers *)

(** [body.find(pattern, pos)]: [None] is [npos]. *)
Definition find (body pattern : string) (pos : nat) : option nat :=
  String.index pos pattern body.

(** The parse of the [name] field, the same in both select handlers: the
    text between the first two double quotes after the first colon after the
    first ["name"], the empty string when one of the four is not found. *)
Definition parse_name (body : string) : string :=
  match find body (quoted "name") 0 with
  | Some name_pos =>
      match find body ":" name_pos with
      | Some colon_pos =>
          match find body dq colon_pos with
          | Some quote_start =>
              match find body dq (quote_start + 1) with
              | Some quote_end =>
                  String.substring (quote_start + 1) (quote_end - quote_start - 1) body
              | None => EmptyString
              end
          | None => EmptyString
          end
      | None => EmptyString
      end
  | None => EmptyString
  end.

(** [while (i < body.size() && f(body[i])) ++i], from [i = from]: the value of
    [i] after the loop. *)
Fixpoint scan_while (f : ascii -> bool) (body : string) (from : nat) : nat :=
  match body with
  | EmptyString => from
  | String c rest =>
      match from with
      | O => if f c then S (scan_while f rest O) else O
      | S n => S (scan_while f rest n)
      end
  end.

Definition is_blank (c : ascii) : bool := Ascii.eqb c " " || Ascii.eqb c "009".

Definition is_digit (c : ascii) : bool :=
  (nat_of_ascii "0" <=? nat_of_ascii c) && (nat_of_ascii c <=? nat_of_ascii "9").

(** The number a string of decimal digits writes. *)
Fixpoint digits_value (acc : Z) (s : string) : Z :=
  match s with
  | EmptyString => acc
  | String c rest => digits_value (10 * acc + (Z.of_nat (nat_of_ascii c) - 48)) rest
  end.

(** [std::stoi] on a string of decimal digits: [None] when it throws
    [std::out_of_range]. *)
Definition stoi (s : string) : option Z :=
  let v := digits_value 0 s in
  if (v <=? INT_MAX)%Z then Some v else None.

(** The parse of the [extruder] field; [None] when [std::stoi] throws. *)
Definition parse_extruder (body : string) : option Z :=
  match find body (quoted "extruder") 0 with
  | Some extruder_pos =>
      match find body ":" extruder_pos with
      | Some colon_pos =>
          let num_start := scan_while is_blank body (colon_pos + 1) in
          let num_end := scan_while is_digit body num_start in
          if num_start <? num_end
          then stoi (String.substring num_start (num_end - num_start) body)
          else Some 0%Z
      | None => Some 0%Z
      end
  | None => Some 0%Z
  end.

(** The lambdas handed to [wxTheApp->CallAfter], by what they capture. *)
Inductive CallAfter :=
| refresh_after_printer (name_copy : string)
| refresh_after_filament (name_copy : string) (ext_idx_copy : Z).

(** What a select handler leaves behind: [s_instance], the response, the
    lambdas scheduled on the UI thread. *)
Record Selected `{PresetBundle} := {
  s_instance_after : option Studio.t;
  response : Response;
  scheduled : list CallAfter
}.

Definition studio_not_initialized (res : Response) : Response :=
  set_content ("{" +:+ quoted "error" +:+ ":" +:+ quoted "Studio not initialized" +:+ "}")
              "application/json" (set_status 500 res).

Definition bundle_not_available (res : Response) : Response :=
  set_content ("{" +:+ quoted "error" +:+ ":" +:+ quoted "PresetBundle not available" +:+ "}")
              "application/json" (set_status 500 res).

Definition missing_name (res : Response) : Response :=
  set_content ("{" +:+ quoted "error" +:+ ":"
               +:+ quoted "Missing or invalid 'name' field in request body" +:+ "}")
              "application/json" (set_status 400 res).

(** The error bodies that name the preset. *)
Definition named_error (message name : string) : string :=
  "{" +:+ quoted "error" +:+ ":" +:+ quoted message +:+ ","
  +:+ quoted "name" +:+ ":" +:+ dq +:+ json_escape name +:+ dq +:+ "}".

Definition printer_changed_payload (prev_printer printer_name : string) : string :=
  "{" +:+ quoted "event" +:+ ":" +:+ quoted "printer_changed" +:+ ","
  +:+ quoted "previous" +:+ ":" +:+ dq +:+ json_escape prev_printer +:+ dq +:+ ","
  +:+ quoted "current" +:+ ":" +:+ dq +:+ json_escape printer_name +:+ dq +:+ "}".

Definition filament_changed_payload (extruder_idx : Z) (prev_filament filament_name : string)
  : string :=
  "{" +:+ quoted "event" +:+ ":" +:+ quoted "filament_changed" +:+ ","
  +:+ quoted "extruder" +:+ ":" +:+ show_int extruder_idx +:+ ","
  +:+ quoted "previous" +:+ ":" +:+ dq +:+ json_escape prev_filament +:+ dq +:+ ","
  +:+ quoted "current" +:+ ":" +:+ dq +:+ json_escape filament_name +:+ dq +:+ "}".

(** The handler of [POST /api/printers/select]. *)
Definition post_api_printers_select `{PresetBundle} `{Platform} `{Mosquitto}
    (s_instance : option Studio.t) (req_body : string) (res : Response) : Wire Selected :=
  match s_instance with
  | None => mret (Build_Selected _ s_instance (studio_not_initialized res) [])
  | Some studio =>
      match Studio.preset_bundle studio with
      | None => mret (Build_Selected _ s_instance (bundle_not_available res) [])
      | Some b =>
          let printer_name := parse_name req_body in
          if String.eqb printer_name EmptyString
          then mret (Build_Selected _ s_instance (missing_name res) [])
          else
            match printers_find_preset b printer_name with
            | None =>
                mret (Build_Selected _ s_instance
                        (set_content (named_error "Printer preset not found" printer_name)
                                     "application/json" (set_status 404 res)) [])
            | Some preset =>
                let prev_printer := printers_get_selected_preset_name b in
                let '(selected, b) := printers_select_preset_by_name b printer_name in
                if negb selected
                then mret (Build_Selected _ (Some (Studio.set_preset_bundle (Some b) studio))
                             (set_content
                                (named_error "Could not select printer preset" printer_name)
                                "application/json" (set_status 400 res)) [])
                else
                  let b := update_compatible b in
                  let scheduled := [refresh_after_printer printer_name] in
                  match Studio.mqtt_publisher studio with
                  | Some mqtt =>
                      if MqttConfigPublisher.is_connected mqtt
                      then
                        MqttConfigPublisher.publish mqtt "config/presets/printer"
                          (printer_changed_payload prev_printer printer_name) true ;;
                        MqttConfigPublisher.publish_printer_config mqtt
                          (preset_config b preset) printer_name
                      else mret tt
                  | None => mret tt
                  end ;;
                  mret (Build_Selected _ (Some (Studio.set_preset_bundle (Some b) studio))
                          (set_content
                             ("{" +:+ quoted "status" +:+ ":" +:+ quoted "selected" +:+ ","
                              +:+ quoted "name" +:+ ":" +:+ dq +:+ json_escape printer_name
                              +:+ dq +:+ "}")
                             "application/json" res)
                          scheduled)
            end
      end
  end.

Definition invalid_extruder_index (extruder_idx : Z) (size : nat) (res : Response) : Response :=
  set_content ("{" +:+ quoted "error" +:+ ":" +:+ quoted "Invalid extruder index" +:+ ","
               +:+ quoted "extruder" +:+ ":" +:+ show_int extruder_idx +:+ ","
               +:+ quoted "max_extruders" +:+ ":" +:+ to_string size +:+ "}")
              "application/json" (set_status 400 res).

(** [filament_presets[extruder_idx]]. *)
Definition filament_preset_at `{PresetBundle} (b : bundle) (extruder_idx : Z) : string :=
  nth (Z.to_nat extruder_idx) (filament_presets b) EmptyString.

(** The handler of [POST /api/filaments/select]; [None] when [std::stoi]
    throws, which happens before anything is changed or written. *)
Definition post_api_filaments_select `{PresetBundle} `{Platform} `{Mosquitto}
    (s_instance : option Studio.t) (req_body : string) (res : Response)
  : Wire (option Selected) :=
  match s_instance with
  | None => mret (Some (Build_Selected _ s_instance (studio_not_initialized res) []))
  | Some studio =>
      match Studio.preset_bundle studio with
      | None => mret (Some (Build_Selected _ s_instance (bundle_not_available res) []))
      | Some b =>
          let filament_name := parse_name req_body in
          match parse_extruder req_body with
          | None => mret None
          | Some extruder_idx =>
              if String.eqb filament_name EmptyString
              then mret (Some (Build_Selected _ s_instance (missing_name res) []))
              else if (extruder_idx <? 0)%Z
                      || (static_cast_int (length (filament_presets b)) <=? extruder_idx)%Z
              then mret (Some (Build_Selected _ s_instance
                                 (invalid_extruder_index extruder_idx
                                    (length (filament_presets b)) res) []))
              else
                match filaments_find_preset b filament_name with
                | None =>
                    mret (Some (Build_Selected _ s_instance
                                  (set_content
                                     (named_error "Filament preset not found" filament_name)
                                     "application/json" (set_status 404 res)) []))
                | Some preset =>
                    let prev_filament :=
                      if (extruder_idx <? static_cast_int (length (filament_presets b)))%Z
                      then filament_preset_at b extruder_idx
                      else EmptyString in
                    let b := set_filament_preset b extruder_idx filament_name in
                    let scheduled := [refresh_after_filament filament_name extruder_idx] in
                    match Studio.mqtt_publisher studio with
                    | Some mqtt =>
                        if MqttConfigPublisher.is_connected mqtt
                        then
                          MqttConfigPublisher.publish mqtt "config/presets/filament"
                            (filament_changed_payload extruder_idx prev_filament filament_name)
                            true ;;
                          MqttConfigPublisher.publish_filament_config mqtt
                            (preset_config b preset) filament_name extruder_idx
                        else mret tt
                    | None => mret tt
                    end ;;
                    mret (Some (Build_Selected _
                                  (Some (Studio.set_preset_bundle (Some b) studio))
                                  (set_content
                                     ("{" +:+ quoted "status" +:+ ":" +:+ quoted "selected"
                                      +:+ "," +:+ quoted "name" +:+ ":" +:+ dq
                                      +:+ json_escape filament_name +:+ dq +:+ ","
                                      +:+ quoted "extruder" +:+ ":" +:+ show_int extruder_idx
                                      +:+ "}")
                                     "application/json" res)
                                  scheduled))
                end
          end
      end
  end.

(** [HttpEventSink], for an [m_api] that has not expired: what a call on the
    sink does to the facade it feeds. *)
Definition HttpEventSink_receive `{BackgroundSlicingProcess}
    (c : ISlicingEventSink.call) (api : t) : t :=
  match c with
  | ISlicingEventSink.on_slicing_update status => update_status status api
  | ISlicingEventSink.on_process_finished info => update_completed info api
  | _ => api
  end.

(** The facade after its sink received the calls [cs], oldest first. *)
Definition after_events `{BackgroundSlicingProcess}
    (cs : list ISlicingEventSink.call) (api : t) : t :=
  fold_left (fun a c => HttpEventSink_receive c a) cs api.

End HttpSlicerApi.

(** ** Notions used to state further properties *)

(** Where a JSON reader that has consumed an opening double quote finds the
    closing one in [s]: the index of the first double quote that is not the
    second character of a backslash pair. *)
Fixpoint closing_quote (s : string) : option nat :=
  match s with
  | EmptyString => None
  | String c rest =>
      if Ascii.eqb c dquote_char then Some 0
      else if Ascii.eqb c "\" then
        match rest with
        | EmptyString => None
        | String _ rest' => (fun n => S (S n)) <$> closing_quote rest'
        end
      else S <$> closing_quote rest
  end.

(** The characters of a string. *)
Definition chars (s : string) : list ascii := list_ascii_of_string s.

(** The calls of a trace that went to the sink object [s], as the sink sees
    them. *)
Definition received_by (s : nat) (tr : list Invocation) : list ISlicingEventSink.call :=
  map method (List.filter (fun i => Nat.eqb (receiver i) s) tr).

(** Several events dispatched one after the other. *)
Definition dispatch_all (d : SlicingEventDispatcher.t) (cs : list ISlicingEventSink.call)
  : list Invocation :=
  flat_map (SlicingEventDispatcher.dispatch d) cs.

(** A dispatcher [inner], known to [outer] as the sink object [inner_id]: a
    call that [outer] makes on [inner_id] runs the event method of [inner],
    which calls the sinks of [inner]. *)
Definition dispatch_nested (outer : SlicingEventDispatcher.t) (inner_id : nat)
    (inner : SlicingEventDispatcher.t) (c : ISlicingEventSink.call) : list Invocation :=
  flat_map (fun i => if Nat.eqb (receiver i) inner_id
                     then SlicingEventDispatcher.dispatch inner (method i)
                     else [i])
           (SlicingEventDispatcher.dispatch outer c).

(** ** Instances used to run the definitions on examples *)

Module Fixtures.

(** [min] and [max] of type [double]. *)
Definition double_of_int (i : Z) : float :=
  let m := PrimFloat.of_uint63 (Uint63.of_Z (Z.abs i)) in
  if (i <? 0)%Z then (- m)%float else m.

Definition double_ne (a b : float) : bool := negb (PrimFloat.eqb a b).

#[export] Instance double_bounds : ConfigDecl := {|
  bound := float;
  bound_ne_int b i := double_ne b (double_of_int i);
  bound_ne_float b x := double_ne b x
|}.

(** A registry that knows two options: [layer_height] with a lower bound
    only, [retraction_length] with no bound at all. *)
Definition layer_height_def : ConfigOptionDef.t := {|
  ConfigOptionDef.label := "Layer height";
  ConfigOptionDef.category := "Quality";
  ConfigOptionDef.tooltip := "Slicing height for each layer";
  ConfigOptionDef.sidetext := "mm";
  ConfigOptionDef.min := 0%float;
  ConfigOptionDef.max := double_of_int INT_MAX;
  ConfigOptionDef.enum_keys_map := None;
  ConfigOptionDef.enum_values := [];
  ConfigOptionDef.enum_labels := []
|}.

Definition retraction_length_def : ConfigOptionDef.t := {|
  ConfigOptionDef.label := "Length";
  ConfigOptionDef.category := "Extruders";
  ConfigOptionDef.tooltip := EmptyString;
  ConfigOptionDef.sidetext := "mm";
  ConfigOptionDef.min := (- FLT_MAX)%float;
  ConfigOptionDef.max := FLT_MAX;
  ConfigOptionDef.enum_keys_map := None;
  ConfigOptionDef.enum_values := [];
  ConfigOptionDef.enum_labels := []
|}.

(** Doubles are not rendered digit by digit here: the few values of the
    examples print as C++ prints them, anything else as a placeholder. *)
Definition show_known (x : float) : string :=
  if PrimFloat.eqb x 0 then "0"
  else if PrimFloat.eqb x 0.2 then "0.2"
  else if PrimFloat.eqb x 0.4 then "0.4"
  else if PrimFloat.eqb x 0.6 then "0.6"
  else if PrimFloat.eqb x 1 then "1"
  else if PrimFloat.eqb x 1.5 then "1.5"
  else "<double>".

#[export] Instance platform : Platform := {|
  show_double _ x := show_known x;
  show_bound _ x := show_known x;
  print_config_def_get k :=
    if String.eqb k "layer_height" then Some layer_height_def
    else if String.eqb k "retraction_length" then Some retraction_length_def
    else None
|}.

(** A client whose queue always accepts. *)
#[export] Instance accepting : Mosquitto := {| mosquitto_publish_rc _ _ := MOSQ_ERR_SUCCESS |}.

(** A process that starts only from idle. *)
Inductive process_state := Idle | Running.

#[export] Instance simple_process : BackgroundSlicingProcess := {|
  process := process_state;
  start s := match s with Idle => (true, Running) | Running => (false, Running) end;
  stop s := match s with Running => (true, Idle) | Idle => (false, Idle) end;
  reset _ := Idle
|}.

#[export] Instance defaults : PrintBase.Defaults := {|
  PrintBase.default_flags := 0;
  PrintBase.default_warning_step := (-1)
|}.

(** A publisher connected to a broker, as [connect()] and the connect
    callback leave it. *)
Definition connected_publisher : MqttConfigPublisher.t :=
  {| MqttConfigPublisher.m_broker_host := "localhost";
     MqttConfigPublisher.m_broker_port := 1883;
     MqttConfigPublisher.m_client_id := "corvusprint-config";
     MqttConfigPublisher.m_topic_prefix := "slicer/";
     MqttConfigPublisher.m_mosq := Some 1;
     MqttConfigPublisher.m_connected := true;
     MqttConfigPublisher.m_initialized := true;
     MqttConfigPublisher.m_topic_map := MqttConfigPublisher.init_topic_map ∅ |}.

(** The printer of the per-extruder scenario, with one more option of a type
    the publisher has no case for. *)
Definition two_extruders : DynamicPrintConfig.t := [
  ("nozzle_diameter", ConfigOptionFloats [0.4; 0.6]%float);
  ("retraction_length", ConfigOptionFloats [1.0; 1.5]%float);
  ("z_hop_types", ConfigOptionOther true 2)
].

(** An event sink connected to a broker, publishing at QoS 0. *)
Definition connected_sink : MqttEventSink.t :=
  {| MqttEventSink.m_config :=
       {| MqttConfig.broker_host := "localhost";
          MqttConfig.broker_port := 1883;
          MqttConfig.client_id := "corvusprint-slicer";
          MqttConfig.topic_prefix := "slicer/";
          MqttConfig.username := EmptyString;
          MqttConfig.password := EmptyString;
          MqttConfig.use_tls := false;
          MqttConfig.keepalive := 60;
          MqttConfig.qos := 0 |};
     MqttEventSink.m_mosq := Some 2;
     MqttEventSink.m_connected := true;
     MqttEventSink.m_initialized := true |}.

(** A wx sink with a handler, whose export identifiers were left at 0. *)
Definition plater_sink : WxSlicingEventSink.t :=
  {| WxSlicingEventSink.m_handler := Some 7;
     WxSlicingEventSink.m_slicing_update_event_type := 10001;
     WxSlicingEventSink.m_slicing_completed_id := 10002;
     WxSlicingEventSink.m_finished_id := 10003;
     WxSlicingEventSink.m_export_began_id := 0;
     WxSlicingEventSink.m_export_finished_id := 0 |}.

(** A preset bundle with two printers, of which one refuses to be selected,
    and two filaments. *)
Record shelf := {
  selected_printer : string;
  loaded : list string
}.

Definition pla : DynamicPrintConfig.t := [
  ("filament_type", ConfigOptionStrings ["PLA"]);
  ("filament_diameter", ConfigOptionFloats [1.5]%float)
].

#[export] Instance shelf_bundle : PresetBundle := {|
  bundle := shelf;
  preset := string;
  preset_config _ name :=
    if String.eqb name "Voron" then two_extruders
    else if String.eqb name "Generic PLA" then pla
    else [];
  printers_find_preset _ name :=
    if String.eqb name "Voron" || String.eqb name "Ender" then Some name else None;
  printers_get_selected_preset_name b := selected_printer b;
  printers_select_preset_by_name b name :=
    if String.eqb name "Ender" then (false, b)
    else (true, {| selected_printer := name; loaded := loaded b |});
  update_compatible b := b;
  filaments_find_preset _ name :=
    if String.eqb name "Generic PLA" || String.eqb name "Generic PETG"
    then Some name else None;
  filament_presets b := loaded b;
  set_filament_preset b idx name :=
    {| selected_printer := selected_printer b;
       loaded := <[Z.to_nat idx := name]> (loaded b) |};
  full_config b := Some two_extruders
|}.

(** A studio with that bundle and a connected publisher. *)
Definition workshop : Studio.t :=
  {| Studio.m_preset_bundle :=
       Some {| selected_printer := "Ender"; loaded := ["Generic PETG"; "Generic PETG"] |};
     Studio.m_mqtt_publisher := Some connected_publisher |}.

(** A facade that has seen progress at 50 percent and a completion. *)
Definition half_way (proc : option process_state) : HttpSlicerApi.t :=
  HttpSlicerApi.update_completed SlicingCompletedInfo.default
    (HttpSlicerApi.update_status
       {| PrintBase.percent := 50; PrintBase.text := "slicing";
          PrintBase.flags := 0; PrintBase.warning_step := 0 |}
       (HttpSlicerApi.create proc)).

(** A response no handler has written to. *)
Definition blank : Response :=
  {| status := 200; body := EmptyString; content_type := EmptyString |}.

End Fixtures.

(** * Properties *)

(** ** The slicing event dispatcher *)

Section Dispatcher.

Import SlicingEventDispatcher.

Implicit Types (d : t) (s : nat) (c : ISlicingEventSink.call) (sink : SlicingEventSinkPtr).

Lemma dispatch_for_each d c : dispatch d c = for_each_sink c (m_sinks d).
Proof. destruct c; reflexivity. Qed.

Lemma for_each_sink_app c (l1 l2 : list SlicingEventSinkPtr) :
  for_each_sink c (l1 ++ l2) = for_each_sink c l1 ++ for_each_sink c l2.
Proof.
  induction l1 as [|[r|] l1 IH]; simpl; [reflexivity| |assumption].
  now rewrite IH.
Qed.

Lemma for_each_sink_targets c (l : list SlicingEventSinkPtr) :
  for_each_sink c l = map (fun r => {| receiver := r; method := c |}) (omap id l).
Proof.
  induction l as [|[r|] l IH]; simpl; [reflexivity| |assumption].
  now rewrite IH.
Qed.

Lemma calls_on_for_each s c (l : list SlicingEventSinkPtr) :
  calls_on s (for_each_sink c l)
  = length (List.filter (fun p => bool_decide (p = Some s)) l).
Proof.
  unfold calls_on. induction l as [|[r|] l IH]; [reflexivity| |].
  - cbn [for_each_sink List.filter receiver].
    case_bool_decide as Hr.
    + injection Hr as ->. rewrite Nat.eqb_refl. cbn [length]. now rewrite IH.
    + destruct (Nat.eqb_spec r s) as [->|Hne]; [congruence|assumption].
  - cbn [for_each_sink List.filter]. case_bool_decide; [discriminate|assumption].
Qed.

Lemma calls_on_dispatch d s c : calls_on s (dispatch d c) = references s d.
Proof. rewrite dispatch_for_each. apply calls_on_for_each. Qed.

Lemma references_add_same d s : references s (add_sink (Some s) d) = S (references s d).
Proof.
  unfold references; simpl. rewrite List.filter_app, length_app; simpl.
  rewrite bool_decide_eq_true_2 by reflexivity. simpl. apply Nat.add_1_r.
Qed.

Lemma references_add_other d s sink :
  sink <> Some s -> references s (add_sink sink d) = references s d.
Proof.
  intros Hne. destruct sink as [r|]; [|reflexivity].
  unfold references; simpl. rewrite List.filter_app, length_app; simpl.
  rewrite bool_decide_eq_false_2 by assumption. simpl. apply Nat.add_0_r.
Qed.

Lemma erase_remove_filter sink (l : list SlicingEventSinkPtr) :
  erase_remove sink l = List.filter (fun p => negb (bool_decide (p = sink))) l.
Proof.
  induction l as [|y l IH]; simpl; [reflexivity|].
  destruct (decide (y = sink)) as [->|Hne].
  - rewrite bool_decide_eq_true_2 by reflexivity. simpl. assumption.
  - rewrite bool_decide_eq_false_2 by assumption. simpl. now rewrite IH.
Qed.

Lemma references_remove_same d s : references s (remove_sink (Some s) d) = 0.
Proof.
  unfold references, remove_sink; cbn [m_sinks].
  induction (m_sinks d) as [|y l IH]; [reflexivity|].
  cbn [erase_remove]. destruct (decide (y = Some s)) as [->|Hne]; [assumption|].
  cbn [List.filter]. case_bool_decide; [contradiction|assumption].
Qed.

Lemma references_remove_other d s sink :
  sink <> Some s -> references s (remove_sink sink d) = references s d.
Proof.
  intros Hne. unfold references, remove_sink; cbn [m_sinks].
  induction (m_sinks d) as [|y l IH]; [reflexivity|].
  cbn [erase_remove]. destruct (decide (y = sink)) as [->|Hy].
  - cbn [List.filter]. case_bool_decide; [contradiction|assumption].
  - cbn [List.filter]. case_bool_decide; cbn [length]; congruence.
Qed.

Lemma references_clear d s : references s (clear_sinks d) = 0.
Proof. reflexivity. Qed.

(** A call other than [add_sink(s)] never adds a reference to [s]. *)
Lemma references_step_le d s (o : op) :
  o <> AddSink (Some s) -> references s (step d o) <= references s d.
Proof.
  intros Ho. destruct o as [sink|sink|]; simpl.
  - rewrite references_add_other; [lia|congruence].
  - destruct (decide (sink = Some s)) as [->|Hne].
    + rewrite references_remove_same. lia.
    + rewrite references_remove_other by assumption. lia.
  - rewrite references_clear. lia.
Qed.

(** A call that neither adds nor removes [s] nor clears the list keeps the
    references to [s]. *)
Lemma references_step_eq d s (o : op) :
  o <> AddSink (Some s) -> o <> RemoveSink (Some s) -> o <> ClearSinks ->
  references s (step d o) = references s d.
Proof.
  intros Ha Hr Hc. destruct o as [sink|sink|]; simpl.
  - apply references_add_other. congruence.
  - apply references_remove_other. congruence.
  - congruence.
Qed.

Lemma references_run_le (later : list op) d s :
  Forall (fun o => o <> AddSink (Some s)) later ->
  references s (run later d) <= references s d.
Proof.
  revert d. induction later as [|o later IH]; intros d Hl; simpl; [lia|].
  inversion Hl as [|? ? Ho Hrest]; subst.
  etransitivity; [apply IH; assumption|]. now apply references_step_le.
Qed.

Lemma references_run_eq (later : list op) d s :
  Forall (fun o => o <> AddSink (Some s) /\ o <> RemoveSink (Some s) /\ o <> ClearSinks) later ->
  references s (run later d) = references s d.
Proof.
  revert d. induction later as [|o later IH]; intros d Hl; simpl; [reflexivity|].
  inversion Hl as [|? ? (Ha & Hr & Hc) Hrest]; subst.
  rewrite IH by assumption. now apply references_step_eq.
Qed.

Lemma step_no_null d (o : op) :
  Forall (fun p => p <> None) (m_sinks d) -> Forall (fun p => p <> None) (m_sinks (step d o)).
Proof.
  intros Hd. destruct o as [[r|]|sink|]; simpl; try assumption.
  - apply Forall_app. split; [assumption|]. constructor; [discriminate|constructor].
  - rewrite erase_remove_filter. revert Hd. rewrite !List.Forall_forall.
    intros Hd p Hp. apply Hd. apply filter_In in Hp. tauto.
  - constructor.
Qed.

Lemma run_no_null (ops : list op) d :
  Forall (fun p => p <> None) (m_sinks d) -> Forall (fun p => p <> None) (m_sinks (run ops d)).
Proof.
  revert d. induction ops as [|o ops IH]; intros d Hd; simpl; [assumption|].
  apply IH. now apply step_no_null.
Qed.

Lemma for_each_sink_length c (l : list SlicingEventSinkPtr) :
  Forall (fun p => p <> None) l -> length (for_each_sink c l) = length l.
Proof.
  induction 1 as [|[r|] l Hp Hl IH]; simpl; [reflexivity| |congruence].
  now rewrite IH.
Qed.

Lemma no_null_targets (l : list SlicingEventSinkPtr) :
  Forall (fun p => p <> None) l -> l = map Some (omap id l).
Proof.
  induction 1 as [|[r|] l Hp Hl IH]; [reflexivity| |congruence].
  cbn [omap id map option_bind list_omap]. simpl. f_equal. exact IH.
Qed.

Lemma targets_erase_remove (x : nat) (l : list SlicingEventSinkPtr) :
  omap id (erase_remove (Some x) l)
  = List.filter (fun r => negb (Nat.eqb r x)) (omap id l).
Proof.
  induction l as [|[r|] l IH]; [reflexivity| |].
  - cbn [erase_remove]. case_decide as Heq.
    + injection Heq as ->.
      change (omap id (Some x :: l)) with (x :: omap id l). cbn [List.filter].
      now rewrite Nat.eqb_refl.
    + change (omap id (Some r :: erase_remove (Some x) l))
        with (r :: omap id (erase_remove (Some x) l)).
      change (omap id (Some r :: l)) with (r :: omap id l). cbn [List.filter].
      destruct (Nat.eqb_spec r x) as [->|_]; [congruence|]. cbn [negb]. now rewrite IH.
  - cbn [erase_remove]. case_decide as Heq; [discriminate|].
    change (omap id (None :: erase_remove (Some x) l))
      with (omap id (erase_remove (Some x) l)).
    change (omap id (None :: l)) with (omap id l). exact IH.
Qed.

Lemma targets_erase_remove_null (l : list SlicingEventSinkPtr) :
  omap id (erase_remove None l) = omap id l.
Proof.
  induction l as [|[r|] l IH]; [reflexivity| |].
  - cbn [erase_remove]. case_decide as Heq; [discriminate|].
    change (r :: omap id (erase_remove None l) = r :: omap id l). now rewrite IH.
  - cbn [erase_remove]. case_decide as Heq; [exact IH|congruence].
Qed.

(** C1, as the code has it.  A dispatch calls the method of the event on the
    sinks behind the list entries, in list order, so a sink object is called
    once per reference to it that the list holds.  The list order is the
    installation order: [add_sink(s)] appends one reference at the end,
    [remove_sink(x)] takes out the references to [x] and leaves the others in
    the order they had, [clear_sinks()] leaves none.  Hence a sink that was
    absent, is added once and is then neither added again, removed nor
    cleared away is called exactly once.  After [remove_sink(s)] or
    [clear_sinks()], and until [s] is added again, no dispatch calls [s]. *)
Theorem dispatch_once_per_reference d s c (later : list op) :
  Forall (fun o => o <> AddSink (Some s)) later ->
  dispatch d c = map (fun r => {| receiver := r; method := c |}) (targets d)
  /\ calls_on s (dispatch d c) = references s d
  /\ targets (add_sink (Some s) d) = targets d ++ [s]
  /\ (references s d = 0 ->
      Forall (fun o => o <> RemoveSink (Some s) /\ o <> ClearSinks) later ->
      calls_on s (dispatch (run later (add_sink (Some s) d)) c) = 1)
  /\ calls_on s (dispatch (run later (remove_sink (Some s) d)) c) = 0
  /\ calls_on s (dispatch (run later (clear_sinks d)) c) = 0
  /\ (forall x, targets (remove_sink (Some x) d)
                = List.filter (fun r => negb (Nat.eqb r x)) (targets d))
  /\ targets (remove_sink None d) = targets d
  /\ targets (add_sink None d) = targets d
  /\ targets (clear_sinks d) = [].
Proof.
  intros Hlater.
  split; [|split; [|split; [|split; [|split; [|split; [|split; [|split; [|split]]]]]]]];
    [| | | | | |intros x; apply targets_erase_remove
     |apply targets_erase_remove_null|reflexivity|reflexivity].
  - rewrite dispatch_for_each. apply for_each_sink_targets.
  - apply calls_on_dispatch.
  - unfold targets, add_sink; cbn [m_sinks]. now rewrite omap_app.
  - intros Hfresh Hkeep. rewrite calls_on_dispatch, references_run_eq.
    + now rewrite references_add_same, Hfresh.
    + revert Hlater Hkeep. rewrite !List.Forall_forall. intros Ha Hk o Ho.
      specialize (Ha o Ho). specialize (Hk o Ho). tauto.
  - rewrite calls_on_dispatch.
    pose proof (references_run_le later (remove_sink (Some s) d) s Hlater) as Hle.
    rewrite references_remove_same in Hle. now apply Nat.le_0_r.
  - rewrite calls_on_dispatch.
    pose proof (references_run_le later (clear_sinks d) s Hlater) as Hle.
    rewrite references_clear in Hle. now apply Nat.le_0_r.
Qed.

Lemma dispatch_once_per_reference_witness :
  let d := run [AddSink (Some 1); AddSink (Some 2)] create in
  let later := [AddSink (Some 4); RemoveSink (Some 1)] in
  let four := run [AddSink (Some 1); AddSink (Some 2); AddSink (Some 3); AddSink (Some 4)]
                  create in
  Forall (fun o => o <> AddSink (Some 3)) later
  /\ calls_on 3 (dispatch (run later (add_sink (Some 3) d)) ISlicingEventSink.on_export_began) = 1
  /\ calls_on 3 (dispatch (run later (remove_sink (Some 3) d)) ISlicingEventSink.on_export_began) = 0
  /\ map receiver (dispatch (remove_sink (Some 1) four) ISlicingEventSink.on_export_began)
     = [2; 3; 4].
Proof.
  intros d later four.
  assert (Hlater : Forall (fun o => o <> AddSink (Some 3)) later)
    by (repeat constructor; discriminate).
  destruct (dispatch_once_per_reference d 3 ISlicingEventSink.on_export_began later Hlater)
    as (_ & _ & _ & Honce & Hremoved & _).
  destruct (dispatch_once_per_reference four 3 ISlicingEventSink.on_export_began later Hlater)
    as (_ & _ & _ & _ & _ & _ & Horder & _).
  destruct (dispatch_once_per_reference (remove_sink (Some 1) four) 3
              ISlicingEventSink.on_export_began later Hlater)
    as (Hcalls & _).
  split; [exact Hlater|]. split; [|split; [exact Hremoved|]].
  - apply Honce; [reflexivity|].
    repeat constructor; discriminate.
  - rewrite Hcalls, (Horder 1). reflexivity.
Defined.

(** C1 as stated fails: a sink installed twice is called twice by one
    dispatch. *)
Lemma dispatch_duplicate_sink_called_twice :
  let d := add_sink (Some 7) (add_sink (Some 7) create) in
  In (Some 7) (m_sinks d)
  /\ calls_on 7 (dispatch d ISlicingEventSink.on_export_began) = 2
  /\ calls_on 7 (dispatch d ISlicingEventSink.on_export_began) <> 1.
Proof.
  simpl. split; [now left|]. split; [reflexivity|discriminate].
Qed.

(** C10.  Whatever calls of [add_sink], [remove_sink] and [clear_sinks] were
    made on a fresh dispatcher, its list holds no null pointer ([add_sink]
    drops a null argument), so an event method calls one sink per entry: the
    test [if (sink)] succeeds each time. *)
Theorem sink_list_never_null (ops : list op) c :
  let d := run ops create in
  Forall (fun p => p <> None) (m_sinks d)
  /\ m_sinks d = map Some (targets d)
  /\ length (dispatch d c) = sink_count d
  /\ add_sink None d = d.
Proof.
  intros d.
  assert (Hd : Forall (fun p => p <> None) (m_sinks d))
    by (apply run_no_null; constructor).
  repeat split.
  - exact Hd.
  - now apply no_null_targets.
  - rewrite dispatch_for_each. now apply for_each_sink_length.
Qed.

End Dispatcher.

(** ** The configuration change bus *)

Section Bus.

Import ConfigChangeDispatcher.

Implicit Types (b : t) (alive : nat -> bool) (opt_key : string) (value : boost_any).

Lemma sweep_and_notify_kept alive opt_key value (ls : list weak_ptr) :
  fst (sweep_and_notify alive opt_key value ls) = List.filter alive ls.
Proof.
  induction ls as [|w ls IH]; [reflexivity|].
  cbn [sweep_and_notify List.filter].
  destruct (sweep_and_notify alive opt_key value ls) as [kept calls].
  cbn [fst] in IH. destruct (alive w); cbn [fst]; now rewrite IH.
Qed.

Lemma sweep_and_notify_calls alive opt_key value (ls : list weak_ptr) :
  snd (sweep_and_notify alive opt_key value ls)
  = map (fun l => listener_on_config_change l opt_key value) (List.filter alive ls).
Proof.
  induction ls as [|w ls IH]; [reflexivity|].
  cbn [sweep_and_notify List.filter].
  destruct (sweep_and_notify alive opt_key value ls) as [kept calls].
  cbn [snd] in IH. destruct (alive w); cbn [snd map]; now rewrite IH.
Qed.

Lemma call_callbacks_nonnull opt_key value (cs : list callback) :
  call_callbacks opt_key value cs
  = map (fun f => callback_invoked f opt_key value) (omap id cs).
Proof.
  induction cs as [|[f|] cs IH]; simpl; [reflexivity| |assumption].
  now rewrite IH.
Qed.

Lemma filter_alive_expired alive (ls : list weak_ptr) :
  length (List.filter alive ls) + expired alive ls = length ls.
Proof.
  unfold expired. induction ls as [|w ls IH]; [reflexivity|].
  cbn [List.filter]. destruct (alive w); cbn [negb length].
  - rewrite Nat.add_succ_l. now f_equal.
  - rewrite Nat.add_succ_r. now f_equal.
Qed.

Lemma notify_unfold alive opt_key value b :
  notify alive opt_key value b
  = ({| m_listeners := fst (sweep_and_notify alive opt_key value (m_listeners b));
        m_callbacks := m_callbacks b; m_enabled := m_enabled b |},
     snd (sweep_and_notify alive opt_key value (m_listeners b))
     ++ call_callbacks opt_key value (m_callbacks b)).
Proof.
  unfold notify. now destruct (sweep_and_notify alive opt_key value (m_listeners b)).
Qed.

Lemma calls_to_listeners (l : nat) opt_key value (ls : list weak_ptr) :
  calls_to l (map (fun x => listener_on_config_change x opt_key value) ls)
  = length (List.filter (fun w => Nat.eqb w l) ls).
Proof.
  unfold calls_to. induction ls as [|w ls IH]; [reflexivity|].
  cbn [map List.filter]. destruct (Nat.eqb w l); cbn [length]; now rewrite IH.
Qed.

Lemma calls_to_callbacks (l : nat) opt_key value (fs : list nat) :
  calls_to l (map (fun f => callback_invoked f opt_key value) fs) = 0.
Proof. unfold calls_to. induction fs as [|f fs IH]; [reflexivity|exact IH]. Qed.

Lemma calls_to_app (l : nat) (a c : list delivery) :
  calls_to l (a ++ c) = calls_to l a + calls_to l c.
Proof. unfold calls_to. now rewrite List.filter_app, length_app. Qed.

Lemma filter_alive_entries alive (l : nat) (ls : list weak_ptr) :
  length (List.filter (fun w => Nat.eqb w l) (List.filter alive ls))
  = if alive l then length (List.filter (fun w => Nat.eqb w l) ls) else 0.
Proof.
  induction ls as [|w ls IH]; [now destruct (alive l)|].
  cbn [List.filter]. destruct (Nat.eqb_spec w l) as [->|Hne].
  - destruct (alive l) eqn:Ha; cbn [List.filter length].
    + rewrite Nat.eqb_refl. cbn [length]. now rewrite IH.
    + exact IH.
  - destruct (alive w); cbn [List.filter]; [|exact IH].
    destruct (Nat.eqb_spec w l) as [->|_]; [contradiction|exact IH].
Qed.

(** C5, as the code has it.  [notify] goes through the listener entries in
    registration order: an entry whose object is alive gets one
    [on_config_change] call and stays, an expired entry is erased and the
    others keep their order; then the non-empty callbacks are called in
    registration order.  A listener object is therefore called once per
    entry that names it, exactly once when it is alive and was registered
    once, and not at all when it has expired.  The listener list is shorter
    by the number of expired entries, and nothing else of the bus changes. *)
Theorem notify_sweeps_then_calls alive opt_key value b :
  let b' := fst (notify alive opt_key value b) in
  let calls := snd (notify alive opt_key value b) in
  m_listeners b' = List.filter alive (m_listeners b)
  /\ calls = map (fun l => listener_on_config_change l opt_key value)
                 (List.filter alive (m_listeners b))
             ++ map (fun f => callback_invoked f opt_key value) (omap id (m_callbacks b))
  /\ length (m_listeners b') + expired alive (m_listeners b) = length (m_listeners b)
  /\ m_callbacks b' = m_callbacks b
  /\ m_enabled b' = m_enabled b
  /\ (forall l, calls_to l calls = if alive l then entries l b else 0)
  /\ (forall l, alive l = true -> entries l b = 1 -> calls_to l calls = 1).
Proof.
  rewrite notify_unfold. cbn [fst snd m_listeners m_callbacks m_enabled].
  rewrite sweep_and_notify_kept, sweep_and_notify_calls, call_callbacks_nonnull.
  assert (Hper : forall l,
            calls_to l (map (fun x => listener_on_config_change x opt_key value)
                            (List.filter alive (m_listeners b))
                        ++ map (fun f => callback_invoked f opt_key value)
                               (omap id (m_callbacks b)))
            = if alive l then entries l b else 0).
  { intros l. rewrite calls_to_app, calls_to_listeners, calls_to_callbacks, Nat.add_0_r.
    apply filter_alive_entries. }
  split; [reflexivity|]. split; [reflexivity|]. split; [apply filter_alive_expired|].
  split; [reflexivity|]. split; [reflexivity|]. split; [exact Hper|].
  intros l Ha He. now rewrite Hper, Ha.
Qed.

Lemma notify_sweeps_then_calls_witness :
  let b := add_callback (Some 9) (add_listener 2 (add_listener 1 create)) in
  let alive := fun l => Nat.eqb l 1 in
  calls_to 1 (snd (notify alive "layer_height" (any_double 0.2) b)) = 1
  /\ calls_to 2 (snd (notify alive "layer_height" (any_double 0.2) b)) = 0
  /\ m_listeners (fst (notify alive "layer_height" (any_double 0.2) b)) = [1].
Proof.
  intros b alive.
  destruct (notify_sweeps_then_calls alive "layer_height" (any_double 0.2) b)
    as (Hkept & _ & _ & _ & _ & Hper & Honce).
  split; [apply Honce; reflexivity|]. split; [exact (Hper 2)|exact Hkept].
Defined.

(** C5 as stated fails: [add_listener] does not look for an entry that is
    already there, so a live listener that was registered twice gets two
    [on_config_change] calls from one [notify]. *)
Lemma notify_duplicate_listener_called_twice :
  let b := add_listener 1 (add_listener 1 create) in
  let calls := snd (notify (fun _ => true) "layer_height" (any_double 0.2) b) in
  calls = [listener_on_config_change 1 "layer_height" (any_double 0.2);
           listener_on_config_change 1 "layer_height" (any_double 0.2)]
  /\ calls_to 1 calls = 2
  /\ calls_to 1 calls <> 1.
Proof.
  cbn. split; [reflexivity|]. split; [reflexivity|discriminate].
Qed.

(** C4 does not hold of the code: [notify] never reads [m_enabled].  On a
    bus disabled with [set_enabled(false)] it makes the same calls as on the
    enabled one, here one listener call and one callback call. *)
Theorem notify_on_disabled_bus_delivers :
  (forall alive opt_key value b,
     snd (notify alive opt_key value (set_enabled false b))
     = snd (notify alive opt_key value b))
  /\ let b := set_enabled false (add_callback (Some 9) (add_listener 1 create)) in
     is_enabled b = false
     /\ snd (notify (fun _ => true) "layer_height" (any_double 0.2) b)
        = [listener_on_config_change 1 "layer_height" (any_double 0.2);
           callback_invoked 9 "layer_height" (any_double 0.2)].
Proof.
  split.
  - intros alive opt_key value b. now rewrite !notify_unfold.
  - cbn. split; reflexivity.
Qed.

End Bus.

(** ** The MQTT publisher: calls on the wire *)

Section Wire.

Context `{Mosquitto}.

Lemma extends_intro {A : Type} (m : Wire A) :
  (forall w, exists cs, snd (m w) = w ++ cs) -> extends m.
Proof.
  intros Hm w. destruct (Hm w) as [cs Hcs]. unfold calls_of.
  rewrite Hcs at 2. now rewrite drop_app_length.
Qed.

Lemma extends_ret {A : Type} (a : A) : extends (mret a).
Proof. apply extends_intro. intros w. exists []. cbn. now rewrite app_nil_r. Qed.

Lemma bind_run {A B : Type} (m : Wire A) (f : A -> Wire B) w :
  (m ≫= f) w = f (fst (m w)) (snd (m w)).
Proof. unfold mbind, Wire_bind. now destruct (m w). Qed.

Lemma extends_bind {A B : Type} (m : Wire A) (f : A -> Wire B) :
  extends m -> (forall a, extends (f a)) -> extends (m ≫= f).
Proof.
  intros Hm Hf. apply extends_intro. intros w. rewrite bind_run, Hf, Hm.
  eexists. now rewrite <- app_assoc.
Qed.

(** The calls of a sequence are those of its first part, then those of its
    second part run after them. *)
Lemma calls_of_bind {A B : Type} (m : Wire A) (f : A -> Wire B) w :
  extends m -> (forall a, extends (f a)) ->
  calls_of (m ≫= f) w = calls_of m w ++ calls_of (f (fst (m w))) (w ++ calls_of m w).
Proof.
  intros Hm Hf. unfold calls_of at 1. rewrite bind_run, Hf, Hm.
  now rewrite <- app_assoc, drop_app_length.
Qed.

Lemma calls_of_ret {A : Type} (a : A) w : calls_of (mret a) w = [].
Proof. unfold calls_of. cbn. apply drop_all. Qed.

Lemma extends_for_each {A : Type} (l : list A) (body : A -> Wire unit) :
  (forall x, extends (body x)) -> extends (for_each l body).
Proof.
  intros Hb. induction l as [|x l IH]; cbn [for_each].
  - apply extends_ret.
  - apply extends_bind; [apply Hb|]. intros _. exact IH.
Qed.

Lemma calls_of_for_each_cons {A : Type} (x : A) (l : list A) (body : A -> Wire unit) w :
  (forall x, extends (body x)) ->
  calls_of (for_each (x :: l) body) w
  = calls_of (body x) w ++ calls_of (for_each l body) (w ++ calls_of (body x) w).
Proof.
  intros Hb. cbn [for_each]. rewrite calls_of_bind; [reflexivity|apply Hb|].
  intros _. now apply extends_for_each.
Qed.

Lemma calls_of_for_each_app {A : Type} (l1 l2 : list A) (body : A -> Wire unit) w :
  (forall x, extends (body x)) ->
  calls_of (for_each (l1 ++ l2) body) w
  = calls_of (for_each l1 body) w
    ++ calls_of (for_each l2 body) (w ++ calls_of (for_each l1 body) w).
Proof.
  intros Hb. revert w. induction l1 as [|x l1 IH]; intros w.
  - cbn [app for_each]. now rewrite calls_of_ret, app_nil_r.
  - rewrite <- app_comm_cons, !calls_of_for_each_cons by assumption.
    rewrite IH. now rewrite <- !app_assoc.
Qed.

Lemma calls_of_for_each_flat {A : Type} (l : list A) (body : A -> Wire unit)
    (g : A -> list PublishCall) w :
  (forall x, extends (body x)) ->
  (forall x w', In x l -> calls_of (body x) w' = g x) ->
  calls_of (for_each l body) w = flat_map g l.
Proof.
  intros Hext Hg. revert w. induction l as [|x l IH]; intros w.
  - apply calls_of_ret.
  - rewrite calls_of_for_each_cons by assumption. cbn [flat_map].
    rewrite Hg by now left. f_equal. apply IH. intros y w' Hy. apply Hg. now right.
Qed.

Lemma flat_map_nil {A B : Type} (l : list A) : flat_map (fun _ : A => @nil B) l = [].
Proof. induction l as [|x l IH]; [reflexivity|exact IH]. Qed.

Import MqttConfigPublisher.

Lemma c_str_no_nul (s : string) : ~ In "000"%char (chars s) -> c_str s = s.
Proof.
  induction s as [|c s IH]; [reflexivity|]. intros Hs. cbn [c_str].
  destruct (Ascii.eqb_spec c "000") as [->|_]; [exfalso; apply Hs; now left|].
  rewrite IH; [reflexivity|]. intros Hi. apply Hs. now right.
Qed.

Lemma c_str_cut (a b : string) :
  ~ In "000"%char (chars a) -> c_str (a +:+ String "000" b) = a.
Proof.
  induction a as [|c a IH]; intros Ha.
  - reflexivity.
  - change (c_str (String c (a +:+ String "000" b)) = String c a). cbn [c_str].
    destruct (Ascii.eqb_spec c "000") as [->|_]; [exfalso; apply Ha; now left|].
    rewrite IH; [reflexivity|]. intros Hi. apply Ha. now right.
Qed.

Lemma c_str_app (a b : string) :
  ~ In "000"%char (chars a) -> c_str (a +:+ b) = a +:+ c_str b.
Proof.
  induction a as [|c a IH]; intros Ha; [reflexivity|].
  change (c_str (String c (a +:+ b)) = String c (a +:+ c_str b)). cbn [c_str].
  destruct (Ascii.eqb_spec c "000") as [->|_]; [exfalso; apply Ha; now left|].
  rewrite IH; [reflexivity|]. intros Hi. apply Ha. now right.
Qed.

Lemma publish_connected (p : t) (h : nat) (topic payload : string) (retained : bool) w :
  m_mosq p = Some h -> m_connected p = true ->
  publish p topic payload retained w
  = let c := {| topic := c_str (m_topic_prefix p +:+ topic);
                payloadlen := static_cast_int (String.length payload);
                payload := payload; qos := 1; retain := retained |} in
    ((mosquitto_publish_rc w c =? MOSQ_ERR_SUCCESS)%Z, w ++ [c]).
Proof. intros Hm Hc. unfold publish. now rewrite Hm, Hc. Qed.

Lemma publish_not_connected (p : t) (topic payload : string) (retained : bool) w :
  m_mosq p = None \/ m_connected p = false ->
  publish p topic payload retained w = (false, w).
Proof.
  intros [Hm|Hc]; unfold publish.
  - now rewrite Hm.
  - rewrite Hc. now destruct (m_mosq p).
Qed.

Lemma extends_publish (p : t) (topic payload : string) (retained : bool) :
  extends (publish p topic payload retained).
Proof.
  apply extends_intro. intros w.
  destruct (m_mosq p) as [h|] eqn:Hm; [destruct (m_connected p) eqn:Hc|].
  - rewrite (publish_connected p h) by assumption. now eexists.
  - rewrite publish_not_connected by (now right). exists []. cbn. now rewrite app_nil_r.
  - rewrite publish_not_connected by (now left). exists []. cbn. now rewrite app_nil_r.
Qed.

Lemma calls_of_publish_connected (p : t) (h : nat) (topic payload : string) w :
  m_mosq p = Some h -> m_connected p = true ->
  calls_of (publish p topic payload true) w = [retained_call p topic payload].
Proof.
  intros Hm Hc. unfold calls_of. rewrite (publish_connected p h) by assumption.
  cbn [snd]. now rewrite drop_app_length.
Qed.

Lemma calls_of_publish_not_connected (p : t) (topic payload : string) (retained : bool) w :
  m_mosq p = None \/ m_connected p = false ->
  calls_of (publish p topic payload retained) w = [].
Proof.
  intros Hn. unfold calls_of. rewrite publish_not_connected by assumption.
  cbn [snd]. apply drop_all.
Qed.

(** C6, as the code has it.  Without a client object, or with the
    connection flag down, [publish] returns false and calls nothing.  With
    both, it makes one [mosquitto_publish] call, at QoS 1 and with the
    retained flag it was given, and returns whether that call reported
    success.  The topic of the call is what [c_str()] gives for the prefix
    followed by the topic: the whole of it when it holds no NUL byte, and
    otherwise only the part before the first one.  The call passes the
    payload buffer with [static_cast<int>] of its size as length, which is
    its size as long as that is below [2^31] and is negative from there up
    to [2^32]. *)
Theorem publish_gate_and_enqueue (p : t) (topic payload : string) (retained : bool) w :
  (m_mosq p = None \/ m_connected p = false ->
   publish p topic payload retained w = (false, w)
   /\ calls_of (publish p topic payload retained) w = [])
  /\ (forall h, m_mosq p = Some h -> m_connected p = true ->
      let c := {| topic := c_str (m_topic_prefix p +:+ topic);
                  payloadlen := static_cast_int (String.length payload);
                  payload := payload; qos := 1; retain := retained |} in
      publish p topic payload retained w
      = ((mosquitto_publish_rc w c =? MOSQ_ERR_SUCCESS)%Z, w ++ [c])
      /\ calls_of (publish p topic payload retained) w = [c])
  /\ (~ In "000"%char (chars (m_topic_prefix p +:+ topic)) ->
      c_str (m_topic_prefix p +:+ topic) = m_topic_prefix p +:+ topic)
  /\ (forall a b, m_topic_prefix p +:+ topic = a +:+ String "000" b ->
        ~ In "000"%char (chars a) -> c_str (m_topic_prefix p +:+ topic) = a)
  /\ ((Z.of_nat (String.length payload) < 2 ^ 31)%Z ->
      static_cast_int (String.length payload) = Z.of_nat (String.length payload))
  /\ ((2 ^ 31 <= Z.of_nat (String.length payload) < 2 ^ 32)%Z ->
      (static_cast_int (String.length payload) < 0)%Z).
Proof.
  split; [|split; [|split; [|split; [|split]]]].
  - intros Hn. split; [now apply publish_not_connected|].
    now apply calls_of_publish_not_connected.
  - intros h Hm Hc c. split; [now apply (publish_connected p h)|].
    unfold calls_of. rewrite (publish_connected p h) by assumption.
    cbn [snd]. now rewrite drop_app_length.
  - apply c_str_no_nul.
  - intros a b -> Ha. now apply c_str_cut.
  - intros Hlt. unfold static_cast_int.
    rewrite Z.mod_small by lia.
    destruct (Z.ltb_spec (Z.of_nat (String.length payload)) (2 ^ 31)); [reflexivity|lia].
  - intros [Hlo Hhi]. unfold static_cast_int.
    rewrite Z.mod_small by lia.
    destruct (Z.ltb_spec (Z.of_nat (String.length payload)) (2 ^ 31)); lia.
Qed.

End Wire.

Section PublishExample.

Import Fixtures.

Lemma publish_gate_and_enqueue_witness :
  let p := Fixtures.connected_publisher in
  let down := MqttConfigPublisher.on_disconnect_callback p in
  MqttConfigPublisher.publish down "config/printer/preset_name" "{}" true [] = (false, [])
  /\ MqttConfigPublisher.publish p "config/printer/preset_name" "{}" true []
     = (true, [{| topic := "slicer/config/printer/preset_name"; payloadlen := 2;
                  payload := "{}"; qos := 1; retain := true |}])
  /\ c_str ("slicer/" +:+ "config/printer/preset_name") = "slicer/config/printer/preset_name"
  /\ c_str ("slicer/" +:+ String "a" (String "000" "b")) = "slicer/a".
Proof.
  intros p down.
  destruct (publish_gate_and_enqueue down "config/printer/preset_name" "{}" true [])
    as [Hgate _].
  destruct (publish_gate_and_enqueue p "config/printer/preset_name" "{}" true [])
    as (_ & Henqueue & Hwhole & _).
  destruct (publish_gate_and_enqueue p (String "a" (String "000" "b")) "{}" true [])
    as (_ & _ & _ & Hcut & _).
  split; [|split; [|split]].
  - apply Hgate. right. reflexivity.
  - apply (Henqueue 1); reflexivity.
  - apply Hwhole. vm_compute. intuition discriminate.
  - apply (Hcut "slicer/a" "b"); [reflexivity|]. vm_compute. intuition discriminate.
Defined.

(** C6 as stated fails: the topic of the call is not always the prefix
    followed by the topic.  A topic that holds a NUL byte reaches the library
    cut there, so a publish on ["a\0b"] goes out on [slicer/a]. *)
Lemma publish_topic_cut_at_nul :
  let p := Fixtures.connected_publisher in
  let topic := String "a" (String "000" "b") in
  MqttConfigPublisher.publish p topic "{}" true []
  = (true, [{| topic := "slicer/a"; payloadlen := 2;
               payload := "{}"; qos := 1; retain := true |}])
  /\ "slicer/a" <> MqttConfigPublisher.m_topic_prefix p +:+ topic.
Proof.
  intros p topic. split; [reflexivity|]. vm_compute. discriminate.
Qed.

End PublishExample.

(** ** The MQTT publisher: topic routing *)

Section Routing.

Context `{Platform} `{Mosquitto}.

Import MqttConfigPublisher.

Lemma calls_of_publish_change_connected (p : t) (h : nat) (opt_key : string) (value : boost_any) w :
  m_mosq p = Some h -> m_connected p = true ->
  calls_of (publish_change p opt_key value) w
  = [retained_call p (get_topic p opt_key) (serialize_value opt_key value)].
Proof.
  intros Hm Hc. unfold publish_change. rewrite Hc. cbn [negb].
  rewrite calls_of_bind; [|apply extends_publish|intros; apply extends_ret].
  rewrite (calls_of_publish_connected p h _ _ _ Hm Hc).
  now rewrite calls_of_ret, app_nil_r.
Qed.

Lemma calls_of_publish_change_not_connected (p : t) (opt_key : string) (value : boost_any) w :
  m_mosq p = None \/ m_connected p = false ->
  calls_of (publish_change p opt_key value) w = [].
Proof.
  intros Hn. unfold publish_change. destruct (m_connected p) eqn:Hc; cbn [negb].
  - destruct Hn as [Hm|Hf]; [|discriminate].
    rewrite calls_of_bind; [|apply extends_publish|intros; apply extends_ret].
    rewrite calls_of_publish_not_connected by (now left).
    now rewrite calls_of_ret.
  - apply calls_of_ret.
Qed.

(** C3.  [get_topic] reads nothing but the routing table and the key: a key
    the table maps to [{page, group}] gives [config/page/group/key], a key
    it does not map gives [config/unknown/key], and two publishers with the
    same table give the same topic.  In the table the constructor builds,
    [layer_height] is on page [quality], group [layer_height]: with the prefix
    [slicer/], every call [publish_change] makes for it is on
    [slicer/config/quality/layer_height/layer_height], and a connected
    publisher makes exactly that one call, retained, at QoS 1. *)
Theorem get_topic_routing (p : t) (opt_key : string) :
  (forall it, m_topic_map p !! opt_key = Some it ->
     get_topic p opt_key = "config/" +:+ page it +:+ "/" +:+ group it +:+ "/" +:+ opt_key)
  /\ (m_topic_map p !! opt_key = None -> get_topic p opt_key = "config/unknown/" +:+ opt_key)
  /\ (forall q, m_topic_map q = m_topic_map p -> get_topic q opt_key = get_topic p opt_key)
  /\ m_topic_map create !! "layer_height"
     = Some {| page := ConfigTopics.Quality.PAGE; group := ConfigTopics.Quality.LayerHeight.GROUP |}
  /\ (m_topic_map p = m_topic_map create -> m_topic_prefix p = "slicer/" ->
      forall value w,
        let c := {| topic := "slicer/config/quality/layer_height/layer_height";
                    payloadlen := static_cast_int
                                    (String.length (serialize_value "layer_height" value));
                    payload := serialize_value "layer_height" value;
                    qos := 1; retain := true |} in
        (forall c', In c' (calls_of (publish_change p "layer_height" value) w) -> c' = c)
        /\ (forall h, m_mosq p = Some h -> m_connected p = true ->
            calls_of (publish_change p "layer_height" value) w = [c])).
Proof.
  split; [|split; [|split; [|split]]].
  - intros it Hit. unfold get_topic. now rewrite Hit.
  - intros Hnone. unfold get_topic. now rewrite Hnone.
  - intros q Hq. unfold get_topic. now rewrite Hq.
  - vm_compute. reflexivity.
  - intros Hmap Hprefix value w c.
    assert (Hc : retained_call p (get_topic p "layer_height")
                   (serialize_value "layer_height" value) = c).
    { unfold retained_call, get_topic. rewrite Hmap, Hprefix.
      replace (m_topic_map create !! "layer_height")
        with (Some {| page := "quality"; group := "layer_height" |})
        by (vm_compute; reflexivity).
      reflexivity. }
    split.
    + intros c' Hin.
      destruct (m_mosq p) as [h|] eqn:Hm; [destruct (m_connected p) eqn:Hcon|].
      * rewrite (calls_of_publish_change_connected p h) in Hin by assumption.
        rewrite Hc in Hin. destruct Hin as [<-|[]]. reflexivity.
      * rewrite calls_of_publish_change_not_connected in Hin by (now right). destruct Hin.
      * rewrite calls_of_publish_change_not_connected in Hin by (now left). destruct Hin.
    + intros h Hm Hcon.
      rewrite (calls_of_publish_change_connected p h) by assumption. now rewrite Hc.
Qed.

End Routing.

Section RoutingExample.

Import Fixtures.

Lemma get_topic_routing_witness :
  let p := Fixtures.connected_publisher in
  MqttConfigPublisher.get_topic p "layer_height" = "config/quality/layer_height/layer_height"
  /\ MqttConfigPublisher.get_topic p "no_such_key" = "config/unknown/no_such_key"
  /\ calls_of (MqttConfigPublisher.publish_change p "layer_height" (any_double 0.2)) []
     = [{| topic := "slicer/config/quality/layer_height/layer_height";
           payloadlen := static_cast_int
             (String.length (MqttConfigPublisher.serialize_value "layer_height" (any_double 0.2)));
           payload := MqttConfigPublisher.serialize_value "layer_height" (any_double 0.2);
           qos := 1; retain := true |}].
Proof.
  intros p.
  destruct (get_topic_routing p "layer_height") as (Hknown & _ & _ & _ & Hpub).
  destruct (get_topic_routing p "no_such_key") as (_ & Hunknown & _).
  split; [|split].
  - apply (Hknown {| page := "quality"; group := "layer_height" |}). vm_compute. reflexivity.
  - apply Hunknown. vm_compute. reflexivity.
  - apply (Hpub eq_refl eq_refl (any_double 0.2) []) with (h := 1); reflexivity.
Defined.

End RoutingExample.

(** ** The MQTT publisher: the payload envelope *)

Section Envelope.

Context `{Platform}.

Import MqttConfigPublisher.

Lemma has_literal_app l (a b : list insertion) :
  has_literal l (a ++ b) = has_literal l a || has_literal l b.
Proof.
  induction a as [|[s|s|i|x|n|k] a IH]; cbn [app has_literal]; try assumption.
  - reflexivity.
  - rewrite IH. apply orb_assoc.
Qed.

Lemma after_literal_app l (a b : list insertion) :
  has_literal l a = false -> after_literal l (a ++ b) = after_literal l b.
Proof.
  induction a as [|[s|s|i|x|n|k] a IH]; cbn [app has_literal after_literal]; try assumption.
  - reflexivity.
  - intros Ha. apply orb_false_elim in Ha as [Hs Ha]. rewrite Hs. now apply IH.
Qed.

Lemma bounds_written_app (a b : list insertion) :
  bounds_written (a ++ b) = bounds_written a ++ bounds_written b.
Proof.
  induction a as [|[s|s|i|x|n|k] a IH]; cbn [app bounds_written]; try assumption.
  - reflexivity.
  - now rewrite IH.
Qed.

Lemma has_literal_comma_separated {A : Type} l (elem : A -> list insertion) first (v : list A) :
  String.eqb "," l = false -> (forall x, has_literal l (elem x) = false) ->
  has_literal l (comma_separated elem first v) = false.
Proof.
  intros Hcomma Helem. revert first.
  induction v as [|x v IH]; intros first; cbn [comma_separated]; [reflexivity|].
  rewrite !has_literal_app, Helem, IH.
  destruct first; cbn [has_literal]; [reflexivity|]. now rewrite Hcomma.
Qed.

Lemma bounds_written_comma_separated {A : Type} (elem : A -> list insertion) first (v : list A) :
  (forall x, bounds_written (elem x) = []) ->
  bounds_written (comma_separated elem first v) = [].
Proof.
  intros Helem. revert first.
  induction v as [|x v IH]; intros first; cbn [comma_separated]; [reflexivity|].
  rewrite !bounds_written_app, Helem, IH. now destruct first.
Qed.

Ltac by_literal Hl := destruct Hl as [-> | ->]; vm_compute; reflexivity.

Lemma has_literal_serialize_any l value :
  bound_literal l -> has_literal l (serialize_any value) = false.
Proof.
  intros Hl.
  assert (Hcomma : String.eqb "," l = false) by by_literal Hl.
  destruct value as [[]|i|x|s|v|v|v|]; cbn [serialize_any];
    rewrite ?has_literal_app, ?has_literal_comma_separated;
    try exact Hcomma; intros; by_literal Hl.
Qed.

Lemma bounds_written_serialize_any value : bounds_written (serialize_any value) = [].
Proof.
  destruct value as [b|i|x|s|v|v|v|]; cbn [serialize_any];
    rewrite ?bounds_written_app, ?bounds_written_comma_separated; reflexivity.
Qed.

(** The part of [meta] before the bounds, and the part after them. *)
Lemma serialize_meta_split (opt_def : ConfigOptionDef.t) :
  exists before after : list insertion,
    serialize_meta opt_def
    = before
      ++ (if bound_ne_int (ConfigOptionDef.min opt_def) INT_MIN
             && bound_ne_float (ConfigOptionDef.min opt_def) (- FLT_MAX)%float
          then [lit min_literal; num (ConfigOptionDef.min opt_def)] else [])
      ++ (if bound_ne_int (ConfigOptionDef.max opt_def) INT_MAX
             && bound_ne_float (ConfigOptionDef.max opt_def) FLT_MAX
          then [lit max_literal; num (ConfigOptionDef.max opt_def)] else [])
      ++ after
    /\ (forall l, bound_literal l -> has_literal l before = false)
    /\ (forall l, bound_literal l -> has_literal l after = false)
    /\ bounds_written before = [] /\ bounds_written after = [].
Proof.
  unfold serialize_meta.
  match goal with
  | |- exists b a, ?h ++ ?u ++ ?mi ++ ?ma ++ ?rest = _ /\ _ =>
      exists (h ++ u), rest
  end.
  split; [now rewrite <- app_assoc|].
  split; [|split; [|split]].
  - intros l Hl. rewrite has_literal_app.
    destruct (negb _); by_literal Hl.
  - intros l Hl.
    assert (Hcomma : String.eqb "," l = false) by by_literal Hl.
    rewrite !has_literal_app.
    destruct (ConfigOptionDef.enum_keys_map opt_def) as [[|kv0 kvs]|];
      destruct (ConfigOptionDef.enum_values opt_def) as [|v0 vs];
      destruct (ConfigOptionDef.enum_labels opt_def) as [|l0 ls];
      rewrite ?has_literal_app, ?has_literal_comma_separated;
      try exact Hcomma; intros; by_literal Hl.
  - rewrite bounds_written_app. now destruct (negb _).
  - rewrite !bounds_written_app.
    destruct (ConfigOptionDef.enum_keys_map opt_def) as [[|kv0 kvs]|];
      destruct (ConfigOptionDef.enum_values opt_def) as [|v0 vs];
      destruct (ConfigOptionDef.enum_labels opt_def) as [|l0 ls];
      rewrite ?bounds_written_app, ?bounds_written_comma_separated; reflexivity.
Qed.

(** *** The payload as text *)

Lemma append_nil_r' (a : string) : a +:+ EmptyString = a.
Proof.
  induction a as [|c a IH]; [reflexivity|].
  change (String c (a +:+ EmptyString) = String c a). now rewrite IH.
Qed.

Lemma append_assoc_s (a b c : string) : (a +:+ b) +:+ c = a +:+ (b +:+ c).
Proof.
  induction a as [|ch a IH]; [reflexivity|].
  change (String ch ((a +:+ b) +:+ c) = String ch (a +:+ (b +:+ c))). now rewrite IH.
Qed.

Lemma str_from_app prec (a b : list insertion) :
  str_from prec (a ++ b) = str_from prec a +:+ str_from (precision_after prec a) b.
Proof.
  revert prec. induction a as [|[s|s|i|x|n|k] a IH]; intros prec;
    cbn [app str_from precision_after]; rewrite ?IH, ?append_assoc_s; reflexivity.
Qed.

Lemma precision_after_app prec (a b : list insertion) :
  precision_after prec (a ++ b) = precision_after (precision_after prec a) b.
Proof.
  revert prec. induction a as [|[s|s|i|x|n|k] a IH]; intros prec;
    cbn [app precision_after]; rewrite ?IH; reflexivity.
Qed.

Lemma precision_after_comma_separated {A : Type} (elem : A -> list insertion) first
    (v : list A) :
  (forall x, precision_after 6 (elem x) = 6) ->
  precision_after 6 (comma_separated elem first v) = 6.
Proof.
  intros Helem. revert first.
  induction v as [|x v IH]; intros first; cbn [comma_separated]; [reflexivity|].
  rewrite !precision_after_app.
  destruct first; cbn [precision_after]; rewrite Helem; apply IH.
Qed.

Lemma precision_after_serialize_any value : precision_after 6 (serialize_any value) = 6.
Proof.
  destruct value as [b|i|x|s|v|v|v|]; cbn [serialize_any];
    rewrite ?precision_after_app, ?precision_after_comma_separated; reflexivity.
Qed.

Lemma scan_app pat q (a b : string) : scan pat q (a +:+ b) = scan pat (scan pat q a) b.
Proof.
  revert q. induction a as [|c a IH]; intros q; [reflexivity|].
  change (scan pat (scan_step pat q c) (a +:+ b) = scan pat (scan pat (scan_step pat q c) a) b).
  apply IH.
Qed.

Lemma scan_found pat q (s : string) : String.length pat <= q -> scan pat q s = q.
Proof.
  revert q. induction s as [|c s IH]; intros q Hq; [reflexivity|].
  cbn [scan]. unfold scan_step. rewrite (proj2 (Nat.leb_le _ _) Hq). now apply IH.
Qed.

Lemma scan_step_bound pat q c : q <= String.length pat -> scan_step pat q c <= String.length pat.
Proof.
  intros Hq. unfold scan_step.
  destruct (Nat.leb_spec (String.length pat) q) as [Hle|Hlt]; [lia|].
  destruct (match String.get q pat with Some x => Ascii.eqb x c | None => false end); [lia|].
  destruct (match String.get 0 pat with Some x => Ascii.eqb x c | None => false end); lia.
Qed.

Lemma scan_bound pat q (s : string) : q <= String.length pat -> scan pat q s <= String.length pat.
Proof.
  revert q. induction s as [|c s IH]; intros q Hq; [exact Hq|].
  cbn [scan]. apply IH. now apply scan_step_bound.
Qed.

Ltac by_state q :=
  destruct q as [|[|[|[|[|[|[|q]]]]]]];
  first [exfalso; lia | vm_compute; lia | idtac].

(** A search that has read the literal has found it. *)
Lemma scan_literal pat q : bound_literal pat -> q <= 7 -> scan pat q pat = 7.
Proof.
  intros [-> | ->] Hq; by_state q.
  all: destruct q; [vm_compute; lia|exfalso; lia].
Qed.

Lemma occurs_scan pat (s : string) : bound_literal pat -> occurs pat s -> scan pat 0 s = 7.
Proof.
  intros Hpat (a & b & ->).
  assert (Hlen : String.length pat = 7) by (destruct Hpat as [-> | ->]; reflexivity).
  rewrite !scan_app.
  rewrite (scan_literal pat) by (assumption || (rewrite <- Hlen; apply scan_bound; lia)).
  apply scan_found. lia.
Qed.

Lemma takes_nil pat (X Y : nat -> Prop) : (forall q, X q -> Y q) -> takes pat X Y [].
Proof. intros Hxy prec q Hq. now apply Hxy. Qed.

Lemma takes_app pat (X Y Z : nat -> Prop) (a b : list insertion) :
  takes pat X Y a -> takes pat Y Z b -> takes pat X Z (a ++ b).
Proof.
  intros Ha Hb prec q Hq. rewrite str_from_app, scan_app. apply Hb. now apply Ha.
Qed.

Lemma takes_cons pat (X Y Z : nat -> Prop) (i : insertion) (rest : list insertion) :
  takes pat X Y [i] -> takes pat Y Z rest -> takes pat X Z (i :: rest).
Proof. intros Hi Hrest. now apply (takes_app pat X Y Z [i] rest). Qed.

Lemma takes_weaken pat (X X' Y Y' : nat -> Prop) (a : list insertion) :
  (forall q, X' q -> X q) -> (forall q, Y q -> Y' q) -> takes pat X Y a -> takes pat X' Y' a.
Proof. intros Hx Hy Ha prec q Hq. apply Hy, Ha, Hx, Hq. Qed.

Lemma takes_setprecision pat (X : nat -> Prop) n : takes pat X X [setprecision n].
Proof. intros prec q Hq. exact Hq. Qed.

(** A text without a double quote, read after a delimiter. *)
Lemma scan_plain pat q (s : string) :
  bound_literal pat -> ~ In dquote_char (list_ascii_of_string s) ->
  after_delimiter q -> after_delimiter (scan pat q s).
Proof.
  intros Hpat. revert q. induction s as [|c s IH]; intros q Hs Hq; [exact Hq|].
  cbn [scan]. apply IH; [intros Hi; apply Hs; now right|].
  assert (Hc : c <> dquote_char) by (intros ->; apply Hs; now left).
  unfold after_delimiter in *.
  destruct Hpat as [-> | ->]; destruct q as [|[|q]]; try lia;
    cbv [scan_step min_literal max_literal quoted dq String.append String.length
         String.get Nat.leb];
    repeat match goal with
           | |- context [Ascii.eqb ?x c] =>
               destruct (Ascii.eqb_spec x c) as [?|?]; try subst c
           end; try lia; contradiction Hc; reflexivity.
Qed.

Lemma show_uint_plain (d : Decimal.uint) :
  ~ In dquote_char (list_ascii_of_string (NilEmpty.string_of_uint d)).
Proof.
  induction d; cbn; intros Hi; try contradiction;
    destruct Hi as [Hx|Hi]; try discriminate; now apply IHd.
Qed.

Lemma show_int_plain (i : Z) : ~ In dquote_char (list_ascii_of_string (show_int i)).
Proof.
  unfold show_int. destruct (Z.to_int i) as [d|d]; cbn [NilZero.string_of_int].
  - unfold NilZero.string_of_uint.
    destruct d; try apply show_uint_plain. cbn. intros [Hx|[]]. discriminate.
  - cbn. intros [Hx|Hi]; [discriminate|]. revert Hi. unfold NilZero.string_of_uint.
    destruct d; try apply show_uint_plain. cbn. intros [Hx|[]]. discriminate.
Qed.

Lemma takes_text pat (s : string) (i : insertion) :
  bound_literal pat -> ~ In dquote_char (list_ascii_of_string s) ->
  (forall prec, str_from prec [i] = s +:+ EmptyString) ->
  takes pat after_delimiter after_delimiter [i].
Proof.
  intros Hpat Hs Hi prec q Hq. rewrite Hi, append_nil_r'. now apply scan_plain.
Qed.

Lemma takes_int pat (i : Z) :
  bound_literal pat -> takes pat after_delimiter after_delimiter [int i].
Proof.
  intros Hpat prec q Hq. cbn [str_from]. rewrite append_nil_r'.
  apply scan_plain; [assumption|apply show_int_plain|assumption].
Qed.

Lemma takes_dbl pat (x : float) :
  bound_literal pat -> plain_numbers -> takes pat after_delimiter after_delimiter [dbl x].
Proof.
  intros Hpat [Hd _] prec q Hq. cbn [str_from]. rewrite append_nil_r'.
  apply scan_plain; [assumption|apply Hd|assumption].
Qed.

Lemma takes_num pat (b : bound) :
  bound_literal pat -> plain_numbers -> takes pat after_delimiter after_delimiter [num b].
Proof.
  intros Hpat [_ Hb] prec q Hq. cbn [str_from]. rewrite append_nil_r'.
  apply scan_plain; [assumption|apply Hb|assumption].
Qed.

(** An escaped text, read within a string. *)
Lemma scan_escape_char pat q (c : ascii) :
  bound_literal pat -> within_string q -> within_string (scan pat q (json_escape_char c)).
Proof.
  intros Hpat Hq. unfold within_string in *. unfold json_escape_char.
  destruct (Ascii.eqb_spec c "034") as [->|Hquote];
    [destruct Hpat as [-> | ->]; by_state q|].
  destruct (Ascii.eqb_spec c "\") as [->|Hb]; [destruct Hpat as [-> | ->]; by_state q|].
  destruct (Ascii.eqb_spec c "008") as [->|H8]; [destruct Hpat as [-> | ->]; by_state q|].
  destruct (Ascii.eqb_spec c "012") as [->|H12]; [destruct Hpat as [-> | ->]; by_state q|].
  destruct (Ascii.eqb_spec c "010") as [->|H10]; [destruct Hpat as [-> | ->]; by_state q|].
  destruct (Ascii.eqb_spec c "013") as [->|H13]; [destruct Hpat as [-> | ->]; by_state q|].
  destruct (Ascii.eqb_spec c "009") as [->|H9]; [destruct Hpat as [-> | ->]; by_state q|].
  cbn [scan].
  destruct Hpat as [-> | ->]; destruct q as [|[|[|[|[|[|q]]]]]]; try lia;
    cbv [scan_step min_literal max_literal quoted dq String.append String.length
         String.get Nat.leb];
    repeat match goal with
           | |- context [Ascii.eqb ?x c] =>
               destruct (Ascii.eqb_spec x c) as [?|?]; try subst c
           end; try lia; contradiction Hquote; reflexivity.
Qed.

Lemma scan_escape pat q (s : string) :
  bound_literal pat -> within_string q -> within_string (scan pat q (json_escape s)).
Proof.
  intros Hpat. revert q. induction s as [|c s IH]; intros q Hq; [exact Hq|].
  cbn [json_escape]. rewrite scan_app. apply IH. now apply scan_escape_char.
Qed.

Lemma takes_str pat (s : string) :
  bound_literal pat -> takes pat within_string within_string [str (json_escape s)].
Proof.
  intros Hpat prec q Hq. cbn [str_from]. rewrite append_nil_r'. now apply scan_escape.
Qed.

(** A literal, by running the search from each state it can be read in. *)
Ltac by_literal_run Hpat :=
  let prec := fresh "prec" in let q := fresh "q" in let Hq := fresh "Hq" in
  intros prec q Hq;
  unfold after_delimiter, between_members, within_string in Hq;
  unfold after_delimiter, between_members, within_string;
  destruct Hpat as [-> | ->];
  (destruct q as [|[|[|[|[|[|[|q]]]]]]];
   first [exfalso; lia | vm_compute; lia]).

Ltac lit_to Y Hpat := apply (takes_cons _ _ Y); [by_literal_run Hpat|].
Ltac str_on Hpat :=
  apply (takes_cons _ _ within_string); [now apply takes_str|].

Lemma takes_comma_separated pat {A : Type} (X : nat -> Prop) (elem : A -> list insertion)
    first (v : list A) :
  takes pat X X [lit ","] -> (forall x, takes pat X X (elem x)) ->
  takes pat X X (comma_separated elem first v).
Proof.
  intros Hcomma Helem. revert first.
  induction v as [|x v IH]; intros first; cbn [comma_separated]; [now apply takes_nil|].
  apply (takes_app _ _ X); [destruct first; [now apply takes_nil|exact Hcomma]|].
  apply (takes_app _ _ X); [apply Helem|apply IH].
Qed.

Lemma takes_quoted_element pat (s : string) :
  bound_literal pat ->
  takes pat between_members between_members [lit dq; str (json_escape s); lit dq].
Proof.
  intros Hpat. lit_to within_string Hpat. str_on Hpat. by_literal_run Hpat.
Qed.

Lemma takes_serialize_any pat value :
  bound_literal pat -> plain_numbers ->
  takes pat after_delimiter after_delimiter (serialize_any value).
Proof.
  intros Hpat Hplain.
  destruct value as [b|i|x|s|v|v|v|]; cbn [serialize_any].
  - destruct b; lit_to after_delimiter Hpat; lit_to after_delimiter Hpat;
      by_literal_run Hpat.
  - lit_to after_delimiter Hpat.
    apply (takes_cons _ _ after_delimiter); [now apply takes_int|]. by_literal_run Hpat.
  - lit_to after_delimiter Hpat.
    apply (takes_cons _ _ after_delimiter); [apply takes_setprecision|].
    apply (takes_cons _ _ after_delimiter); [now apply takes_dbl|]. by_literal_run Hpat.
  - lit_to within_string Hpat. str_on Hpat. lit_to between_members Hpat.
    by_literal_run Hpat.
  - apply (takes_app _ _ between_members); [by_literal_run Hpat|].
    apply (takes_app _ _ between_members); [|by_literal_run Hpat].
    apply takes_comma_separated; [by_literal_run Hpat|].
    intros s. now apply takes_quoted_element.
  - apply (takes_app _ _ after_delimiter); [by_literal_run Hpat|].
    apply (takes_app _ _ after_delimiter); [|by_literal_run Hpat].
    apply takes_comma_separated; [by_literal_run Hpat|].
    intros x. apply (takes_cons _ _ after_delimiter); [apply takes_setprecision|].
    now apply takes_dbl.
  - apply (takes_app _ _ after_delimiter); [by_literal_run Hpat|].
    apply (takes_app _ _ after_delimiter); [|by_literal_run Hpat].
    apply takes_comma_separated; [by_literal_run Hpat|].
    intros i. now apply takes_int.
  - by_literal_run Hpat.
Qed.

(** The member of the other bound, when it is there. *)
Lemma takes_other_bound pat other (written : bool) (b : bound) :
  bound_literal pat -> bound_literal other -> pat <> other -> plain_numbers ->
  takes pat between_members between_members (if written then [lit other; num b] else []).
Proof.
  intros Hpat Hother Hne Hplain. destruct written; [|now apply takes_nil].
  apply (takes_cons _ _ after_delimiter).
  - destruct Hother as [-> | ->]; destruct Hpat as [Hp|Hp];
      try (exfalso; apply Hne; exact Hp);
      intros prec q Hq; unfold between_members in Hq; unfold after_delimiter; subst pat;
      (destruct q as [|[|[|[|[|[|[|q]]]]]]]; first [exfalso; lia | vm_compute; lia]).
  - apply (takes_weaken _ after_delimiter _ after_delimiter);
      [trivial|unfold after_delimiter, between_members; lia|now apply takes_num].
Qed.

Lemma takes_serialize_meta pat (opt_def : ConfigOptionDef.t) :
  bound_literal pat -> plain_numbers ->
  (pat = min_literal ->
   bound_ne_int (ConfigOptionDef.min opt_def) INT_MIN
   && bound_ne_float (ConfigOptionDef.min opt_def) (- FLT_MAX)%float = false) ->
  (pat = max_literal ->
   bound_ne_int (ConfigOptionDef.max opt_def) INT_MAX
   && bound_ne_float (ConfigOptionDef.max opt_def) FLT_MAX = false) ->
  takes pat between_members between_members (serialize_meta opt_def).
Proof.
  intros Hpat Hplain Hmin Hmax. unfold serialize_meta.
  assert (Hminmax : min_literal <> max_literal) by (vm_compute; discriminate).
  apply (takes_app _ _ between_members).
  { lit_to after_delimiter Hpat. lit_to within_string Hpat. str_on Hpat.
    lit_to between_members Hpat. lit_to within_string Hpat. str_on Hpat.
    lit_to between_members Hpat. lit_to within_string Hpat. str_on Hpat.
    by_literal_run Hpat. }
  apply (takes_app _ _ between_members).
  { destruct (negb _); [|now apply takes_nil].
    lit_to within_string Hpat. str_on Hpat. by_literal_run Hpat. }
  apply (takes_app _ _ between_members).
  { destruct Hpat as [Hp|Hp].
    - rewrite (Hmin Hp). now apply takes_nil.
    - apply takes_other_bound; [now right|now left|congruence|assumption]. }
  apply (takes_app _ _ between_members).
  { destruct Hpat as [Hp|Hp].
    - apply takes_other_bound; [now left|now right|congruence|assumption].
    - rewrite (Hmax Hp). now apply takes_nil. }
  apply (takes_app _ _ between_members).
  { destruct (ConfigOptionDef.enum_keys_map opt_def) as [[|kv0 kvs]|];
      try now apply takes_nil.
    apply (takes_app _ _ between_members); [by_literal_run Hpat|].
    apply (takes_app _ _ between_members); [|by_literal_run Hpat].
    apply takes_comma_separated; [by_literal_run Hpat|].
    intros kv. lit_to within_string Hpat. str_on Hpat. lit_to after_delimiter Hpat.
    apply (takes_cons _ _ after_delimiter); [now apply takes_int|]. by_literal_run Hpat. }
  apply (takes_app _ _ between_members).
  { destruct (ConfigOptionDef.enum_values opt_def) as [|v0 vs]; [now apply takes_nil|].
    apply (takes_app _ _ between_members); [by_literal_run Hpat|].
    apply (takes_app _ _ between_members); [|by_literal_run Hpat].
    apply takes_comma_separated; [by_literal_run Hpat|].
    intros s. now apply takes_quoted_element. }
  apply (takes_app _ _ between_members).
  { destruct (ConfigOptionDef.enum_labels opt_def) as [|v0 vs]; [now apply takes_nil|].
    apply (takes_app _ _ between_members); [by_literal_run Hpat|].
    apply (takes_app _ _ between_members); [|by_literal_run Hpat].
    apply takes_comma_separated; [by_literal_run Hpat|].
    intros s. now apply takes_quoted_element. }
  by_literal_run Hpat.
Qed.

(** A payload whose definition leaves a bound out does not hold the literal
    of that bound. *)
Lemma payload_without_bound pat (opt_key : string) (value : boost_any)
    (opt_def : ConfigOptionDef.t) :
  print_config_def_get opt_key = Some opt_def ->
  bound_literal pat -> plain_numbers ->
  (pat = min_literal ->
   bound_ne_int (ConfigOptionDef.min opt_def) INT_MIN
   && bound_ne_float (ConfigOptionDef.min opt_def) (- FLT_MAX)%float = false) ->
  (pat = max_literal ->
   bound_ne_int (ConfigOptionDef.max opt_def) INT_MAX
   && bound_ne_float (ConfigOptionDef.max opt_def) FLT_MAX = false) ->
  ~ occurs pat (serialize_value opt_key value).
Proof.
  intros Hdef Hpat Hplain Hmin Hmax Hocc.
  apply (occurs_scan pat _ Hpat) in Hocc.
  assert (Htakes : takes pat after_delimiter between_members
                     (serialize_value_stream opt_key value)).
  { unfold serialize_value_stream. rewrite Hdef.
    apply (takes_app _ _ after_delimiter).
    { lit_to within_string Hpat. str_on Hpat. by_literal_run Hpat. }
    apply (takes_app _ _ between_members).
    { apply (takes_weaken _ after_delimiter _ after_delimiter);
        [trivial|unfold after_delimiter, between_members; lia
        |now apply takes_serialize_any]. }
    apply (takes_app _ _ between_members); [now apply takes_serialize_meta|].
    by_literal_run Hpat. }
  specialize (Htakes 6 0). unfold serialize_value, str_of in Hocc.
  rewrite Hocc in Htakes. unfold after_delimiter, between_members in Htakes. lia.
Qed.

(** The text of a payload around the two bounds. *)
Lemma payload_around_bounds (opt_key : string) (value : boost_any)
    (opt_def : ConfigOptionDef.t) :
  print_config_def_get opt_key = Some opt_def ->
  exists head tail : string,
    serialize_value opt_key value
    = head
      +:+ (if bound_ne_int (ConfigOptionDef.min opt_def) INT_MIN
              && bound_ne_float (ConfigOptionDef.min opt_def) (- FLT_MAX)%float
           then min_literal +:+ show_bound 6 (ConfigOptionDef.min opt_def)
           else EmptyString)
      +:+ (if bound_ne_int (ConfigOptionDef.max opt_def) INT_MAX
              && bound_ne_float (ConfigOptionDef.max opt_def) FLT_MAX
           then max_literal +:+ show_bound 6 (ConfigOptionDef.max opt_def)
           else EmptyString)
      +:+ tail.
Proof.
  intros Hdef. unfold serialize_value, str_of, serialize_value_stream. rewrite Hdef.
  unfold serialize_meta.
  match goal with
  | |- exists head tail, str_from 6 (?k ++ ?v ++ (?m ++ ?u ++ ?mi ++ ?ma ++ ?rest) ++ ?e) = _ =>
      set (before := k ++ v ++ m ++ u); set (after := rest ++ e);
      assert (Hsplit : k ++ v ++ (m ++ u ++ mi ++ ma ++ rest) ++ e
                       = before ++ mi ++ ma ++ after)
        by (subst before after; now rewrite <- !app_assoc);
      assert (Hprec : precision_after 6 before = 6)
  end.
  { subst before. rewrite !precision_after_app.
    cbn [precision_after]. rewrite precision_after_serialize_any.
    cbn [precision_after]. now destruct (negb _). }
  rewrite Hsplit. exists (str_from 6 before).
  rewrite str_from_app, Hprec.
  destruct (bound_ne_int (ConfigOptionDef.min opt_def) INT_MIN
            && bound_ne_float (ConfigOptionDef.min opt_def) (- FLT_MAX)%float);
    destruct (bound_ne_int (ConfigOptionDef.max opt_def) INT_MAX
              && bound_ne_float (ConfigOptionDef.max opt_def) FLT_MAX);
    cbn [app str_from]; eexists; rewrite ?append_assoc_s; reflexivity.
Qed.

(** C7.  When the registry has a definition for the key, the stream of
    [serialize_value] gets the literal that opens [min] exactly when the
    definition's [min] passes both tests against the sentinels, [!= INT_MIN]
    and [!= -FLT_MAX], and that literal is then followed by that [min]; the
    same for [max] with [INT_MAX] and [FLT_MAX].  No other bound value is
    written, so a value that equals a sentinel is never written.  The payload
    is the text of that stream, and the same holds of it as a text: when a
    bound passes the tests the payload holds its literal followed by its
    rendering at precision 6, and, numbers being rendered without double
    quotes, the payload holds the literal of a bound only then. *)
Theorem meta_bounds_omit_sentinels (opt_key : string) (value : boost_any)
    (opt_def : ConfigOptionDef.t) :
  print_config_def_get opt_key = Some opt_def ->
  let out := serialize_value_stream opt_key value in
  let min_bounded := bound_ne_int (ConfigOptionDef.min opt_def) INT_MIN
                     && bound_ne_float (ConfigOptionDef.min opt_def) (- FLT_MAX)%float in
  let max_bounded := bound_ne_int (ConfigOptionDef.max opt_def) INT_MAX
                     && bound_ne_float (ConfigOptionDef.max opt_def) FLT_MAX in
  has_literal min_literal out = min_bounded
  /\ has_literal max_literal out = max_bounded
  /\ (min_bounded = true ->
      after_literal min_literal out = Some (num (ConfigOptionDef.min opt_def)))
  /\ (max_bounded = true ->
      after_literal max_literal out = Some (num (ConfigOptionDef.max opt_def)))
  /\ bounds_written out
     = (if min_bounded then [ConfigOptionDef.min opt_def] else [])
       ++ (if max_bounded then [ConfigOptionDef.max opt_def] else [])
  /\ serialize_value opt_key value = str_of out
  /\ (min_bounded = true ->
      occurs (min_literal +:+ show_bound 6 (ConfigOptionDef.min opt_def))
             (serialize_value opt_key value))
  /\ (max_bounded = true ->
      occurs (max_literal +:+ show_bound 6 (ConfigOptionDef.max opt_def))
             (serialize_value opt_key value))
  /\ (plain_numbers ->
      (occurs min_literal (serialize_value opt_key value) <-> min_bounded = true)
      /\ (occurs max_literal (serialize_value opt_key value) <-> max_bounded = true)).
Proof.
  intros Hdef out min_bounded max_bounded.
  assert (Htext :
    (min_bounded = true ->
     occurs (min_literal +:+ show_bound 6 (ConfigOptionDef.min opt_def))
            (serialize_value opt_key value))
    /\ (max_bounded = true ->
        occurs (max_literal +:+ show_bound 6 (ConfigOptionDef.max opt_def))
               (serialize_value opt_key value))).
  { destruct (payload_around_bounds opt_key value opt_def Hdef) as (head & tail & Heq).
    fold min_bounded max_bounded in Heq. split.
    - intros Hb. rewrite Hb in Heq. rewrite Heq. eexists head, _. reflexivity.
    - intros Hb. rewrite Hb in Heq. rewrite Heq.
      exists (head +:+ (if min_bounded
                        then min_literal +:+ show_bound 6 (ConfigOptionDef.min opt_def)
                        else EmptyString)), tail.
      now rewrite !append_assoc_s. }
  assert (Honly : plain_numbers ->
    (occurs min_literal (serialize_value opt_key value) <-> min_bounded = true)
    /\ (occurs max_literal (serialize_value opt_key value) <-> max_bounded = true)).
  { intros Hplain. destruct Htext as [Htmin Htmax]. split; split.
    - intros Hocc. destruct min_bounded eqn:Hb; [reflexivity|]. exfalso.
      apply (payload_without_bound min_literal opt_key value opt_def Hdef);
        [now left|assumption|intros _; exact Hb|intros Hx; discriminate Hx|assumption].
    - intros Hb. destruct (Htmin Hb) as (a & b & Heq).
      exists a, (show_bound 6 (ConfigOptionDef.min opt_def) +:+ b).
      now rewrite Heq, !append_assoc_s.
    - intros Hocc. destruct max_bounded eqn:Hb; [reflexivity|]. exfalso.
      apply (payload_without_bound max_literal opt_key value opt_def Hdef);
        [now right|assumption|intros Hx; discriminate Hx|intros _; exact Hb|assumption].
    - intros Hb. destruct (Htmax Hb) as (a & b & Heq).
      exists a, (show_bound 6 (ConfigOptionDef.max opt_def) +:+ b).
      now rewrite Heq, !append_assoc_s. }
  destruct Htext as [Htmin Htmax].
  cut (has_literal min_literal out = min_bounded
       /\ has_literal max_literal out = max_bounded
       /\ (min_bounded = true ->
           after_literal min_literal out = Some (num (ConfigOptionDef.min opt_def)))
       /\ (max_bounded = true ->
           after_literal max_literal out = Some (num (ConfigOptionDef.max opt_def)))
       /\ bounds_written out
          = (if min_bounded then [ConfigOptionDef.min opt_def] else [])
            ++ (if max_bounded then [ConfigOptionDef.max opt_def] else [])).
  { intros (H1 & H2 & H3 & H4 & H5). repeat (split; [assumption|]).
    split; [reflexivity|]. repeat (split; [assumption|]). exact Honly. }
  clear Htmin Htmax Honly. subst out.
  unfold serialize_value_stream. rewrite Hdef.
  destruct (serialize_meta_split opt_def)
    as (before & after & -> & Hbefore & Hafter & Hwb & Hwa).
  fold min_bounded max_bounded.
  assert (Hmin : bound_literal min_literal) by now left.
  assert (Hmax : bound_literal max_literal) by now right.
  split; [|split; [|split; [|split]]].
  - rewrite !has_literal_app, has_literal_serialize_any, Hbefore, Hafter by assumption.
    destruct min_bounded, max_bounded; reflexivity.
  - rewrite !has_literal_app, has_literal_serialize_any, Hbefore, Hafter by assumption.
    destruct min_bounded, max_bounded; reflexivity.
  - intros ->.
    rewrite after_literal_app by reflexivity.
    rewrite after_literal_app by now apply has_literal_serialize_any.
    rewrite <- !app_assoc.
    rewrite after_literal_app by now apply Hbefore.
    reflexivity.
  - intros ->.
    rewrite after_literal_app by reflexivity.
    rewrite after_literal_app by now apply has_literal_serialize_any.
    rewrite <- !app_assoc.
    rewrite after_literal_app by now apply Hbefore.
    rewrite after_literal_app by now destruct min_bounded.
    reflexivity.
  - rewrite !bounds_written_app, bounds_written_serialize_any, Hwb, Hwa.
    destruct min_bounded, max_bounded; reflexivity.
Qed.

End Envelope.

Section EnvelopeExample.

Import Fixtures.

Lemma platform_plain_numbers : plain_numbers.
Proof.
  split; intros prec x; cbn [show_double show_bound platform]; unfold show_known;
    repeat match goal with |- context [if ?b then _ else _] => destruct b end;
    vm_compute; intuition discriminate.
Qed.

Lemma meta_bounds_omit_sentinels_witness :
  let out := MqttConfigPublisher.serialize_value_stream "layer_height" (any_double 0.2) in
  let payload := MqttConfigPublisher.serialize_value "layer_height" (any_double 0.2) in
  has_literal MqttConfigPublisher.min_literal out = true
  /\ has_literal MqttConfigPublisher.max_literal out = false
  /\ after_literal MqttConfigPublisher.min_literal out = Some (num 0%float)
  /\ MqttConfigPublisher.bounds_written out = [0%float]
  /\ occurs (MqttConfigPublisher.min_literal +:+ "0") payload
  /\ ~ occurs MqttConfigPublisher.max_literal payload.
Proof.
  intros out payload.
  assert (Hdef : print_config_def_get "layer_height" = Some layer_height_def) by reflexivity.
  destruct (meta_bounds_omit_sentinels "layer_height" (any_double 0.2) layer_height_def Hdef)
    as (Hmin & Hmax & Hafter & _ & Hwritten & _ & Htext & _ & Honly).
  split; [exact Hmin|]. split; [exact Hmax|]. split; [apply Hafter; reflexivity|].
  split; [exact Hwritten|]. split; [apply Htext; reflexivity|].
  intros Hocc. apply (proj2 (Honly platform_plain_numbers)) in Hocc. discriminate Hocc.
Defined.

End EnvelopeExample.

(** ** The MQTT publisher: per-extruder options of a printer preset *)

Section Printer.

Context `{Platform} `{Mosquitto}.

Import MqttConfigPublisher.

Implicit Types (p : t) (opt : ConfigOption) (opt_key : string).

Lemma extruder_value_lookup opt (ext_idx : nat) :
  extruder_value opt ext_idx = extruder_values opt !! ext_idx.
Proof.
  destruct opt; cbn [extruder_value extruder_values];
    rewrite ?list_lookup_fmap; reflexivity.
Qed.

Lemma length_extruder_values opt :
  supported_vector opt = true -> length (extruder_values opt) = vector_size opt.
Proof.
  destruct opt; cbn [supported_vector extruder_values vector_size];
    intros Hs; try discriminate; apply length_fmap.
Qed.

Lemma supported_is_vector opt : supported_vector opt = true -> is_vector opt = true.
Proof. destruct opt; cbn; congruence. Qed.

Lemma extends_publish_extruder_value p opt_key opt (g : string) (ext_idx : nat) :
  extends (publish_extruder_value p opt_key opt g ext_idx).
Proof.
  unfold publish_extruder_value. destruct (extruder_value opt ext_idx).
  - apply extends_bind; [apply extends_publish|intros; apply extends_ret].
  - apply extends_ret.
Qed.

Lemma extends_publish_printer_option p (c : DynamicPrintConfig.t) (n : nat) opt_key :
  extends (publish_printer_option p c n opt_key).
Proof.
  unfold publish_printer_option.
  destruct (DynamicPrintConfig.option_ c opt_key) as [opt|]; [|apply extends_ret].
  destruct (_ && _).
  - apply extends_for_each. intros. apply extends_publish_extruder_value.
  - destruct (scalar_value opt); [|apply extends_ret].
    apply extends_bind; [apply extends_publish|intros; apply extends_ret].
Qed.

Lemma calls_of_publish_extruder_value p (h : nat) opt_key opt (g : string) (ext_idx : nat) w :
  m_mosq p = Some h -> m_connected p = true ->
  calls_of (publish_extruder_value p opt_key opt g ext_idx) w
  = match extruder_values opt !! ext_idx with
    | Some value => [extruder_call p opt_key g ext_idx value]
    | None => []
    end.
Proof.
  intros Hm Hc. unfold publish_extruder_value. rewrite extruder_value_lookup.
  destruct (extruder_values opt !! ext_idx) as [value|]; [|apply calls_of_ret].
  rewrite calls_of_bind; [|apply extends_publish|intros; apply extends_ret].
  rewrite (calls_of_publish_connected p h _ _ _ Hm Hc).
  now rewrite calls_of_ret, app_nil_r.
Qed.

(** The [for (ext_idx ...)] loop from index [a], for [n] rounds. *)
Lemma calls_of_extruder_loop p (h : nat) opt_key opt (g : string) (n a : nat) w :
  m_mosq p = Some h -> m_connected p = true ->
  calls_of (for_each (seq a n) (publish_extruder_value p opt_key opt g)) w
  = imap (fun i => extruder_call p opt_key g (a + i)) (take n (drop a (extruder_values opt))).
Proof.
  intros Hm Hc. revert a w. induction n as [|n IH]; intros a w.
  - cbn [seq for_each]. now rewrite calls_of_ret.
  - cbn [seq].
    rewrite calls_of_for_each_cons by (intros; apply extends_publish_extruder_value).
    rewrite (calls_of_publish_extruder_value p h) by assumption.
    rewrite IH.
    destruct (extruder_values opt !! a) as [value|] eqn:Ha.
    + rewrite (drop_S _ _ _ Ha). cbn [take imap app]. rewrite Nat.add_0_r.
      f_equal. apply imap_ext. intros i x _. cbn. now rewrite Nat.add_succ_r.
    + apply lookup_ge_None_1 in Ha.
      rewrite (drop_ge _ a) by assumption.
      rewrite (drop_ge _ (S a)) by (now apply Nat.le_le_succ_r).
      now rewrite !take_nil.
Qed.

Lemma option_at (before after : DynamicPrintConfig.t) opt_key opt :
  NoDup (DynamicPrintConfig.keys (before ++ (opt_key, opt) :: after)) ->
  DynamicPrintConfig.option_ (before ++ (opt_key, opt) :: after) opt_key = Some opt.
Proof.
  unfold DynamicPrintConfig.keys. rewrite map_app. cbn [map fst].
  intros Hnd. apply NoDup_app in Hnd as (_ & Hnotin & _).
  induction before as [|[k o] before IH]; cbn [app DynamicPrintConfig.option_].
  - now rewrite String.eqb_refl.
  - destruct (String.eqb_spec k opt_key) as [->|Hne].
    + exfalso. apply (Hnotin opt_key); [|]; cbn [map fst]; constructor.
    + apply IH. intros x Hx. apply Hnotin. cbn [map fst]. now constructor.
Qed.

Lemma append_inj_l (a b c : string) : a +:+ b = a +:+ c -> b = c.
Proof.
  induction a as [|ch a IH]; cbn [String.append]; [trivial|].
  intros Heq. injection Heq as Heq. now apply IH.
Qed.

(** No extruder topic is the topic of the other branch. *)
Lemma extruder_topic_not_printer_topic (ext_idx : nat) (g opt_key : string) :
  extruder_topic ext_idx g opt_key <> "config/printer/" +:+ get_printer_topic opt_key.
Proof.
  unfold extruder_topic, get_printer_topic.
  repeat (match goal with |- context [if ?b then _ else _] => destruct b end);
    cbn [String.append]; discriminate.
Qed.

Lemma calls_of_publish_printer_option_extruder p (h : nat) (c : DynamicPrintConfig.t)
    (n : nat) opt_key opt w :
  m_mosq p = Some h -> m_connected p = true ->
  DynamicPrintConfig.option_ c opt_key = Some opt ->
  get_extruder_topic_group opt_key <> EmptyString ->
  supported_vector opt = true ->
  calls_of (publish_printer_option p c n opt_key) w
  = imap (extruder_call p opt_key (get_extruder_topic_group opt_key))
         (take n (extruder_values opt)).
Proof.
  intros Hm Hc Hopt Hg Hs. unfold publish_printer_option. rewrite Hopt.
  destruct (String.eqb_spec (get_extruder_topic_group opt_key) EmptyString) as [He|_];
    [contradiction|].
  rewrite (supported_is_vector opt Hs). cbn [negb andb].
  rewrite (calls_of_extruder_loop p h) by assumption.
  now rewrite drop_0.
Qed.

Lemma extruder_topic_not_printer_c_str (ext_idx : nat) (g opt_key : string) :
  c_str (extruder_topic ext_idx g opt_key)
  <> c_str ("config/printer/" +:+ get_printer_topic opt_key).
Proof.
  unfold extruder_topic, get_printer_topic.
  repeat (match goal with |- context [if ?b then _ else _] => destruct b end);
    vm_compute; discriminate.
Qed.

Lemma calls_of_publish_printer_option_off p (c : DynamicPrintConfig.t) (n : nat) opt_key w :
  m_mosq p = None \/ m_connected p = false ->
  calls_of (publish_printer_option p c n opt_key) w = [].
Proof.
  intros Hoff. unfold publish_printer_option.
  destruct (DynamicPrintConfig.option_ c opt_key) as [opt|]; [|apply calls_of_ret].
  destruct (_ && _).
  - rewrite (calls_of_for_each_flat _ _ (fun _ => [])).
    + apply flat_map_nil.
    + intros. apply extends_publish_extruder_value.
    + intros i w' _. unfold publish_extruder_value.
      destruct (extruder_value opt i); [|apply calls_of_ret].
      rewrite calls_of_bind; [|apply extends_publish|intros; apply extends_ret].
      rewrite calls_of_publish_not_connected by assumption. apply calls_of_ret.
  - destruct (scalar_value opt); [|apply calls_of_ret].
    rewrite calls_of_bind; [|apply extends_publish|intros; apply extends_ret].
    rewrite calls_of_publish_not_connected by assumption. apply calls_of_ret.
Qed.

Lemma calls_of_publish_printer_config_off p (c : DynamicPrintConfig.t)
    (preset_name : string) w :
  m_mosq p = None \/ m_connected p = false ->
  calls_of (publish_printer_config p c preset_name) w = [].
Proof.
  intros Hoff. unfold publish_printer_config.
  destruct (negb (m_connected p)); [apply calls_of_ret|].
  rewrite calls_of_bind;
    [|apply extends_publish
     |intros; apply extends_for_each; intros; apply extends_publish_printer_option].
  rewrite calls_of_publish_not_connected by assumption. cbn [app].
  rewrite (calls_of_for_each_flat _ _ (fun _ => [])).
  - apply flat_map_nil.
  - intros. apply extends_publish_printer_option.
  - intros k w' _. now apply calls_of_publish_printer_option_off.
Qed.

(** C2, as the code has it.  Take a connected publisher and a key of one of
    the per-extruder groups whose option is a vector of floats, percents,
    ints, bools, strings or points.  With [N] the extruder count (the length
    of [nozzle_diameter] when the preset has it as a vector of floats, 1 when
    it has not) and [L] the length of the option, the round of
    [publish_printer_config] for that key makes [min N L] calls, the one of
    index [i] for the value of extruder [i] on
    [config/printer/extruder/i/group/key] under the prefix; the whole run
    makes these calls between those of the keys before and those of the keys
    after, and, the prefix holding no NUL byte, none of them is on the topic
    of the other, aggregated branch.  A publisher without a client or with
    its flag down publishes nothing, whatever the config. *)
Theorem per_extruder_publishes p (h : nat) (before after : DynamicPrintConfig.t)
    opt_key opt (preset_name : string) w :
  let printer_config := before ++ (opt_key, opt) :: after in
  let g := get_extruder_topic_group opt_key in
  let N := num_extruders_of printer_config in
  let body := publish_printer_option p printer_config N in
  let K := imap (extruder_call p opt_key g) (take N (extruder_values opt)) in
  let pre := calls_of (publish p "config/printer/preset_name"
                               (preset_name_payload preset_name) true ;;
                       for_each (DynamicPrintConfig.keys before) body) w in
  m_mosq p = Some h -> m_connected p = true ->
  NoDup (DynamicPrintConfig.keys printer_config) ->
  g <> EmptyString -> supported_vector opt = true ->
  length K = Nat.min N (vector_size opt)
  /\ (forall i c, K !! i = Some c ->
        exists value, extruder_value opt i = Some value
          /\ c = retained_call p
                   ("config/printer/extruder/" +:+ to_string i +:+ "/" +:+ g +:+ "/" +:+ opt_key)
                   (serialize_value opt_key value))
  /\ (forall w', calls_of (body opt_key) w' = K)
  /\ calls_of (publish_printer_config p printer_config preset_name) w
     = pre ++ K
       ++ calls_of (for_each (DynamicPrintConfig.keys after) body) (w ++ pre ++ K)
  /\ (~ In "000"%char (chars (m_topic_prefix p)) ->
      forall c, In c K ->
        topic c
        <> c_str (m_topic_prefix p +:+ "config/printer/" +:+ get_printer_topic opt_key))
  /\ (forall values,
        DynamicPrintConfig.option_floats printer_config "nozzle_diameter" = Some values ->
        N = length values)
  /\ (DynamicPrintConfig.option_floats printer_config "nozzle_diameter" = None -> N = 1)
  /\ (forall q (any_config : DynamicPrintConfig.t) (any_name : string) w',
        m_mosq q = None \/ m_connected q = false ->
        calls_of (publish_printer_config q any_config any_name) w' = []).
Proof.
  intros printer_config g N body K pre Hm Hc Hnd Hg Hs.
  assert (Hopt : DynamicPrintConfig.option_ printer_config opt_key = Some opt)
    by now apply option_at.
  assert (Hbody : forall w', calls_of (body opt_key) w' = K).
  { intros w'. now apply (calls_of_publish_printer_option_extruder p h). }
  assert (Hext : forall x, extends (body x))
    by (intros; apply extends_publish_printer_option).
  assert (HK : forall i c, K !! i = Some c ->
            exists value, extruder_values opt !! i = Some value
              /\ c = extruder_call p opt_key g i value).
  { intros i c Hi. subst K. rewrite list_lookup_imap in Hi.
    destruct (take N (extruder_values opt) !! i) as [value|] eqn:Hv; [|discriminate].
    injection Hi as <-. exists value. split; [|reflexivity].
    apply lookup_take_Some in Hv. tauto. }
  split; [|split; [|split; [|split; [|split; [|split; [|split]]]]]].
  - subst K. now rewrite length_imap, length_take, length_extruder_values.
  - intros i c Hi. destruct (HK i c Hi) as (value & Hv & ->).
    exists value. now rewrite extruder_value_lookup.
  - exact Hbody.
  - unfold publish_printer_config. rewrite Hc. cbn [negb].
    fold N. fold body. subst pre.
    rewrite !calls_of_bind;
      try apply extends_publish; try (intros; now apply extends_for_each).
    unfold printer_config, DynamicPrintConfig.keys at 1.
    rewrite map_app. cbn [map fst]. fold (DynamicPrintConfig.keys before).
    fold (DynamicPrintConfig.keys after).
    rewrite calls_of_for_each_app, calls_of_for_each_cons by assumption.
    rewrite !Hbody. now rewrite <- !app_assoc.
  - intros Hprefix c Hin. apply list_elem_of_In, list_elem_of_lookup in Hin as [i Hi].
    destruct (HK i c Hi) as (value & _ & ->).
    cbn [extruder_call retained_call topic]. rewrite !c_str_app by assumption.
    intros Heq. apply append_inj_l in Heq.
    now apply extruder_topic_not_printer_c_str in Heq.
  - intros values Hv. subst N. unfold num_extruders_of. now rewrite Hv.
  - intros Hv. subst N. unfold num_extruders_of. now rewrite Hv.
  - intros q any_config any_name w' Hoff. now apply calls_of_publish_printer_config_off.
Qed.

End Printer.

Section PrinterExample.

Import Fixtures MqttConfigPublisher.

Lemma per_extruder_publishes_witness :
  let p := connected_publisher in
  calls_of (publish_printer_option p two_extruders 2 "retraction_length") []
  = [extruder_call p "retraction_length" "retraction" 0 (any_double 1.0);
     extruder_call p "retraction_length" "retraction" 1 (any_double 1.5)]
  /\ num_extruders_of two_extruders = 2
  /\ calls_of (publish_printer_config (on_disconnect_callback p) two_extruders "P1") [] = []
  /\ num_extruders_of [("retraction_length", ConfigOptionFloats [1.0; 1.5]%float)] = 1.
Proof.
  intros p.
  assert (Hnd : NoDup (DynamicPrintConfig.keys two_extruders))
    by (refine (bool_decide_unpack _ _); vm_compute; exact I).
  assert (Hg : get_extruder_topic_group "retraction_length" <> EmptyString)
    by (vm_compute; discriminate).
  destruct (per_extruder_publishes p 1
              [("nozzle_diameter", ConfigOptionFloats [0.4; 0.6]%float)]
              [("z_hop_types", ConfigOptionOther true 2)]
              "retraction_length" (ConfigOptionFloats [1.0; 1.5]%float) "P1" []
              eq_refl eq_refl Hnd Hg eq_refl)
    as (_ & _ & Hround & _ & _ & HN & _ & Hoff).
  assert (Hnd1 : NoDup (DynamicPrintConfig.keys
                          [("retraction_length", ConfigOptionFloats [1.0; 1.5]%float)]))
    by (refine (bool_decide_unpack _ _); vm_compute; exact I).
  destruct (per_extruder_publishes p 1 [] []
              "retraction_length" (ConfigOptionFloats [1.0; 1.5]%float) "P1" []
              eq_refl eq_refl Hnd1 Hg eq_refl)
    as (_ & _ & _ & _ & _ & _ & Hone & _).
  split; [|split; [|split]].
  - etransitivity; [exact (Hround [])|]. vm_compute. reflexivity.
  - apply (HN [0.4; 0.6]%float). reflexivity.
  - apply Hoff. right. reflexivity.
  - apply Hone. reflexivity.
Defined.

(** C2 as stated fails.  [z_hop_types] is in the per-extruder group
    [retraction] and holds a vector of two values, the printer has two
    extruders and the publisher is connected, yet nothing is published for
    the key: its option type has no [case] in the per-extruder [switch].
    And a publisher that is not connected publishes nothing at all. *)
Lemma unsupported_vector_not_published :
  let p := connected_publisher in
  get_extruder_topic_group "z_hop_types" = "retraction"
  /\ DynamicPrintConfig.option_ two_extruders "z_hop_types" = Some (ConfigOptionOther true 2)
  /\ is_vector (ConfigOptionOther true 2) = true
  /\ Nat.min (num_extruders_of two_extruders) (vector_size (ConfigOptionOther true 2)) = 2
  /\ calls_of (publish_printer_option p two_extruders 2 "z_hop_types") [] = []
  /\ map topic (calls_of (publish_printer_config p two_extruders "P1") [])
     = ["slicer/config/printer/preset_name";
        "slicer/config/printer/extruder/0/basic_information/nozzle_diameter";
        "slicer/config/printer/extruder/1/basic_information/nozzle_diameter";
        "slicer/config/printer/extruder/0/retraction/retraction_length";
        "slicer/config/printer/extruder/1/retraction/retraction_length"]
  /\ calls_of (publish_printer_config (on_disconnect_callback p) two_extruders "P1") [] = [].
Proof.
  intros p. repeat split; vm_compute; reflexivity.
Qed.

End PrinterExample.

(** ** The HTTP control facade *)

Section Http.

Context `{BackgroundSlicingProcess} `{PrintBase.Defaults}.

Import HttpSlicerApi.

Implicit Types (api : t) (res : Response).

Lemma after_events_keeps_status (cs : list ISlicingEventSink.call) api :
  Forall (fun c => forall s, c <> ISlicingEventSink.on_slicing_update s) cs ->
  m_last_status (after_events cs api) = m_last_status api.
Proof.
  revert api. induction cs as [|c cs IH]; intros api Hcs; [reflexivity|].
  inversion Hcs as [|? ? Hc Hrest]; subst. cbn [after_events fold_left].
  fold (after_events cs (HttpEventSink_receive c api)). rewrite IH by assumption.
  destruct c; try reflexivity. now contradiction (Hc status0).
Qed.

Lemma after_events_app (cs1 cs2 : list ISlicingEventSink.call) api :
  after_events (cs1 ++ cs2) api = after_events cs2 (after_events cs1 api).
Proof. apply fold_left_app. Qed.

(** C8, as the code has it.  [GET /api/status] answers with the cached
    status, which is the one of the latest [on_slicing_update] the sink
    received, plus the [completed] object when the flag is set.  When a
    process is configured, [POST /api/reset] leaves the flag false and the
    cached status [(0, empty)], so the next [GET /api/status] reports percent
    0 and no [completed] object.  Without a process it answers 500 and the
    cache stays as it was. *)
Theorem status_cache_and_reset api res (s : PrintBase.SlicingStatus)
    (earlier later : list ISlicingEventSink.call) :
  Forall (fun c => forall s', c <> ISlicingEventSink.on_slicing_update s') later ->
  let seen := after_events (earlier ++ ISlicingEventSink.on_slicing_update s :: later) api in
  body (get_api_status api res)
  = status_to_json (m_last_status api) (m_has_completed api) (m_last_completed api)
  /\ m_last_status seen = s
  /\ body (get_api_status seen res)
     = status_to_json s (m_has_completed seen) (m_last_completed seen)
  /\ (forall proc, m_process api = Some proc ->
        let api' := fst (post_api_reset api res) in
        m_has_completed api' = false
        /\ PrintBase.percent (m_last_status api') = 0%Z
        /\ body (get_api_status api' res)
           = "{" +:+ quoted "percent" +:+ ":0,"
             +:+ quoted "message" +:+ ":" +:+ dq +:+ dq +:+ ","
             +:+ quoted "flags" +:+ ":" +:+ show_int PrintBase.default_flags +:+ ","
             +:+ quoted "warning_step" +:+ ":" +:+ show_int PrintBase.default_warning_step
             +:+ "}")
  /\ (m_process api = None -> post_api_reset api res = (api, no_process res)).
Proof.
  intros Hlater seen.
  assert (Hseen : m_last_status seen = s).
  { subst seen. rewrite after_events_app. cbn [after_events fold_left].
    fold (after_events later
            (HttpEventSink_receive (ISlicingEventSink.on_slicing_update s)
               (after_events earlier api))).
    now rewrite after_events_keeps_status. }
  split; [reflexivity|]. split; [exact Hseen|]. split; [|split].
  - unfold get_api_status. cbn [body set_content]. now rewrite Hseen.
  - intros proc Hproc api'. subst api'. unfold post_api_reset. rewrite Hproc.
    cbn. repeat split.
  - intros Hnone. unfold post_api_reset. now rewrite Hnone.
Qed.

(** C9, as the code has it.  With a process configured, [POST /api/start]
    calls its [start()].  If that returns true the completion flag is cleared
    and the answer keeps its status; if it returns false the answer has status
    400 and the flag stays as it was.  The cached status is untouched either
    way.  Without a process the answer has status 500 and nothing changes. *)
Theorem start_clears_completion_when_started api res :
  (forall proc, m_process api = Some proc ->
     let r := post_api_start api res in
     m_process (fst r) = Some (snd (start proc))
     /\ m_last_status (fst r) = m_last_status api
     /\ (fst (start proc) = true ->
         m_has_completed (fst r) = false /\ status (snd r) = status res)
     /\ (fst (start proc) = false ->
         m_has_completed (fst r) = m_has_completed api /\ status (snd r) = 400%Z))
  /\ (m_process api = None ->
      post_api_start api res = (api, no_process res) /\ status (no_process res) = 500%Z).
Proof.
  split.
  - intros proc Hproc r. subst r. unfold post_api_start. rewrite Hproc.
    destruct (start proc) as [[] proc']; cbn; repeat split; intros; discriminate.
  - intros Hnone. unfold post_api_start. now rewrite Hnone.
Qed.

End Http.

Section HttpExample.

Import Fixtures HttpSlicerApi.

Lemma status_cache_and_reset_witness :
  let s := {| PrintBase.percent := 50; PrintBase.text := "slicing";
              PrintBase.flags := 0; PrintBase.warning_step := 0 |} in
  let seen := after_events [ISlicingEventSink.on_slicing_update s;
                            ISlicingEventSink.on_slicing_completed 7] (create (Some Idle)) in
  PrintBase.percent (m_last_status seen) = 50%Z
  /\ body (get_api_status (fst (post_api_reset (half_way (Some Running)) blank)) blank)
     = "{" +:+ quoted "percent" +:+ ":0," +:+ quoted "message" +:+ ":" +:+ dq +:+ dq +:+ ","
       +:+ quoted "flags" +:+ ":0," +:+ quoted "warning_step" +:+ ":-1}".
Proof.
  intros s seen.
  assert (Hlater : Forall (fun c => forall s', c <> ISlicingEventSink.on_slicing_update s')
                          [ISlicingEventSink.on_slicing_completed 7])
    by (repeat constructor; discriminate).
  destruct (@status_cache_and_reset simple_process defaults
              (@create simple_process defaults (Some Idle)) blank s [] _ Hlater)
    as (_ & Hseen & _).
  destruct (@status_cache_and_reset simple_process defaults
              (half_way (Some Running)) blank s [] _ Hlater)
    as (_ & _ & _ & Hreset & _).
  split.
  - change (PrintBase.percent (m_last_status seen) = PrintBase.percent s).
    now rewrite <- Hseen.
  - apply (Hreset Running eq_refl).
Defined.

(** C8 as stated fails: without a process, [POST /api/reset] answers 500 and
    the cache keeps the completion flag and the percentage. *)
Lemma reset_without_process_keeps_cache :
  let r := post_api_reset (half_way None) blank in
  status (snd r) = 500%Z
  /\ m_has_completed (fst r) = true
  /\ PrintBase.percent (m_last_status (fst r)) = 50%Z
  /\ body (get_api_status (fst r) blank)
     = "{" +:+ quoted "percent" +:+ ":50," +:+ quoted "message" +:+ ":" +:+ quoted "slicing"
       +:+ "," +:+ quoted "flags" +:+ ":0," +:+ quoted "warning_step" +:+ ":0,"
       +:+ quoted "completed" +:+ ":{" +:+ quoted "status" +:+ ":" +:+ quoted "finished" +:+ "}}".
Proof. repeat split. Qed.

Lemma start_clears_completion_when_started_witness :
  m_has_completed (fst (post_api_start (half_way (Some Idle)) blank)) = false
  /\ status (snd (post_api_start (half_way (Some Running)) blank)) = 400%Z
  /\ status (snd (post_api_start (half_way None) blank)) = 500%Z.
Proof.
  destruct (@start_clears_completion_when_started simple_process
              (half_way (Some Idle)) blank) as [Hidle _].
  destruct (@start_clears_completion_when_started simple_process
              (half_way (Some Running)) blank) as [Hrunning _].
  destruct (@start_clears_completion_when_started simple_process
              (half_way None) blank) as [_ Hnone].
  split; [|split].
  - apply (Hidle Idle eq_refl). reflexivity.
  - apply (Hrunning Running eq_refl). reflexivity.
  - destruct (Hnone eq_refl) as [-> Hstatus]. exact Hstatus.
Defined.

(** C9 as stated fails: when the process declines, the answer is 400 but the
    completion flag is not cleared. *)
Lemma declined_start_keeps_completion :
  let r := post_api_start (half_way (Some Running)) blank in
  fst (start Running) = false
  /\ status (snd r) = 400%Z
  /\ m_has_completed (fst r) = true.
Proof. repeat split. Qed.

End HttpExample.

(** * Further properties *)

(** ** JSON escaping *)

Section Escaping.

(** What [json_escape] of MqttConfigPublisher.cpp makes of one character: a
    backslash pair for the seven characters it knows, the character itself
    for any other. *)
Lemma json_escape_char_cases (c : ascii) :
  (c = dquote_char /\ json_escape_char c = String "\" (String dquote_char EmptyString))
  \/ (c = "\"%char /\ json_escape_char c = "\\")
  \/ (c = "008"%char /\ json_escape_char c = "\b")
  \/ (c = "012"%char /\ json_escape_char c = "\f")
  \/ (c = "010"%char /\ json_escape_char c = "\n")
  \/ (c = "013"%char /\ json_escape_char c = "\r")
  \/ (c = "009"%char /\ json_escape_char c = "\t")
  \/ (c <> dquote_char /\ c <> "\"%char /\ c <> "008"%char /\ c <> "012"%char
      /\ c <> "010"%char /\ c <> "013"%char /\ c <> "009"%char
      /\ json_escape_char c = String c EmptyString).
Proof.
  unfold json_escape_char.
  destruct (Ascii.eqb_spec c "034") as [->|H1]; [left; split; reflexivity|].
  destruct (Ascii.eqb_spec c "\") as [->|H2]; [right; left; split; reflexivity|].
  destruct (Ascii.eqb_spec c "008") as [->|H3]; [do 2 right; left; split; reflexivity|].
  destruct (Ascii.eqb_spec c "012") as [->|H4]; [do 3 right; left; split; reflexivity|].
  destruct (Ascii.eqb_spec c "010") as [->|H5]; [do 4 right; left; split; reflexivity|].
  destruct (Ascii.eqb_spec c "013") as [->|H6]; [do 5 right; left; split; reflexivity|].
  destruct (Ascii.eqb_spec c "009") as [->|H7]; [do 6 right; left; split; reflexivity|].
  do 7 right. repeat split; assumption.
Qed.

(** The same for [json_escape] of HttpSlicerApi.cpp, which knows five. *)
Lemma http_json_escape_char_cases (c : ascii) :
  (c = dquote_char
   /\ HttpSlicerApi.json_escape_char c = String "\" (String dquote_char EmptyString))
  \/ (c = "\"%char /\ HttpSlicerApi.json_escape_char c = "\\")
  \/ (c = "010"%char /\ HttpSlicerApi.json_escape_char c = "\n")
  \/ (c = "013"%char /\ HttpSlicerApi.json_escape_char c = "\r")
  \/ (c = "009"%char /\ HttpSlicerApi.json_escape_char c = "\t")
  \/ (c <> dquote_char /\ c <> "\"%char
      /\ c <> "010"%char /\ c <> "013"%char /\ c <> "009"%char
      /\ HttpSlicerApi.json_escape_char c = String c EmptyString).
Proof.
  unfold HttpSlicerApi.json_escape_char.
  destruct (Ascii.eqb_spec c "034") as [->|H1]; [left; split; reflexivity|].
  destruct (Ascii.eqb_spec c "\") as [->|H2]; [right; left; split; reflexivity|].
  destruct (Ascii.eqb_spec c "010") as [->|H5]; [do 2 right; left; split; reflexivity|].
  destruct (Ascii.eqb_spec c "013") as [->|H6]; [do 3 right; left; split; reflexivity|].
  destruct (Ascii.eqb_spec c "009") as [->|H7]; [do 4 right; left; split; reflexivity|].
  do 5 right. repeat split; assumption.
Qed.

Ltac escape_cases c H :=
  let E := fresh "Ec" in
  let N1 := fresh "Nq" in let N2 := fresh "Nb" in let N3 := fresh "Nc" in
  let N4 := fresh "Nd" in let N5 := fresh "Ne" in let N6 := fresh "Nf" in
  let N7 := fresh "Ng" in
  destruct (json_escape_char_cases c)
    as [[E H]|[[E H]|[[E H]|[[E H]|[[E H]|[[E H]|[[E H]
       |(N1&N2&N3&N4&N5&N6&N7&H)]]]]]]].

Ltac http_escape_cases c H :=
  let E := fresh "Ec" in
  let N1 := fresh "Nq" in let N2 := fresh "Nb" in let N3 := fresh "Nc" in
  let N4 := fresh "Nd" in let N5 := fresh "Ne" in
  destruct (http_json_escape_char_cases c)
    as [[E H]|[[E H]|[[E H]|[[E H]|[[E H]|(N1&N2&N3&N4&N5&H)]]]]].

(** X1.  [json_escape] loses nothing: two strings with the same escaped form
    are the same string. *)
Theorem json_escape_injective (s1 s2 : string) :
  json_escape s1 = json_escape s2 -> s1 = s2.
Proof.
  revert s2. induction s1 as [|c1 s1 IH]; intros [|c2 s2]; cbn [json_escape].
  - reflexivity.
  - escape_cases c2 H2; rewrite H2; discriminate.
  - escape_cases c1 H1; rewrite H1; discriminate.
  - escape_cases c1 H1; escape_cases c2 H2; rewrite H1, H2; cbn [String.append];
      intros Heq; injection Heq; intros; subst;
      try congruence; f_equal; apply IH; assumption.
Qed.

Lemma json_escape_injective_witness :
  json_escape "a" = json_escape "a" /\ ("a" : string) = "a".
Proof.
  split; [reflexivity|]. apply (json_escape_injective "a" "a"). reflexivity.
Defined.

Lemma append_assoc' (a b c : string) : (a +:+ b) +:+ c = a +:+ (b +:+ c).
Proof.
  induction a as [|ch a IH]; [reflexivity|].
  change (String ch ((a +:+ b) +:+ c) = String ch (a +:+ (b +:+ c))). now rewrite IH.
Qed.

Lemma length_append' (a b : string) :
  String.length (a +:+ b) = String.length a + String.length b.
Proof.
  induction a as [|ch a IH]; [reflexivity|].
  change (S (String.length (a +:+ b)) = S (String.length a + String.length b)).
  now rewrite IH.
Qed.

Lemma append_one (a : ascii) (x : string) : String a EmptyString +:+ x = String a x.
Proof. reflexivity. Qed.

Lemma append_two (a b : ascii) (x : string) :
  String a (String b EmptyString) +:+ x = String a (String b x).
Proof. reflexivity. Qed.

Lemma closing_quote_pair (m : ascii) (r : string) :
  closing_quote (String "\" (String m r)) = (fun n => S (S n)) <$> closing_quote r.
Proof. reflexivity. Qed.

Lemma closing_quote_plain (c : ascii) (r : string) :
  c <> dquote_char -> c <> "\"%char ->
  closing_quote (String c r) = S <$> closing_quote r.
Proof.
  intros Hq Hb. cbn [closing_quote].
  rewrite (proj2 (Ascii.eqb_neq c dquote_char)) by assumption.
  now rewrite (proj2 (Ascii.eqb_neq c "\")) by assumption.
Qed.

(** X2.  An escaped string cannot end its JSON string early: in the escaped
    text followed by a double quote, the first double quote that no
    backslash escapes is that one, whatever comes after.  This holds of both
    [json_escape] functions. *)
Theorem json_escape_keeps_string_closed (s rest : string) :
  closing_quote (json_escape s +:+ dq +:+ rest) = Some (String.length (json_escape s))
  /\ closing_quote (HttpSlicerApi.json_escape s +:+ dq +:+ rest)
     = Some (String.length (HttpSlicerApi.json_escape s)).
Proof.
  split.
  - induction s as [|c s IH]; [reflexivity|].
    cbn [json_escape]. rewrite append_assoc', length_append'.
    escape_cases c Hc; rewrite Hc;
      rewrite ?append_two, ?append_one, ?closing_quote_pair,
              ?closing_quote_plain by assumption;
      rewrite IH; reflexivity.
  - induction s as [|c s IH]; [reflexivity|].
    cbn [HttpSlicerApi.json_escape]. rewrite append_assoc', length_append'.
    http_escape_cases c Hc; rewrite Hc;
      rewrite ?append_two, ?append_one, ?closing_quote_pair,
              ?closing_quote_plain by assumption;
      rewrite IH; reflexivity.
Qed.

Lemma json_escape_char_agree (c : ascii) :
  c <> "008"%char -> c <> "012"%char ->
  HttpSlicerApi.json_escape_char c = json_escape_char c.
Proof.
  intros Hb Hf. unfold HttpSlicerApi.json_escape_char, json_escape_char.
  rewrite (proj2 (Ascii.eqb_neq c "008")) by assumption.
  rewrite (proj2 (Ascii.eqb_neq c "012")) by assumption.
  reflexivity.
Qed.

(** X3.  The facade's [json_escape] and the publisher's differ on backspace
    and form feed only, which the facade's passes through raw: the two give
    the same text exactly for the strings that hold neither. *)
Theorem http_json_escape_agrees_without_bs_ff (s : string) :
  HttpSlicerApi.json_escape s = json_escape s
  <-> Forall (fun c => c <> "008"%char /\ c <> "012"%char) (chars s).
Proof.
  unfold chars. induction s as [|c s IH]; cbn [list_ascii_of_string].
  - split; [constructor|reflexivity].
  - cbn [HttpSlicerApi.json_escape json_escape]. split.
    + intros Heq.
      destruct (Ascii.eqb_spec c "008") as [->|Hb]; [discriminate Heq|].
      destruct (Ascii.eqb_spec c "012") as [->|Hf]; [discriminate Heq|].
      rewrite json_escape_char_agree in Heq by assumption.
      apply append_inj_l in Heq. constructor; [now split|]. now apply IH.
    + intros Hall. inversion Hall as [|? ? [Hb Hf] Hrest]; subst.
      rewrite json_escape_char_agree by assumption.
      f_equal. now apply IH.
Qed.

End Escaping.

(** ** The slicing event dispatcher, continued *)

Section DispatcherMore.

Import SlicingEventDispatcher.

Implicit Types (d : t) (s : nat) (c : ISlicingEventSink.call) (sink : SlicingEventSinkPtr).

Lemma erase_remove_length sink (l : list SlicingEventSinkPtr) :
  length (erase_remove sink l)
  + length (List.filter (fun p => bool_decide (p = sink)) l)
  = length l.
Proof.
  induction l as [|y l IH]; [reflexivity|].
  cbn [erase_remove List.filter]. destruct (decide (y = sink)) as [->|Hne].
  - rewrite bool_decide_eq_true_2 by reflexivity. cbn [length].
    rewrite Nat.add_succ_r. exact (f_equal S IH).
  - rewrite bool_decide_eq_false_2 by assumption. cbn [length].
    exact (f_equal S IH).
Qed.

Lemma erase_remove_absent sink (l : list SlicingEventSinkPtr) :
  ~ In sink l -> erase_remove sink l = l.
Proof.
  induction l as [|y l IH]; [reflexivity|]. intros Hnotin.
  cbn [erase_remove]. destruct (decide (y = sink)) as [->|Hne].
  - exfalso. apply Hnotin. now left.
  - f_equal. apply IH. intros Hin. apply Hnotin. now right.
Qed.

(** X4.  [sink_count] follows the list: [add_sink] of a sink adds one,
    [add_sink] of null adds none, [remove_sink] takes away as many entries as
    were equal to its argument, which is none and leaves the dispatcher as it
    was when the argument is not installed, and [clear_sinks] leaves zero. *)
Theorem sink_count_accounting d s sink :
  sink_count (add_sink (Some s) d) = S (sink_count d)
  /\ sink_count (add_sink None d) = sink_count d
  /\ sink_count (remove_sink sink d)
     + length (List.filter (fun p => bool_decide (p = sink)) (m_sinks d))
     = sink_count d
  /\ (~ In sink (m_sinks d) -> remove_sink sink d = d)
  /\ sink_count (clear_sinks d) = 0.
Proof.
  split; [|split; [|split; [|split]]].
  - unfold sink_count, add_sink; cbn [m_sinks]. rewrite length_app. apply Nat.add_1_r.
  - reflexivity.
  - apply erase_remove_length.
  - intros Hnotin. destruct d as [l]. unfold remove_sink; cbn [m_sinks].
    now rewrite erase_remove_absent.
  - reflexivity.
Qed.

Lemma sink_count_accounting_witness :
  remove_sink (Some 5) (add_sink (Some 1) create) = add_sink (Some 1) create.
Proof.
  destruct (sink_count_accounting (add_sink (Some 1) create) 0 (Some 5))
    as (_ & _ & _ & Habsent & _).
  apply Habsent. cbn. intros [Heq|[]]. discriminate Heq.
Defined.

Lemma for_each_sink_erase_remove c s (l : list SlicingEventSinkPtr) :
  for_each_sink c (erase_remove (Some s) l)
  = List.filter (fun i => negb (Nat.eqb (receiver i) s)) (for_each_sink c l).
Proof.
  induction l as [|[r|] l IH]; [reflexivity| |].
  - cbn [erase_remove for_each_sink List.filter receiver].
    case_decide as Heq.
    + injection Heq as ->. rewrite Nat.eqb_refl. cbn [negb]. exact IH.
    + destruct (Nat.eqb_spec r s) as [->|_]; [congruence|].
      cbn [negb for_each_sink]. now rewrite IH.
  - cbn [erase_remove for_each_sink].
    case_decide as Heq; [discriminate Heq|].
    cbn [for_each_sink]. exact IH.
Qed.

(** X5.  [remove_sink(s)] takes the calls to [s] out of every later dispatch
    and touches nothing else: the other sinks are called as often as before
    and in the same order. *)
Theorem remove_sink_only_drops_its_calls d s c :
  dispatch (remove_sink (Some s) d) c
  = List.filter (fun i => negb (Nat.eqb (receiver i) s)) (dispatch d c).
Proof.
  rewrite !dispatch_for_each. unfold remove_sink; cbn [m_sinks].
  apply for_each_sink_erase_remove.
Qed.

Lemma received_by_for_each s c (l : list SlicingEventSinkPtr) :
  received_by s (for_each_sink c l)
  = repeat c (length (List.filter (fun p => bool_decide (p = Some s)) l)).
Proof.
  unfold received_by. induction l as [|[r|] l IH]; [reflexivity| |].
  - cbn [for_each_sink List.filter receiver].
    case_bool_decide as Hr.
    + injection Hr as ->. rewrite Nat.eqb_refl. cbn [map method length repeat].
      now rewrite IH.
    + destruct (Nat.eqb_spec r s) as [->|_]; [congruence|exact IH].
  - cbn [for_each_sink List.filter]. case_bool_decide; [discriminate|exact IH].
Qed.

Lemma received_by_app s (t1 t2 : list Invocation) :
  received_by s (t1 ++ t2) = received_by s t1 ++ received_by s t2.
Proof. unfold received_by. now rewrite List.filter_app, map_app. Qed.

Lemma received_by_dispatch_all d s (cs : list ISlicingEventSink.call) :
  received_by s (dispatch_all d cs) = flat_map (fun c => repeat c (references s d)) cs.
Proof.
  unfold dispatch_all. induction cs as [|c cs IH]; [reflexivity|].
  cbn [flat_map]. rewrite received_by_app, IH, dispatch_for_each.
  now rewrite received_by_for_each.
Qed.

(** X6.  Events reach a sink in the order they were dispatched: of a run of
    events through a dispatcher whose list does not change, a sink sees each
    event as many times in a row as the list refers to it, one event after
    the other; with one reference it sees exactly the run. *)
Theorem sink_sees_events_in_order d s (cs : list ISlicingEventSink.call) :
  received_by s (dispatch_all d cs) = flat_map (fun c => repeat c (references s d)) cs
  /\ (references s d = 1 -> received_by s (dispatch_all d cs) = cs).
Proof.
  pose proof (received_by_dispatch_all d s cs) as Hall.
  split; [exact Hall|].
  intros Hone. rewrite Hall, Hone. clear.
  induction cs as [|c cs IH]; [reflexivity|].
  change (c :: flat_map (fun c => repeat c 1) cs = c :: cs). now rewrite IH.
Qed.

Lemma sink_sees_events_in_order_witness :
  let d := add_sink (Some 2) (add_sink (Some 1) create) in
  let cs := [ISlicingEventSink.on_slicing_completed 3; ISlicingEventSink.on_export_began] in
  received_by 2 (dispatch_all d cs) = cs.
Proof.
  intros d cs. apply (sink_sees_events_in_order d 2 cs). reflexivity.
Defined.

Lemma calls_on_app s (t1 t2 : list Invocation) :
  calls_on s (t1 ++ t2) = calls_on s t1 + calls_on s t2.
Proof. unfold calls_on. now rewrite List.filter_app, length_app. Qed.

(** X7.  A dispatcher installed as a sink of another forwards what it gets
    to its own sinks: through an outer dispatcher that holds the inner one
    under the identity [inner_id], a sink other than the inner dispatcher is
    called once per reference in the outer list, plus once per reference in
    the inner list for each reference to the inner dispatcher in the outer
    one; and every call carries the event that was dispatched. *)
Theorem nested_dispatcher_forwards (outer inner : t) (inner_id : nat) s c :
  s <> inner_id ->
  calls_on s (dispatch_nested outer inner_id inner c)
  = references s outer + references inner_id outer * references s inner
  /\ Forall (fun i => method i = c) (dispatch_nested outer inner_id inner c).
Proof.
  intros Hs. unfold dispatch_nested, references. rewrite (dispatch_for_each outer).
  destruct outer as [l]; cbn [m_sinks]. split.
  - induction l as [|[r|] l IH]; [reflexivity| |].
    + cbn [for_each_sink flat_map receiver method List.filter].
      rewrite calls_on_app, IH. clear IH.
      destruct (Nat.eqb_spec r inner_id) as [->|Hri].
      * rewrite calls_on_dispatch.
        rewrite (bool_decide_eq_false_2 (Some inner_id = Some s)) by congruence.
        rewrite (bool_decide_eq_true_2 (Some inner_id = Some inner_id)) by reflexivity.
        cbn [length]. unfold references. lia.
      * rewrite (bool_decide_eq_false_2 (Some r = Some inner_id)) by congruence.
        unfold calls_on; cbn [List.filter receiver].
        case_bool_decide as Hr.
        -- injection Hr as ->. rewrite Nat.eqb_refl. cbn [length]. lia.
        -- destruct (Nat.eqb_spec r s) as [->|_]; [congruence|]. cbn [length]. lia.
    + cbn [for_each_sink List.filter].
      rewrite !(bool_decide_eq_false_2 (None = Some _)) by discriminate. exact IH.
  - induction l as [|[r|] l IH]; [constructor| |exact IH].
    cbn [for_each_sink flat_map receiver method].
    apply Forall_app. split; [|exact IH].
    destruct (Nat.eqb r inner_id).
    + rewrite dispatch_for_each. clear.
      induction (m_sinks inner) as [|[q|] k IHk]; [constructor| |exact IHk].
      cbn [for_each_sink]. constructor; [reflexivity|exact IHk].
    + constructor; [reflexivity|constructor].
Qed.

Lemma nested_dispatcher_forwards_witness :
  let inner := add_sink (Some 3) (add_sink (Some 2) create) in
  let outer := add_sink (Some 9) (add_sink (Some 1) create) in
  calls_on 3 (dispatch_nested outer 9 inner ISlicingEventSink.on_export_began) = 1.
Proof.
  intros inner outer.
  assert (Hne : 3 <> 9) by discriminate.
  apply (nested_dispatcher_forwards outer inner 9 3 ISlicingEventSink.on_export_began Hne).
Defined.

End DispatcherMore.

(** ** The configuration change bus, continued *)

Section BusMore.

Import ConfigChangeDispatcher.

Implicit Types (b : t) (alive : nat -> bool) (opt_key : string) (value : boost_any).

Lemma filter_alive_all alive (ls : list weak_ptr) :
  List.Forall (fun w => alive w = true) (List.filter alive ls).
Proof.
  apply List.Forall_forall. intros w Hw. apply filter_In in Hw. tauto.
Qed.

Lemma filter_alive_id alive (ls : list weak_ptr) :
  List.Forall (fun w => alive w = true) ls -> List.filter alive ls = ls.
Proof.
  induction 1 as [|w ls Hw Hls IH]; [reflexivity|].
  cbn [List.filter]. rewrite Hw. now rewrite IH.
Qed.

(** X8.  One [notify] sweeps the list clean: afterwards every listener entry
    is alive, and as long as no further listener is released another
    [notify] erases nothing and leaves the bus exactly as it found it. *)
Theorem notify_sweep_is_idempotent alive opt_key value opt_key' value' b :
  let b1 := fst (notify alive opt_key value b) in
  List.Forall (fun w => alive w = true) (m_listeners b1)
  /\ expired alive (m_listeners b1) = 0
  /\ fst (notify alive opt_key' value' b1) = b1.
Proof.
  intros b1. subst b1. rewrite !notify_unfold. cbn [fst m_listeners m_callbacks m_enabled].
  rewrite !sweep_and_notify_kept.
  assert (Hall := filter_alive_all alive (m_listeners b)).
  split; [exact Hall|]. split.
  - pose proof (filter_alive_expired alive (List.filter alive (m_listeners b))) as Hlen.
    rewrite (filter_alive_id alive _ Hall) in Hlen.
    apply (Nat.add_cancel_l _ 0 (length (List.filter alive (m_listeners b)))).
    now rewrite Nat.add_0_r.
  - now rewrite (filter_alive_id alive _ Hall).
Qed.

(** X9.  Registration order decides the order within listeners and within
    callbacks, not across them: a listener added after a callback is still
    called before it.  A listener that is already gone when [notify] runs is
    not called and its entry disappears, as if it had never been added.  An
    empty callback is skipped but its entry stays. *)
Theorem listeners_run_before_callbacks alive opt_key value b (l f : nat) :
  (alive l = true ->
   snd (notify alive opt_key value (add_listener l (add_callback (Some f) b)))
   = map (fun x => listener_on_config_change x opt_key value)
         (List.filter alive (m_listeners b))
     ++ [listener_on_config_change l opt_key value]
     ++ map (fun g => callback_invoked g opt_key value) (omap id (m_callbacks b))
     ++ [callback_invoked f opt_key value])
  /\ (alive l = false ->
      notify alive opt_key value (add_listener l b) = notify alive opt_key value b)
  /\ snd (notify alive opt_key value (add_callback None b))
     = snd (notify alive opt_key value b)
  /\ m_callbacks (fst (notify alive opt_key value (add_callback None b)))
     = m_callbacks b ++ [None].
Proof.
  split; [|split; [|split]].
  - intros Hl. rewrite notify_unfold. cbn [snd add_listener add_callback m_listeners m_callbacks].
    rewrite sweep_and_notify_calls, call_callbacks_nonnull.
    rewrite List.filter_app. cbn [List.filter]. rewrite Hl.
    rewrite omap_app. cbn [omap id option_bind list_omap].
    rewrite !map_app. cbn [map]. now rewrite <- !app_assoc.
  - intros Hl. rewrite !notify_unfold. cbn [add_listener m_listeners m_callbacks m_enabled].
    assert (Hk : fst (sweep_and_notify alive opt_key value (m_listeners b ++ [l]))
                 = fst (sweep_and_notify alive opt_key value (m_listeners b))).
    { rewrite !sweep_and_notify_kept, List.filter_app. cbn [List.filter].
      rewrite Hl. apply app_nil_r. }
    assert (Hc : snd (sweep_and_notify alive opt_key value (m_listeners b ++ [l]))
                 = snd (sweep_and_notify alive opt_key value (m_listeners b))).
    { rewrite !sweep_and_notify_calls, List.filter_app. cbn [List.filter].
      rewrite Hl. now rewrite app_nil_r. }
    f_equal; [f_equal; exact Hk|f_equal; exact Hc].
  - rewrite !notify_unfold. cbn [snd add_callback m_listeners m_callbacks].
    rewrite !call_callbacks_nonnull, omap_app. cbn. now rewrite app_nil_r.
  - rewrite notify_unfold. reflexivity.
Qed.

Lemma listeners_run_before_callbacks_witness :
  snd (notify (fun w => Nat.eqb w 2) "wipe" (any_bool true)
         (add_listener 2 (add_callback (Some 7) create)))
  = [listener_on_config_change 2 "wipe" (any_bool true);
     callback_invoked 7 "wipe" (any_bool true)]
  /\ notify (fun w => Nat.eqb w 2) "wipe" (any_bool true) (add_listener 3 create)
     = notify (fun w => Nat.eqb w 2) "wipe" (any_bool true) create.
Proof.
  destruct (listeners_run_before_callbacks (fun w => Nat.eqb w 2) "wipe" (any_bool true)
              create 2 7) as (Hlive & _).
  destruct (listeners_run_before_callbacks (fun w => Nat.eqb w 2) "wipe" (any_bool true)
              create 3 7) as (_ & Hgone & _).
  split; [apply Hlive; reflexivity|apply Hgone; reflexivity].
Defined.

End BusMore.

(** ** The MQTT publisher: connection, bus and whole-preset publishes *)

Section PublisherMore.

Context `{Platform} `{Mosquitto}.

Import MqttConfigPublisher.

Implicit Types (p : t) (a : Answers).

(** A loop whose rounds make calls that do not depend on the calls made
    before makes the calls of its rounds, one round after the other. *)
Lemma connect_client_state a (h : nat) p : snd (fst (connect_client a h p)) = p.
Proof.
  unfold connect_client.
  destruct (negb (connect_rc a =? MOSQ_ERR_SUCCESS)%Z); [reflexivity|].
  destruct (negb (loop_start_rc a =? MOSQ_ERR_SUCCESS)%Z); reflexivity.
Qed.

Lemma connect_client_true a (h : nat) p :
  fst (fst (connect_client a h p)) = true
  <-> connect_rc a = MOSQ_ERR_SUCCESS /\ loop_start_rc a = MOSQ_ERR_SUCCESS.
Proof.
  unfold connect_client.
  destruct (Z.eqb_spec (connect_rc a) MOSQ_ERR_SUCCESS) as [Hc|Hc]; cbn [negb fst].
  - destruct (Z.eqb_spec (loop_start_rc a) MOSQ_ERR_SUCCESS) as [Hl|Hl]; cbn [negb fst].
    + tauto.
    + split; [discriminate|tauto].
  - split; [discriminate|tauto].
Qed.

(** [connect()] of a publisher whose flag is down, case by case. *)
Lemma connect_cases a p :
  m_connected p = false ->
  let p0 := if m_initialized p then p else set_initialized true p in
  let init := if m_initialized p then [] else [mosquitto_lib_init] in
  connect a p
  = match m_mosq p with
    | Some h =>
        (fst (fst (connect_client a h p0)), p0, init ++ snd (connect_client a h p0))
    | None =>
        match new_result a with
        | None => (false, set_mosq None p0, init ++ [mosquitto_new (m_client_id p)])
        | Some h =>
            (fst (fst (connect_client a h (set_mosq (Some h) p0))),
             set_mosq (Some h) p0,
             init ++ [mosquitto_new (m_client_id p)]
             ++ [mosquitto_int_option_v5 h; mosquitto_connect_callback_set h;
                 mosquitto_disconnect_callback_set h]
             ++ snd (connect_client a h (set_mosq (Some h) p0)))
        end
    end.
Proof.
  intros Hc p0 init. subst p0 init. unfold connect. rewrite Hc.
  destruct (m_initialized p); cbn [negb m_mosq m_client_id set_initialized];
    (destruct (m_mosq p) as [h|]; [|destruct (new_result a) as [h|]; [|reflexivity]]);
    match goal with
    | |- context [connect_client a h ?q] =>
        pose proof (connect_client_state a h q) as Hst;
        destruct (connect_client a h q) as [[r q'] calls]; cbn [fst snd] in *; subst q';
        reflexivity
    end.
Qed.

Lemma connect_state a p :
  m_connected p = false ->
  let p' := snd (fst (connect a p)) in
  m_connected p' = false /\ m_topic_prefix p' = m_topic_prefix p
  /\ m_initialized p' = true
  /\ (fst (fst (connect a p)) = true ->
      exists h, m_mosq p' = Some h
                /\ connect_rc a = MOSQ_ERR_SUCCESS /\ loop_start_rc a = MOSQ_ERR_SUCCESS).
Proof.
  intros Hc p'. subst p'. rewrite (connect_cases a p Hc).
  destruct (m_initialized p) eqn:Hi; destruct (m_mosq p) as [h|] eqn:Hm;
    try destruct (new_result a) as [h|]; cbn [fst snd];
    cbn [m_connected m_topic_prefix m_initialized m_mosq set_mosq set_initialized];
    (split; [assumption|split; [reflexivity|split; [assumption || reflexivity|]]]);
    try discriminate;
    (intros Hr; apply connect_client_true in Hr; exists h; tauto).
Qed.


Lemma connect_client_calls a (h : nat) p (c : LibCall) :
  In c (snd (connect_client a h p)) ->
  c = mosquitto_connect h (m_broker_host p) (m_broker_port p) 60
  \/ c = mosquitto_loop_start h \/ c = mosquitto_disconnect h.
Proof.
  unfold connect_client.
  destruct (negb (connect_rc a =? MOSQ_ERR_SUCCESS)%Z);
    [|destruct (negb (loop_start_rc a =? MOSQ_ERR_SUCCESS)%Z)];
    cbn; intuition.
Qed.

Lemma connect_true_iff a p :
  m_connected p = false ->
  fst (fst (connect a p)) = true
  <-> (m_mosq p <> None \/ new_result a <> None)
      /\ connect_rc a = MOSQ_ERR_SUCCESS /\ loop_start_rc a = MOSQ_ERR_SUCCESS.
Proof.
  intros Hc. rewrite (connect_cases a p Hc).
  destruct (m_mosq p) as [h|] eqn:Hm; [|destruct (new_result a) as [h|] eqn:Hn];
    cbn [fst]; rewrite ?connect_client_true.
  - split; [intros [? ?]; split; [left; discriminate|tauto]|tauto].
  - split; [intros [? ?]; split; [right; discriminate|tauto]|tauto].
  - split; [discriminate|]. intros [[Hx|Hx] _]; congruence.
Qed.

(** The library calls [connect()] can make, and when. *)
Lemma connect_calls_in a p (c : LibCall) :
  m_connected p = false -> In c (snd (connect a p)) ->
  (c = mosquitto_lib_init /\ m_initialized p = false)
  \/ (c = mosquitto_new (m_client_id p) /\ m_mosq p = None)
  \/ (c <> mosquitto_lib_init /\ forall id, c <> mosquitto_new id).
Proof.
  intros Hc. rewrite (connect_cases a p Hc).
  assert (Hcc : forall h q, In c (snd (connect_client a h q)) ->
                c <> mosquitto_lib_init /\ forall id, c <> mosquitto_new id).
  { intros h q Hin. apply connect_client_calls in Hin as [-> | [-> | ->]];
      split; try discriminate; intros; discriminate. }
  destruct (m_initialized p) eqn:Hi; destruct (m_mosq p) as [h|] eqn:Hm;
    try destruct (new_result a) as [h|] eqn:Hn; cbn [snd]; intros Hin;
    repeat (apply in_app_or in Hin as [Hin|Hin]);
    try (apply Hcc in Hin; tauto);
    cbn in Hin;
    repeat (destruct Hin as [<-|Hin]);
    try contradiction;
    try (left; split; reflexivity);
    try (right; left; split; reflexivity);
    try (right; right; split; [discriminate|intros; discriminate]).
Qed.

(** X11.  The outcome of [connect()].  On a connected publisher it returns
    true at once and calls nothing.  Otherwise it returns true exactly when a
    client is there or can be created and both [mosquitto_connect] and
    [mosquitto_loop_start] report success; the library is initialised and the
    client created only if that has not happened before; and when
    [mosquitto_new] fails the publisher stays without a client. *)
Theorem connect_outcome a p :
  (m_connected p = true -> connect a p = (true, p, []))
  /\ (m_connected p = false ->
      (fst (fst (connect a p)) = true
       <-> (m_mosq p <> None \/ new_result a <> None)
           /\ connect_rc a = MOSQ_ERR_SUCCESS /\ loop_start_rc a = MOSQ_ERR_SUCCESS)
      /\ m_initialized (snd (fst (connect a p))) = true
      /\ (m_initialized p = true -> ~ In mosquitto_lib_init (snd (connect a p)))
      /\ (m_mosq p <> None -> forall id, ~ In (mosquitto_new id) (snd (connect a p)))
      /\ (m_mosq p = None -> new_result a = None ->
          m_mosq (snd (fst (connect a p))) = None)).
Proof.
  split.
  - intros Hc. unfold connect. now rewrite Hc.
  - intros Hc. split; [now apply connect_true_iff|]. split; [|split; [|split]].
    + now destruct (connect_state a p Hc) as (_ & _ & Hi & _).
    + intros Hi Hin. apply (connect_calls_in a p _ Hc) in Hin.
      destruct Hin as [[_ Hf]|[[Hx _]|[Hx _]]]; congruence.
    + intros Hm id Hin. apply (connect_calls_in a p _ Hc) in Hin.
      destruct Hin as [[Hx _]|[[_ Hx]|[_ Hx]]]; [discriminate|contradiction|].
      now apply (Hx id).
    + intros Hm Hn. rewrite (connect_cases a p Hc), Hm, Hn. reflexivity.
Qed.

Lemma connect_outcome_witness :
  let a := {| new_result := Some 4; connect_rc := 0; loop_start_rc := 0 |} in
  connect a (on_connect_callback 0 create) = (true, on_connect_callback 0 create, [])
  /\ fst (fst (connect a create)) = true
  /\ m_mosq (snd (fst (connect {| new_result := None; connect_rc := 0; loop_start_rc := 0 |}
                         create))) = None.
Proof.
  intros a.
  destruct (connect_outcome a (on_connect_callback 0 create)) as [Hup _].
  destruct (connect_outcome a create) as [_ Hdown].
  destruct (connect_outcome {| new_result := None; connect_rc := 0; loop_start_rc := 0 |}
              create) as [_ Hnone].
  split; [apply Hup; reflexivity|]. split.
  - destruct (Hdown eq_refl) as (Hiff & _). apply Hiff.
    split; [right; discriminate|split; reflexivity].
  - destruct (Hnone eq_refl) as (_ & _ & _ & _ & Hstay). apply Hstay; reflexivity.
Defined.

(** X12.  [disconnect()] acts only on a publisher that has a client and whose
    flag is up: it then stops the loop, disconnects and lowers the flag, and a
    second call does nothing.  In particular it does nothing, and leaves the
    network loop that [connect()] started running, when it is called after a
    successful [connect()] whose connect callback has not come in yet. *)
Theorem disconnect_needs_the_flag a p :
  (m_mosq p = None \/ m_connected p = false -> disconnect p = (p, []))
  /\ (forall h, m_mosq p = Some h -> m_connected p = true ->
        disconnect p
        = (set_connected false p, [mosquitto_loop_stop h true; mosquitto_disconnect h]))
  /\ disconnect (fst (disconnect p)) = (fst (disconnect p), [])
  /\ (m_connected p = false -> fst (fst (connect a p)) = true ->
      In (mosquitto_loop_start
            (default 0 (m_mosq (snd (fst (connect a p)))))) (snd (connect a p))
      /\ disconnect (snd (fst (connect a p))) = (snd (fst (connect a p)), [])).
Proof.
  split; [|split; [|split]].
  - intros [Hm|Hc]; unfold disconnect.
    + now rewrite Hm.
    + rewrite Hc. now destruct (m_mosq p).
  - intros h Hm Hc. unfold disconnect. now rewrite Hm, Hc.
  - destruct (m_mosq p) as [h|] eqn:Hm; [destruct (m_connected p) eqn:Hc|];
      unfold disconnect at 2 3; rewrite Hm, ?Hc; cbn [fst]; unfold disconnect;
      cbn [m_mosq m_connected set_connected]; rewrite ?Hm, ?Hc; reflexivity.
  - intros Hc Hr. split.
    + revert Hr. rewrite (connect_cases a p Hc).
      destruct (m_initialized p); destruct (m_mosq p) as [h|] eqn:Hm;
        try destruct (new_result a) as [h|]; cbn [fst snd]; try discriminate;
        cbn [m_mosq set_mosq set_initialized default]; rewrite ?Hm; cbn [default];
        intros Hr; apply connect_client_true in Hr as [Hcr Hlr];
        unfold connect_client; rewrite Hcr, Hlr; cbn; tauto.
    + destruct (connect_state a p Hc) as (Hflag & _).
      unfold disconnect. rewrite Hflag. now destruct (m_mosq _).
Qed.

Lemma disconnect_needs_the_flag_witness :
  let a := {| new_result := Some 4; connect_rc := 0; loop_start_rc := 0 |} in
  let p' := snd (fst (connect a create)) in
  disconnect p' = (p', [])
  /\ disconnect (on_connect_callback 0 p')
     = (p', [mosquitto_loop_stop 4 true; mosquitto_disconnect 4]).
Proof.
  intros a p'.
  destruct (disconnect_needs_the_flag a create) as (_ & _ & _ & Hpending).
  destruct (disconnect_needs_the_flag a (on_connect_callback 0 p')) as (_ & Hup & _).
  split.
  - apply Hpending; reflexivity.
  - apply (Hup 4); reflexivity.
Defined.

Lemma extends_publish_change p (opt_key : string) (value : boost_any) :
  extends (publish_change p opt_key value).
Proof.
  unfold publish_change. destruct (negb (m_connected p)); [apply extends_ret|].
  apply extends_bind; [apply extends_publish|intros; apply extends_ret].
Qed.

Lemma flat_map_listener_calls (g : ConfigChangeDispatcher.delivery -> list PublishCall)
    (self : nat) (opt_key : string) (value : boost_any) (c : PublishCall) (ls : list nat) :
  (forall l, g (ConfigChangeDispatcher.listener_on_config_change l opt_key value)
             = if Nat.eqb l self then [c] else []) ->
  flat_map g (map (fun l => ConfigChangeDispatcher.listener_on_config_change l opt_key value) ls)
  = repeat c (length (List.filter (fun l => Nat.eqb l self) ls)).
Proof.
  intros Hg. induction ls as [|l ls IH]; [reflexivity|].
  cbn [map flat_map List.filter]. rewrite Hg, IH.
  now destruct (Nat.eqb l self).
Qed.

Lemma receive_notify_calls (alive : nat -> bool) (self h : nat) p
    (opt_key : string) (value : boost_any) (bus : ConfigChangeDispatcher.t) w :
  m_mosq p = Some h -> m_connected p = true ->
  calls_of (receive self p (snd (ConfigChangeDispatcher.notify alive opt_key value bus))) w
  = repeat (retained_call p (get_topic p opt_key) (serialize_value opt_key value))
      (if alive self
       then length (List.filter (fun l => Nat.eqb l self)
                                (ConfigChangeDispatcher.m_listeners bus))
       else 0).
Proof.
  intros Hm Hc.
  set (c := retained_call p (get_topic p opt_key) (serialize_value opt_key value)).
  assert (Hgen : forall bus',
    calls_of (receive self p (snd (ConfigChangeDispatcher.notify alive opt_key value bus'))) w
    = repeat c (length (List.filter (fun l => Nat.eqb l self)
                          (List.filter alive (ConfigChangeDispatcher.m_listeners bus'))))).
  { intros bus'. unfold receive.
    rewrite (calls_of_for_each_flat _ _
               (fun d => match d with
                         | ConfigChangeDispatcher.listener_on_config_change l k v =>
                             if Nat.eqb l self
                             then [retained_call p (get_topic p k) (serialize_value k v)]
                             else []
                         | ConfigChangeDispatcher.callback_invoked _ _ _ => []
                         end)).
    - rewrite notify_unfold. cbn [snd].
      rewrite sweep_and_notify_calls, call_callbacks_nonnull, flat_map_app.
      rewrite (flat_map_listener_calls _ self opt_key value c) by reflexivity.
      assert (Hcb : forall fs : list nat,
                flat_map (fun d => match d with
                         | ConfigChangeDispatcher.listener_on_config_change l k v =>
                             if Nat.eqb l self
                             then [retained_call p (get_topic p k) (serialize_value k v)]
                             else []
                         | ConfigChangeDispatcher.callback_invoked _ _ _ => []
                         end)
                  (map (fun f => ConfigChangeDispatcher.callback_invoked f opt_key value) fs)
                = []).
      { induction fs as [|f fs IHf]; [reflexivity|exact IHf]. }
      rewrite Hcb. apply app_nil_r.
    - intros [l k v|f k v]; [|apply extends_ret].
      destruct (Nat.eqb l self); [apply extends_publish_change|apply extends_ret].
    - intros [l k v|f k v] w' _; [|apply calls_of_ret].
      destruct (Nat.eqb l self); [|apply calls_of_ret].
      apply (calls_of_publish_change_connected p h); assumption. }
  assert (Hfilter : forall ls : list nat,
    length (List.filter (fun l => Nat.eqb l self) (List.filter alive ls))
    = if alive self then length (List.filter (fun l => Nat.eqb l self) ls) else 0).
  { induction ls as [|l ls IH]; [now destruct (alive self)|].
    cbn [List.filter]. destruct (Nat.eqb_spec l self) as [->|Hne].
    - destruct (alive self) eqn:Ha; cbn [List.filter length].
      + rewrite Nat.eqb_refl. cbn [length]. now rewrite IH.
      + exact IH.
    - destruct (alive l); cbn [List.filter]; [|exact IH].
      destruct (Nat.eqb_spec l self) as [->|_]; [contradiction|exact IH]. }
  now rewrite Hgen, Hfilter.
Qed.

(** X13.  From the bus to the broker.  With the publisher registered on the
    bus as the listener object [self] and connected, one [notify] of a change
    makes one publish per bus entry that refers to the publisher, each on the
    routed topic of the key with the serialized value, retained; none once
    the publisher object is gone.  So after a single
    [register_with_dispatcher()] a change is published exactly once. *)
Theorem config_change_reaches_broker (alive : nat -> bool) (self h : nat) p
    (opt_key : string) (value : boost_any) (bus : ConfigChangeDispatcher.t) w :
  m_mosq p = Some h -> m_connected p = true ->
  let c := retained_call p (get_topic p opt_key) (serialize_value opt_key value) in
  let entries := length (List.filter (fun l => Nat.eqb l self)
                                     (ConfigChangeDispatcher.m_listeners bus)) in
  calls_of (receive self p (snd (ConfigChangeDispatcher.notify alive opt_key value bus))) w
  = repeat c (if alive self then entries else 0)
  /\ (alive self = true -> entries = 0 ->
      calls_of (receive self p
                  (snd (ConfigChangeDispatcher.notify alive opt_key value
                          (register_with_dispatcher self bus)))) w
      = [c]).
Proof.
  intros Hm Hc c entries. split.
  - apply (receive_notify_calls alive self h); assumption.
  - intros Ha He. rewrite (receive_notify_calls alive self h) by assumption. rewrite Ha.
    unfold register_with_dispatcher. cbn [ConfigChangeDispatcher.add_listener
                                          ConfigChangeDispatcher.m_listeners].
    rewrite List.filter_app, length_app.
    change (repeat c (entries + length (List.filter (fun l => Nat.eqb l self) [self])) = [c]).
    rewrite He. cbn [List.filter]. now rewrite Nat.eqb_refl.
Qed.

Lemma option_of_entry (c : DynamicPrintConfig.t) (opt_key : string) (opt : ConfigOption) :
  NoDup (DynamicPrintConfig.keys c) -> In (opt_key, opt) c ->
  DynamicPrintConfig.option_ c opt_key = Some opt.
Proof.
  intros Hnd Hin. apply in_split in Hin as (before & after & ->).
  now apply option_at.
Qed.

(** A loop over the keys of a list of entries, each round of which makes at
    most one call that depends on the entry only. *)
Lemma calls_of_for_each_keys {B : Type} (l : list (string * B)) (body : string -> Wire unit)
    (g : string * B -> option PublishCall) w :
  (forall k, extends (body k)) ->
  (forall e w', In e l ->
     calls_of (body (fst e)) w' = match g e with Some c => [c] | None => [] end) ->
  calls_of (for_each (map fst l) body) w = omap g l.
Proof.
  intros Hext Hg. revert w. induction l as [|e l IH]; intros w.
  - apply calls_of_ret.
  - cbn [map]. rewrite calls_of_for_each_cons by assumption.
    rewrite Hg by now left. rewrite IH by (intros e' w' He'; apply Hg; now right).
    cbn [omap list_omap]. now destruct (g e).
Qed.

Lemma extends_publish_filament_option p (c : DynamicPrintConfig.t) (idx : Z) (k : string) :
  extends (publish_filament_option p c idx k).
Proof.
  unfold publish_filament_option.
  destruct (DynamicPrintConfig.option_ c k) as [opt|]; [|apply extends_ret].
  destruct (filament_value opt); [|apply extends_ret].
  apply extends_bind; [apply extends_publish|intros; apply extends_ret].
Qed.

Lemma extends_publish_full_option p (c : DynamicPrintConfig.t) (k : string) :
  extends (publish_full_option p c k).
Proof.
  unfold publish_full_option.
  destruct (DynamicPrintConfig.option_ c k) as [opt|]; [|apply extends_ret].
  destruct (full_config_value opt); [|apply extends_ret].
  apply extends_bind; [apply extends_publish|intros; apply extends_ret].
Qed.

(** X14.  [publish_filament_config] on a connected publisher publishes the
    preset name first, on [config/filament/idx/preset_name], and then one
    message per option of a supported type, in key order, on
    [config/filament/idx/key]: a vector of floats, ints or strings goes out
    whole, in one message, and an option of another type is skipped.  A
    publisher whose flag is down publishes nothing. *)
Theorem filament_config_publishes p (h : nat) (filament_config : DynamicPrintConfig.t)
    (preset_name : string) (extruder_idx : Z) w :
  (m_connected p = false ->
   calls_of (publish_filament_config p filament_config preset_name extruder_idx) w = [])
  /\ (m_mosq p = Some h -> m_connected p = true ->
      NoDup (DynamicPrintConfig.keys filament_config) ->
      calls_of (publish_filament_config p filament_config preset_name extruder_idx) w
      = retained_call p (filament_prefix extruder_idx +:+ "preset_name")
                      (filament_name_payload preset_name extruder_idx)
        :: omap (filament_call p extruder_idx) filament_config).
Proof.
  split.
  - intros Hc. unfold publish_filament_config. rewrite Hc. apply calls_of_ret.
  - intros Hm Hc Hnd. unfold publish_filament_config. rewrite Hc. cbn [negb].
    rewrite calls_of_bind;
      [|apply extends_publish
       |intros; apply extends_for_each; intros; apply extends_publish_filament_option].
    rewrite (calls_of_publish_connected p h _ _ _ Hm Hc). cbn [app]. f_equal.
    unfold DynamicPrintConfig.keys.
    apply calls_of_for_each_keys; [intros; apply extends_publish_filament_option|].
    intros [k opt] w' Hin. cbn [fst]. unfold publish_filament_option, filament_call.
    rewrite (option_of_entry _ _ _ Hnd Hin). cbn [fst snd].
    destruct (filament_value opt) as [value|]; cbn [fmap option_fmap option_map];
      [|apply calls_of_ret].
    rewrite calls_of_bind; [|apply extends_publish|intros; apply extends_ret].
    rewrite (calls_of_publish_connected p h _ _ _ Hm Hc).
    now rewrite calls_of_ret.
Qed.

(** X15.  [publish_full_config] on a connected publisher publishes exactly
    the keys that are in the routing table and hold, in the config, an option
    of one of the seven scalar types, each on its routed topic: a key outside
    the table and a vector option are never published by it. *)
Theorem full_config_publishes_routed_scalars p (h : nat) (config : DynamicPrintConfig.t)
    (c : PublishCall) w :
  m_mosq p = Some h -> m_connected p = true ->
  In c (calls_of (publish_full_config p config) w)
  <-> exists opt_key it opt value,
        m_topic_map p !! opt_key = Some it
        /\ DynamicPrintConfig.option_ config opt_key = Some opt
        /\ full_config_value opt = Some value
        /\ c = retained_call p
                 ("config/" +:+ page it +:+ "/" +:+ group it +:+ "/" +:+ opt_key)
                 (serialize_value opt_key value).
Proof.
  intros Hm Hc. unfold publish_full_config. rewrite Hc. cbn [negb].
  rewrite (calls_of_for_each_keys _ _
             (fun e => match DynamicPrintConfig.option_ config (fst e) with
                       | Some opt =>
                           (fun value => retained_call p (get_topic p (fst e))
                                           (serialize_value (fst e) value))
                           <$> full_config_value opt
                       | None => None
                       end)).
  - rewrite <- list_elem_of_In, list_elem_of_omap. split.
    + intros ([k it] & Hin & Hcall). apply elem_of_map_to_list in Hin. cbn [fst] in Hcall.
      destruct (DynamicPrintConfig.option_ config k) as [opt|] eqn:Hopt; [|discriminate].
      destruct (full_config_value opt) as [value|] eqn:Hv; [|discriminate].
      injection Hcall as <-. exists k, it, opt, value.
      repeat split; try assumption. unfold get_topic. now rewrite Hin.
    + intros (k & it & opt & value & Hin & Hopt & Hv & ->).
      exists (k, it). split; [now apply elem_of_map_to_list|].
      cbn [fst]. rewrite Hopt, Hv. cbn. unfold get_topic. now rewrite Hin.
  - intros; apply extends_publish_full_option.
  - intros [k it] w' _. cbn [fst]. unfold publish_full_option.
    destruct (DynamicPrintConfig.option_ config k) as [opt|]; [|apply calls_of_ret].
    destruct (full_config_value opt) as [value|]; cbn [fmap option_fmap option_map];
      [|apply calls_of_ret].
    rewrite calls_of_bind; [|apply extends_publish|intros; apply extends_ret].
    rewrite (calls_of_publish_connected p h _ _ _ Hm Hc).
    now rewrite calls_of_ret.
Qed.

Ltac one_of_the_names H :=
  apply elem_of_list_to_set in H;
  repeat (apply elem_of_cons in H as [->|H]; [vm_compute; reflexivity|]);
  now apply elem_of_nil in H.

Lemma extruder_option_is_misc (opt_key : string) :
  get_extruder_topic_group opt_key <> EmptyString ->
  get_printer_topic opt_key = "misc/" +:+ opt_key.
Proof.
  unfold get_extruder_topic_group, count.
  case_bool_decide as Hb; [intros _; unfold extruder_basic_opts in Hb; one_of_the_names Hb|].
  case_bool_decide as Hl; [intros _; unfold extruder_layer_opts in Hl; one_of_the_names Hl|].
  case_bool_decide as Hr;
    [intros _; unfold extruder_retraction_opts in Hr; one_of_the_names Hr|].
  intros Hne. now contradiction Hne.
Qed.

(** X16.  [get_printer_topic] knows none of the per-extruder option names, so
    it sends each of them to [misc/]; and [publish_printer_config] uses it
    for a per-extruder key whose option is not a vector: such an option, when
    its type is supported, is published once, on [config/printer/misc/key]. *)
Theorem scalar_extruder_option_goes_to_misc p (h : nat) (printer_config : DynamicPrintConfig.t)
    (num_extruders : nat) (opt_key : string) (opt : ConfigOption) (value : boost_any) w :
  get_extruder_topic_group opt_key <> EmptyString ->
  get_printer_topic opt_key = "misc/" +:+ opt_key
  /\ (m_mosq p = Some h -> m_connected p = true ->
      DynamicPrintConfig.option_ printer_config opt_key = Some opt ->
      is_vector opt = false -> scalar_value opt = Some value ->
      calls_of (publish_printer_option p printer_config num_extruders opt_key) w
      = [retained_call p ("config/printer/misc/" +:+ opt_key)
                       (serialize_value opt_key value)]).
Proof.
  intros Hg. pose proof (extruder_option_is_misc opt_key Hg) as Hmisc.
  split; [exact Hmisc|].
  intros Hm Hc Hopt Hvec Hval. unfold publish_printer_option.
  rewrite Hopt, Hvec, andb_false_r, Hval, Hmisc.
  rewrite calls_of_bind; [|apply extends_publish|intros; apply extends_ret].
  rewrite (calls_of_publish_connected p h _ _ _ Hm Hc).
  now rewrite calls_of_ret.
Qed.

Lemma fold_insert_lookup (l : list (string * ConfigTopicInfo))
    (m : gmap string ConfigTopicInfo) (opt_key : string) (it : ConfigTopicInfo) :
  fold_left (fun m kv => <[fst kv := snd kv]> m) l m !! opt_key = Some it ->
  In opt_key (map fst l) \/ m !! opt_key = Some it.
Proof.
  revert m. induction l as [|[k v] l IH]; intros m; cbn [fold_left map fst snd].
  - now right.
  - intros Hl. apply IH in Hl as [Hin|Hl]; [left; now right|].
    destruct (decide (k = opt_key)) as [->|Hne]; [left; now left|].
    rewrite lookup_insert_ne in Hl by assumption. now right.
Qed.

Lemma known_key_in_assignments (opt_key : string) (it : ConfigTopicInfo) :
  m_topic_map create !! opt_key = Some it -> In opt_key (map fst topic_assignments).
Proof.
  intros Hl. apply fold_insert_lookup in Hl as [Hin|Hl]; [exact Hin|].
  now rewrite lookup_empty in Hl.
Qed.

(** The topics of the keys the table knows, checked one against the other:
    none starts like the topic of an unknown key, and no two keys share one. *)
Lemma known_topics_checked :
  let known := map (fun k => (k, get_topic create k)) (map fst topic_assignments) in
  forallb (fun e => negb (String.prefix "config/unknown/" (snd e))) known
  && forallb (fun e1 =>
       forallb (fun e2 => implb (String.eqb (snd e1) (snd e2)) (String.eqb (fst e1) (fst e2)))
               known) known
  = true.
Proof. vm_compute. reflexivity. Qed.

Lemma unknown_topic_prefix (opt_key : string) :
  String.prefix "config/unknown/" ("config/unknown/" +:+ opt_key) = true.
Proof. destruct opt_key; vm_compute; reflexivity. Qed.

(** X17.  With the routing table the constructor builds, two different option
    keys never get the same topic, whether the table knows them or not. *)
Theorem get_topic_injective p (k1 k2 : string) :
  m_topic_map p = m_topic_map create ->
  get_topic p k1 = get_topic p k2 -> k1 = k2.
Proof.
  intros Hmap.
  assert (Hp : forall k, get_topic p k = get_topic create k)
    by (intros k; unfold get_topic; now rewrite Hmap).
  rewrite !Hp. clear Hp Hmap p.
  pose proof known_topics_checked as Hchk. cbv zeta in Hchk.
  apply andb_true_iff in Hchk as [Hpre Hinj].
  rewrite forallb_forall in Hpre, Hinj.
  assert (Hknown : forall k it, m_topic_map create !! k = Some it ->
            In (k, get_topic create k)
               (map (fun k => (k, get_topic create k)) (map fst topic_assignments))).
  { intros k it Hk. apply in_map_iff. exists k. split; [reflexivity|].
    now apply (known_key_in_assignments k it). }
  assert (Hmixed : forall k k' it, m_topic_map create !! k = Some it ->
            get_topic create k <> "config/unknown/" +:+ k').
  { intros k k' it Hk Heq. specialize (Hpre _ (Hknown k it Hk)). cbn [snd] in Hpre.
    rewrite Heq, unknown_topic_prefix in Hpre. discriminate Hpre. }
  destruct (m_topic_map create !! k1) as [it1|] eqn:Hk1;
    destruct (m_topic_map create !! k2) as [it2|] eqn:Hk2.
  - intros Heq. specialize (Hinj _ (Hknown k1 it1 Hk1)).
    rewrite forallb_forall in Hinj. specialize (Hinj _ (Hknown k2 it2 Hk2)).
    cbn [fst snd] in Hinj. rewrite Heq, String.eqb_refl in Hinj.
    now apply String.eqb_eq in Hinj.
  - intros Heq. exfalso. apply (Hmixed k1 k2 it1 Hk1). rewrite Heq.
    unfold get_topic. now rewrite Hk2.
  - intros Heq. exfalso. apply (Hmixed k2 k1 it2 Hk2). rewrite <- Heq.
    unfold get_topic. now rewrite Hk1.
  - unfold get_topic. rewrite Hk1, Hk2. apply append_inj_l.
Qed.

End PublisherMore.

Section PublisherMoreExamples.

Import Fixtures MqttConfigPublisher.


Lemma config_change_reaches_broker_witness :
  let bus := register_with_dispatcher 5 ConfigChangeDispatcher.create in
  calls_of (receive 5 connected_publisher
              (snd (ConfigChangeDispatcher.notify (fun _ => true) "layer_height"
                      (any_double 0.2) bus))) []
  = [retained_call connected_publisher "config/quality/layer_height/layer_height"
                   (serialize_value "layer_height" (any_double 0.2))].
Proof.
  intros bus.
  destruct (config_change_reaches_broker (fun _ => true) 5 1 connected_publisher
              "layer_height" (any_double 0.2) ConfigChangeDispatcher.create []
              eq_refl eq_refl) as [_ Honce].
  etransitivity; [apply Honce; reflexivity|]. vm_compute. reflexivity.
Defined.

(** A filament preset: a scalar, a vector and an option of another type. *)
Lemma filament_config_publishes_witness :
  let cfg := [("filament_type", ConfigOptionStrings ["PLA"]);
              ("filament_flow_ratio", ConfigOptionFloats [1.0; 1.5]%float);
              ("filament_colour_type", ConfigOptionOther true 1)] in
  map topic (calls_of (publish_filament_config connected_publisher cfg "Generic PLA" 1) [])
  = ["slicer/config/filament/1/preset_name";
     "slicer/config/filament/1/filament_type";
     "slicer/config/filament/1/filament_flow_ratio"].
Proof.
  intros cfg.
  assert (Hnd : NoDup (DynamicPrintConfig.keys cfg))
    by (refine (bool_decide_unpack _ _); vm_compute; exact I).
  destruct (filament_config_publishes connected_publisher 1 cfg "Generic PLA" 1 [])
    as [_ Hup].
  rewrite (Hup eq_refl eq_refl Hnd). vm_compute. reflexivity.
Defined.

Lemma full_config_publishes_routed_scalars_witness :
  In (retained_call connected_publisher "config/quality/layer_height/layer_height"
        (serialize_value "layer_height" (any_double 0.2)))
     (calls_of (publish_full_config connected_publisher
                  [("layer_height", ConfigOptionFloat 0.2%float);
                   ("nozzle_diameter", ConfigOptionFloats [0.4]%float)]) []).
Proof.
  apply (full_config_publishes_routed_scalars connected_publisher 1
           [("layer_height", ConfigOptionFloat 0.2%float);
            ("nozzle_diameter", ConfigOptionFloats [0.4]%float)] _ [] eq_refl eq_refl).
  exists "layer_height", {| page := "quality"; group := "layer_height" |},
         (ConfigOptionFloat 0.2%float), (any_double 0.2).
  repeat split; vm_compute; reflexivity.
Defined.

Lemma scalar_extruder_option_goes_to_misc_witness :
  calls_of (publish_printer_option connected_publisher
              [("extruder_colour", ConfigOptionString "#FFFFFF")] 1 "extruder_colour") []
  = [retained_call connected_publisher "config/printer/misc/extruder_colour"
       (serialize_value "extruder_colour" (any_string "#FFFFFF"))].
Proof.
  assert (Hg : get_extruder_topic_group "extruder_colour" <> EmptyString)
    by (vm_compute; discriminate).
  destruct (scalar_extruder_option_goes_to_misc connected_publisher 1
              [("extruder_colour", ConfigOptionString "#FFFFFF")] 1 "extruder_colour"
              (ConfigOptionString "#FFFFFF") (any_string "#FFFFFF") [] Hg) as [_ Hcall].
  apply Hcall; reflexivity.
Defined.

Lemma get_topic_injective_witness :
  get_topic connected_publisher "layer_height" = get_topic connected_publisher "layer_height"
  /\ ("layer_height" : string) = "layer_height".
Proof.
  split; [reflexivity|].
  apply (get_topic_injective connected_publisher "layer_height" "layer_height");
    reflexivity.
Defined.

End PublisherMoreExamples.

(** ** The event sinks *)

Section SinksMore.

Context `{Mosquitto}.

Lemma event_publish_connected (s : MqttEventSink.t) (h : nat) (topic payload : string)
    (retained : bool) w :
  MqttEventSink.m_mosq s = Some h -> MqttEventSink.m_connected s = true ->
  calls_of (MqttEventSink.publish s topic payload retained ;; mret tt) w
  = [{| topic := c_str (MqttConfig.topic_prefix (MqttEventSink.m_config s) +:+ topic);
        payloadlen := static_cast_int (String.length payload);
        payload := payload;
        qos := MqttConfig.qos (MqttEventSink.m_config s);
        retain := retained |}].
Proof.
  intros Hm Hc. unfold calls_of, MqttEventSink.publish.
  rewrite Hm, Hc. unfold mbind, Wire_bind, mret, Wire_ret, mosquitto_publish.
  cbn [snd]. now rewrite drop_app_length.
Qed.

Lemma event_publish_not_connected (s : MqttEventSink.t) (topic payload : string)
    (retained : bool) w :
  MqttEventSink.m_mosq s = None \/ MqttEventSink.m_connected s = false ->
  (MqttEventSink.publish s topic payload retained ;; mret tt) w = (tt, w).
Proof.
  intros [Hm|Hc]; unfold MqttEventSink.publish.
  - now rewrite Hm.
  - rewrite Hc. now destruct (MqttEventSink.m_mosq s).
Qed.

Lemma event_topic_no_nul (c : ISlicingEventSink.call) :
  ~ In "000"%char (chars (MqttEventSink.event_topic c)).
Proof. destruct c; vm_compute; intuition discriminate. Qed.

Lemma chars_append (a b : string) : chars (a +:+ b) = chars a ++ chars b.
Proof.
  induction a as [|c a IH]; [reflexivity|].
  change (c :: chars (a +:+ b) = c :: (chars a ++ chars b)). now rewrite IH.
Qed.

(** X18.  The MQTT event sink turns every event into at most one message.
    Without a client or with the flag down an event is dropped without a
    trace.  Connected, each event makes exactly one [mosquitto_publish], at
    the configured QoS, with a payload that depends on the event alone; the
    completion record is the only one published retained.  The topic is what
    [c_str()] gives for the prefix followed by the topic of the kind of the
    event: exactly that text when the prefix holds no NUL byte. *)
Theorem mqtt_event_sink_one_message (is_helio : bool) (c : ISlicingEventSink.call) :
  exists payload : string,
    forall (s : MqttEventSink.t) w,
      (MqttEventSink.m_mosq s = None \/ MqttEventSink.m_connected s = false ->
       MqttEventSink.receive s is_helio c w = (tt, w))
      /\ (forall h, MqttEventSink.m_mosq s = Some h -> MqttEventSink.m_connected s = true ->
          calls_of (MqttEventSink.receive s is_helio c) w
          = [{| topic := c_str (MqttConfig.topic_prefix (MqttEventSink.m_config s)
                                +:+ MqttEventSink.event_topic c);
                payloadlen := static_cast_int (String.length payload);
                payload := payload;
                qos := MqttConfig.qos (MqttEventSink.m_config s);
                retain := MqttEventSink.event_retained c |}])
      /\ (~ In "000"%char (chars (MqttConfig.topic_prefix (MqttEventSink.m_config s))) ->
          c_str (MqttConfig.topic_prefix (MqttEventSink.m_config s)
                 +:+ MqttEventSink.event_topic c)
          = MqttConfig.topic_prefix (MqttEventSink.m_config s)
            +:+ MqttEventSink.event_topic c).
Proof.
  assert (Hwhole : forall s : MqttEventSink.t,
            ~ In "000"%char (chars (MqttConfig.topic_prefix (MqttEventSink.m_config s))) ->
            c_str (MqttConfig.topic_prefix (MqttEventSink.m_config s)
                   +:+ MqttEventSink.event_topic c)
            = MqttConfig.topic_prefix (MqttEventSink.m_config s)
              +:+ MqttEventSink.event_topic c).
  { intros s Hs. apply c_str_no_nul. rewrite chars_append. intros Hi.
    apply in_app_or in Hi as [Hi|Hi]; [now apply Hs|now apply (event_topic_no_nul c)]. }
  destruct c; eexists; intros s w;
    (split; [intros Hn|split; [intros h Hm Hc|apply Hwhole]]);
    cbn [MqttEventSink.receive MqttEventSink.event_topic MqttEventSink.event_retained];
    unfold MqttEventSink.on_slicing_update, MqttEventSink.on_slicing_completed,
      MqttEventSink.on_process_finished, MqttEventSink.on_export_began,
      MqttEventSink.on_export_finished;
    first [ now apply event_publish_not_connected
          | now apply (event_publish_connected s h) ].
Qed.

Import WxSlicingEventSink.

(** X19.  The wx sink queues at most one event per call, always on its
    handler.  Without a handler it queues nothing.  With one, a progress
    update is always queued, whatever the event type, and each of the other
    four events is queued exactly when its identifier is not 0.  Of a
    completion record only the status reaches the queue: two records with
    the same status queue the same event. *)
Theorem wx_sink_gating (s : WxSlicingEventSink.t) (c : ISlicingEventSink.call) :
  (m_handler s = None -> receive s c = [])
  /\ (forall handler, m_handler s = Some handler ->
      (gate s c = Some 0%Z -> receive s c = [])
      /\ (gate s c <> Some 0%Z ->
          exists event, receive s c = [(handler, event)]))
  /\ (forall i1 i2,
        SlicingCompletedInfo.status i1 = SlicingCompletedInfo.status i2 ->
        on_process_finished s i1 = on_process_finished s i2).
Proof.
  split; [|split].
  - intros Hh. destruct c; cbn; unfold on_slicing_update, on_slicing_completed,
      on_process_finished, on_export_began, on_export_finished; now rewrite Hh.
  - intros handler Hh. split.
    + intros Hg. destruct c; cbn in Hg; try discriminate; injection Hg as Hg; cbn;
        unfold on_slicing_completed, on_process_finished, on_export_began,
          on_export_finished; now rewrite Hh, Hg.
    + intros Hg.
      destruct c; cbn in Hg; cbn;
        unfold on_slicing_update, on_slicing_completed, on_process_finished,
          on_export_began, on_export_finished; rewrite Hh;
        try (now eexists);
        match goal with
        | |- context [(?x =? 0)%Z] =>
            destruct (Z.eqb_spec x 0) as [He|He];
            [exfalso; apply Hg; now rewrite He|cbn; now eexists]
        end.
  - intros i1 i2 Hs. unfold on_process_finished. now rewrite Hs.
Qed.

End SinksMore.

Section SinksMoreExamples.

Import Fixtures.

Lemma mqtt_event_sink_one_message_witness :
  exists payload : string,
    calls_of (MqttEventSink.receive connected_sink false
                (ISlicingEventSink.on_process_finished SlicingCompletedInfo.default)) []
    = [{| topic := "slicer/finished";
          payloadlen := static_cast_int (String.length payload);
          payload := payload; qos := 0; retain := true |}].
Proof.
  destruct (mqtt_event_sink_one_message false
              (ISlicingEventSink.on_process_finished SlicingCompletedInfo.default))
    as [payload Hp].
  exists payload. destruct (Hp connected_sink []) as (_ & Hc & _).
  apply (Hc 2); reflexivity.
Defined.

Lemma wx_sink_gating_witness :
  WxSlicingEventSink.receive plater_sink ISlicingEventSink.on_export_began = []
  /\ exists event,
       WxSlicingEventSink.receive plater_sink (ISlicingEventSink.on_slicing_completed 5)
       = [(7, event)].
Proof.
  destruct (wx_sink_gating plater_sink ISlicingEventSink.on_export_began)
    as (_ & Hg & _).
  destruct (wx_sink_gating plater_sink (ISlicingEventSink.on_slicing_completed 5))
    as (_ & Hq & _).
  split.
  - apply (Hg 7); reflexivity.
  - apply (Hq 7); [reflexivity|]. vm_compute. discriminate.
Defined.

End SinksMoreExamples.

(** ** The request bodies of the preset handlers *)

Section Bodies.

Import HttpSlicerApi.

Lemma append_cons (c : ascii) (a b : string) : String c a +:+ b = String c (a +:+ b).
Proof. reflexivity. Qed.

Lemma index_ge (s1 s2 : string) : forall n m, String.index n s1 s2 = Some m -> n <= m.
Proof.
  induction s2 as [|b s2 IH]; intros n m Hi.
  - destruct n; cbn in Hi; [lia|discriminate].
  - destruct n as [|n]; [lia|]. cbn in Hi.
    destruct (String.index n s1 s2) as [k|] eqn:Hk; [|discriminate].
    injection Hi as <-. apply IH in Hk. lia.
Qed.

Lemma index_skip (p pat s : string) (k : nat) :
  String.index (String.length p + k) pat (p +:+ s)
  = (fun m => String.length p + m) <$> String.index k pat s.
Proof.
  induction p as [|c p IH].
  - change (String.index k pat s = (fun m => m) <$> String.index k pat s).
    now destruct (String.index k pat s).
  - rewrite append_cons. cbn [String.length Nat.add String.index]. rewrite IH.
    now destruct (String.index k pat s).
Qed.

Lemma substring_skip (p s : string) (k m : nat) :
  String.substring (String.length p + k) m (p +:+ s) = String.substring k m s.
Proof.
  induction p as [|c p IH]; [reflexivity|].
  rewrite append_cons. cbn [String.length Nat.add String.substring]. exact IH.
Qed.

Lemma substring_skip0 (p s : string) (m : nat) :
  String.substring (String.length p) m (p +:+ s) = String.substring 0 m s.
Proof.
  rewrite <- (Nat.add_0_r (String.length p)) at 1. apply substring_skip.
Qed.

Lemma substring_prefix (a b : string) :
  String.substring 0 (String.length a) (a +:+ b) = a.
Proof.
  induction a as [|c a IH]; [now destruct b|].
  rewrite append_cons. cbn [String.length String.substring]. now rewrite IH.
Qed.

Lemma index_first_quote (n rest : string) :
  ~ In dquote_char (chars n) ->
  String.index 0 dq (n +:+ String dquote_char rest) = Some (String.length n).
Proof.
  induction n as [|c n IH]; intros Hn.
  - change (EmptyString +:+ String dquote_char rest) with (String dquote_char rest).
    unfold dq. cbn [String.index String.prefix].
    destruct (ascii_dec dquote_char dquote_char); [now destruct rest|contradiction].
  - rewrite append_cons.
    assert (Hc : c <> dquote_char) by (intros ->; apply Hn; now left).
    assert (Hp : String.prefix dq (String c (n +:+ String dquote_char rest)) = false).
    { unfold dq. cbn [String.prefix].
      destruct (ascii_dec dquote_char c) as [He|He]; [now subst|reflexivity]. }
    cbn [String.index]. rewrite Hp, IH; [reflexivity|].
    intros Hi. apply Hn. now right.
Qed.

Lemma in_chars_get (t : string) (c : ascii) :
  In c (chars t) -> exists p, String.get p t = Some c.
Proof.
  induction t as [|a t IH]; [intros []|].
  intros [->|Hi]; [now exists 0|].
  destruct (IH Hi) as [p Hp]. now exists (S p).
Qed.

Lemma get_substring_one (s : string) : forall p c,
  String.get p s = Some c -> String.substring p 1 s = String c EmptyString.
Proof.
  induction s as [|a s IH]; intros p c Hg; [now destruct p|].
  destruct p as [|p].
  - cbn in Hg. injection Hg as ->. cbn. now destruct s.
  - cbn in Hg. cbn. now apply IH.
Qed.

Lemma in_chars_substring (s : string) (n m : nat) (c : ascii) :
  In c (chars (String.substring n m s)) ->
  exists p, n <= p < n + m /\ String.get p s = Some c.
Proof.
  intros Hi. destruct (in_chars_get _ _ Hi) as [p Hp].
  destruct (Nat.lt_ge_cases p m) as [Hlt|Hge].
  - rewrite substring_correct1 in Hp by assumption. exists (p + n). split; [lia|exact Hp].
  - rewrite substring_correct2 in Hp by assumption. discriminate.
Qed.

(** X20.  What the [name] parse can return.  The name it hands to the
    handlers never holds a double quote, whatever the body: the parse stops at
    the first one after the opening quote and knows no escapes.  On a body
    that begins with the [name] field, written without spaces, it returns the
    text up to the next double quote. *)
Theorem parse_name_stops_at_quote (body n rest : string) :
  ~ In dquote_char (chars (parse_name body))
  /\ (~ In dquote_char (chars n) ->
      parse_name ("{" +:+ quoted "name" +:+ ":" +:+ dq +:+ n +:+ dq +:+ rest) = n).
Proof.
  split.
  - unfold parse_name, find.
    destruct (String.index 0 (quoted "name") body) as [name_pos|]; [|intros []].
    destruct (String.index name_pos ":" body) as [colon_pos|]; [|intros []].
    destruct (String.index colon_pos dq body) as [quote_start|]; [|intros []].
    destruct (String.index (quote_start + 1) dq body) as [quote_end|] eqn:He; [|intros []].
    intros Hi. apply in_chars_substring in Hi as (p & Hp & Hg).
    pose proof (index_ge _ _ _ _ He) as Hge.
    apply (index_correct2 _ _ _ _ He p); [lia|lia|].
    now apply get_substring_one.
  - intros Hn.
    set (p := "{" +:+ quoted "name" +:+ ":" +:+ dq).
    change ("{" +:+ quoted "name" +:+ ":" +:+ dq +:+ n +:+ dq +:+ rest)
      with (p +:+ (n +:+ String dquote_char rest)).
    unfold parse_name, find.
    assert (H1 : forall tail, String.index 0 (quoted "name") (p +:+ tail) = Some 1)
      by (intros [|a t]; vm_compute; reflexivity).
    assert (H2 : forall tail, String.index 1 ":" (p +:+ tail) = Some 7)
      by (intros [|a t]; vm_compute; reflexivity).
    assert (H3 : forall tail, String.index 7 dq (p +:+ tail) = Some 8)
      by (intros [|a t]; vm_compute; reflexivity).
    rewrite H1, H2, H3.
    change (8 + 1) with (String.length p + 0).
    rewrite index_skip, index_first_quote by assumption. cbn [fmap option_fmap option_map].
    rewrite substring_skip.
    replace (String.length p + String.length n - 8 - 1) with (String.length n)
      by (change (String.length p) with 9; lia).
    apply substring_prefix.
Qed.

Lemma parse_name_stops_at_quote_witness :
  parse_name ("{" +:+ quoted "name" +:+ ":" +:+ dq +:+ "Generic PLA" +:+ dq +:+ "}")
  = "Generic PLA".
Proof.
  apply (parse_name_stops_at_quote EmptyString "Generic PLA" "}").
  vm_compute. intuition discriminate.
Defined.

Lemma scan_while_skip (f : ascii -> bool) (p s : string) (k : nat) :
  scan_while f (p +:+ s) (String.length p + k) = String.length p + scan_while f s k.
Proof.
  induction p as [|c p IH]; [reflexivity|].
  rewrite append_cons. cbn [String.length Nat.add scan_while]. now rewrite IH.
Qed.

Lemma scan_while_skip0 (f : ascii -> bool) (p s : string) :
  scan_while f (p +:+ s) (String.length p) = String.length p + scan_while f s 0.
Proof.
  rewrite <- (Nat.add_0_r (String.length p)) at 1. apply scan_while_skip.
Qed.

Lemma scan_while_run (f : ascii -> bool) (run : string) (c : ascii) (rest : string) :
  Forall (fun x => f x = true) (chars run) -> f c = false ->
  scan_while f (run +:+ String c rest) 0 = String.length run.
Proof.
  intros Hr Hc. induction run as [|a run IH].
  - change (EmptyString +:+ String c rest) with (String c rest).
    cbn [scan_while String.length]. now rewrite Hc.
  - rewrite append_cons. cbn [scan_while String.length].
    inversion Hr as [|? ? Ha Hr']; subst. rewrite Ha. now rewrite IH.
Qed.

Lemma scan_while_spec (f : ascii -> bool) (s : string) : forall from,
  from <= scan_while f s from
  /\ forall p c, from <= p < scan_while f s from -> String.get p s = Some c -> f c = true.
Proof.
  induction s as [|a s IH]; intros from.
  - cbn. split; [lia|]. intros p c Hp. lia.
  - destruct from as [|n]; cbn [scan_while].
    + destruct (f a) eqn:Ha.
      * split; [lia|]. intros p c Hp Hg. destruct p as [|p].
        -- cbn in Hg. now injection Hg as <-.
        -- cbn in Hg. apply (proj2 (IH 0) p c); [lia|exact Hg].
      * split; [lia|]. intros p c Hp. lia.
    + destruct (IH n) as [Hle Hall]. split; [lia|].
      intros p c Hp Hg. destruct p as [|p]; [lia|].
      cbn in Hg. apply (Hall p c); [lia|exact Hg].
Qed.

Lemma digits_value_bounds (s : string) : forall acc,
  (0 <= acc)%Z -> Forall (fun c => is_digit c = true) (chars s) ->
  (0 <= digits_value acc s)%Z.
Proof.
  induction s as [|c s IH]; intros acc Hacc Hd; [exact Hacc|].
  cbn [digits_value]. inversion Hd as [|? ? Hc Hd']; subst.
  apply IH; [|exact Hd'].
  unfold is_digit in Hc. apply andb_prop in Hc as [Hlo _].
  apply Nat.leb_le in Hlo. change (nat_of_ascii "0") with 48 in Hlo. lia.
Qed.

Lemma parse_extruder_range (body : string) (extruder_idx : Z) :
  parse_extruder body = Some extruder_idx -> (0 <= extruder_idx <= INT_MAX)%Z.
Proof.
  unfold parse_extruder, find.
  destruct (String.index 0 (quoted "extruder") body) as [extruder_pos|];
    [|intros [= <-]; vm_compute; split; discriminate].
  destruct (String.index extruder_pos ":" body) as [colon_pos|];
    [|intros [= <-]; vm_compute; split; discriminate].
  set (num_start := scan_while is_blank body (colon_pos + 1)).
  destruct (num_start <? scan_while is_digit body num_start) eqn:Hlt;
    [|intros [= <-]; vm_compute; split; discriminate].
  unfold stoi.
  destruct (Z.leb_spec
              (digits_value 0
                 (String.substring num_start
                    (scan_while is_digit body num_start - num_start) body)) INT_MAX)
    as [Hle|Hgt]; [|discriminate].
  intros [= <-]. split; [|exact Hle].
  apply digits_value_bounds; [lia|].
  apply List.Forall_forall. intros x Hx.
  apply in_chars_substring in Hx as (p & Hp & Hg).
  apply Nat.ltb_lt in Hlt.
  apply (proj2 (scan_while_spec is_digit body num_start) p x); [lia|exact Hg].
Qed.

(** X21.  The [extruder] parse never gives a negative number: it reads
    digits only, so whatever the body the index it returns is between 0 and
    [INT_MAX], and the handler's [extruder_idx < 0] test cannot fire.  A value
    that does not start with a digit, a minus sign for one, is read as 0; a
    run of digits is read by [std::stoi], which throws when the number does
    not fit an [int]. *)
Theorem parse_extruder_reads_digits_only (body blanks digits rest : string) (c : ascii)
    (extruder_idx : Z) :
  (parse_extruder body = Some extruder_idx -> (0 <= extruder_idx <= INT_MAX)%Z)
  /\ (Forall (fun x => is_blank x = true) (chars blanks) ->
      is_blank c = false -> is_digit c = false ->
      parse_extruder ("{" +:+ quoted "extruder" +:+ ":" +:+ blanks +:+ String c rest)
      = Some 0%Z)
  /\ (Forall (fun x => is_blank x = true) (chars blanks) ->
      Forall (fun x => is_digit x = true) (chars digits) -> digits <> EmptyString ->
      is_digit c = false ->
      parse_extruder ("{" +:+ quoted "extruder" +:+ ":" +:+ blanks +:+ digits
                      +:+ String c rest)
      = stoi digits).
Proof.
  split; [apply parse_extruder_range|split].
  - intros Hb Hcb Hcd.
    set (p := "{" +:+ quoted "extruder" +:+ ":").
    change ("{" +:+ quoted "extruder" +:+ ":" +:+ blanks +:+ String c rest)
      with (p +:+ (blanks +:+ String c rest)).
    unfold parse_extruder, find.
    assert (H1 : forall tail, String.index 0 (quoted "extruder") (p +:+ tail) = Some 1)
      by (intros [|a t]; vm_compute; reflexivity).
    assert (H2 : forall tail, String.index 1 ":" (p +:+ tail) = Some 11)
      by (intros [|a t]; vm_compute; reflexivity).
    rewrite H1, H2.
    change (11 + 1) with (String.length p + 0).
    rewrite scan_while_skip, scan_while_run by assumption.
    rewrite scan_while_skip, scan_while_skip0. cbn [scan_while]. rewrite Hcd.
    now rewrite !Nat.add_0_r, Nat.ltb_irrefl.
  - intros Hb Hd Hne Hcd.
    set (p := "{" +:+ quoted "extruder" +:+ ":").
    change ("{" +:+ quoted "extruder" +:+ ":" +:+ blanks +:+ digits +:+ String c rest)
      with (p +:+ (blanks +:+ (digits +:+ String c rest))).
    unfold parse_extruder, find.
    assert (H1 : forall tail, String.index 0 (quoted "extruder") (p +:+ tail) = Some 1)
      by (intros [|a t]; vm_compute; reflexivity).
    assert (H2 : forall tail, String.index 1 ":" (p +:+ tail) = Some 11)
      by (intros [|a t]; vm_compute; reflexivity).
    rewrite H1, H2.
    change (11 + 1) with (String.length p + 0).
    assert (Hs : scan_while is_blank (blanks +:+ (digits +:+ String c rest)) 0
                 = String.length blanks).
    { destruct digits as [|d digits]; [contradiction|].
      rewrite append_cons. apply scan_while_run; [exact Hb|].
      inversion Hd as [|? ? Hdd _]; subst.
      unfold is_blank. unfold is_digit in Hdd.
      apply andb_prop in Hdd as [Hlo _]. apply Nat.leb_le in Hlo.
      change (nat_of_ascii "0") with 48 in Hlo.
      destruct (Ascii.eqb_spec d " ") as [->|_]; [vm_compute in Hlo; lia|].
      destruct (Ascii.eqb_spec d "009") as [->|_]; [vm_compute in Hlo; lia|reflexivity]. }
    rewrite scan_while_skip, Hs.
    rewrite scan_while_skip, scan_while_skip0, scan_while_run by assumption.
    assert (Hl : 0 < String.length digits) by (destruct digits; [contradiction|cbn; lia]).
    match goal with
    | |- (if ?a <? ?b then _ else _) = _ =>
        replace (a <? b) with true by (symmetry; apply Nat.ltb_lt; lia)
    end.
    match goal with
    | |- stoi (String.substring _ ?len _) = _ =>
        replace len with (String.length digits) by lia
    end.
    rewrite ?substring_skip, ?substring_skip0. now rewrite substring_prefix.
Qed.

Lemma parse_extruder_reads_digits_only_witness :
  (0 <= 2 <= INT_MAX)%Z
  /\ parse_extruder ("{" +:+ quoted "extruder" +:+ ":" +:+ " " +:+ "-1}") = Some 0%Z
  /\ parse_extruder ("{" +:+ quoted "extruder" +:+ ":" +:+ " " +:+ "4294967296" +:+ "}")
     = stoi "4294967296".
Proof.
  destruct (parse_extruder_reads_digits_only
              ("{" +:+ quoted "extruder" +:+ ":2}") " " "4294967296" "1}" "-" 2)
    as (Hr & Hm & _).
  destruct (parse_extruder_reads_digits_only
              ("{" +:+ quoted "extruder" +:+ ":2}") " " "4294967296" EmptyString "}" 2)
    as (_ & _ & Hd).
  split; [apply Hr; vm_compute; reflexivity|].
  split.
  - apply Hm; [repeat constructor|reflexivity|reflexivity].
  - apply Hd; [repeat constructor|repeat constructor|discriminate|reflexivity].
Defined.

End Bodies.

(** ** The preset handlers and the studio *)

Section Presets.

Context `{PresetBundle} `{Platform} `{Mosquitto}.

Import HttpSlicerApi.

Lemma extends_publish_filament_config p (c : DynamicPrintConfig.t) (name : string) (idx : Z) :
  extends (MqttConfigPublisher.publish_filament_config p c name idx).
Proof.
  unfold MqttConfigPublisher.publish_filament_config.
  destruct (negb (MqttConfigPublisher.m_connected p)); [apply extends_ret|].
  apply extends_bind; [apply extends_publish|intros _].
  apply extends_for_each. intros k. apply extends_publish_filament_option.
Qed.

Lemma extends_publish_printer_config p (c : DynamicPrintConfig.t) (name : string) :
  extends (MqttConfigPublisher.publish_printer_config p c name).
Proof.
  unfold MqttConfigPublisher.publish_printer_config.
  destruct (negb (MqttConfigPublisher.m_connected p)); [apply extends_ret|].
  apply extends_bind; [apply extends_publish|intros _].
  apply extends_for_each. intros k. apply extends_publish_printer_option.
Qed.

Lemma run_then_ret {A B : Type} (m : Wire A) (x : B) w :
  (m ;; mret x) w = (x, snd (m w)).
Proof. now rewrite bind_run. Qed.

Lemma calls_of_then_ret {A B : Type} (m : Wire A) (x : B) w :
  calls_of (m ;; mret x) w = calls_of m w.
Proof. unfold calls_of. now rewrite run_then_ret. Qed.

Lemma calls_of_event_then {A : Type} p (h : nat) (topic payload : string) (m : Wire A) w :
  MqttConfigPublisher.m_mosq p = Some h -> MqttConfigPublisher.m_connected p = true ->
  extends m ->
  calls_of (MqttConfigPublisher.publish p topic payload true ;; m) w
  = MqttConfigPublisher.retained_call p topic payload
    :: calls_of m (w ++ [MqttConfigPublisher.retained_call p topic payload]).
Proof.
  intros Hm Hc He.
  rewrite calls_of_bind; [|apply extends_publish|intros _; exact He].
  now rewrite (calls_of_publish_connected p h) by assumption.
Qed.

(** X22.  What [POST /api/filaments/select] refuses.  A number that does
    not fit an [int] makes [std::stoi] throw before anything is written, even
    when the name is missing too.  Otherwise a missing name and an index that
    is not below the number of extruders are answered with 400, and an unknown
    filament with 404; in each of these cases the bundle is not touched,
    nothing is scheduled on the UI thread and nothing is published. *)
Theorem filament_select_rejections (studio : Studio.t) (b : bundle) (req_body : string)
    (res : Response) w :
  Studio.preset_bundle studio = Some b ->
  let filament_name := parse_name req_body in
  let size := static_cast_int (length (filament_presets b)) in
  let run := post_api_filaments_select (Some studio) req_body res w in
  (parse_extruder req_body = None -> run = (None, w))
  /\ (forall extruder_idx, parse_extruder req_body = Some extruder_idx ->
      (filament_name = EmptyString \/ (size <= extruder_idx)%Z
       \/ filaments_find_preset b filament_name = None ->
       exists o, run = (Some o, w)
         /\ s_instance_after o = Some studio
         /\ scheduled o = []
         /\ content_type (response o) = "application/json"
         /\ (filament_name = EmptyString \/ (size <= extruder_idx)%Z ->
             status (response o) = 400%Z)
         /\ (filament_name <> EmptyString -> (extruder_idx < size)%Z ->
             status (response o) = 404%Z))).
Proof.
  intros Hb filament_name size run. subst run.
  unfold post_api_filaments_select. rewrite Hb. fold filament_name. split.
  - intros Hp. now rewrite Hp.
  - intros extruder_idx Hp Hrej. rewrite Hp.
    pose proof (parse_extruder_range _ _ Hp) as [Hlo _].
    destruct (String.eqb_spec filament_name EmptyString) as [Hn|Hn].
    { eexists. split; [reflexivity|]. cbn.
      split; [reflexivity|]. split; [reflexivity|]. split; [reflexivity|].
      split; [reflexivity|]. intros Hx. contradiction. }
    fold size.
    destruct (Z.ltb_spec extruder_idx 0) as [Hneg|_]; [lia|].
    destruct (Z.leb_spec size extruder_idx) as [Hge|Hlt]; cbn [orb].
    { eexists. split; [reflexivity|]. cbn.
      split; [reflexivity|]. split; [reflexivity|]. split; [reflexivity|].
      split; [reflexivity|]. intros _ Hx. lia. }
    destruct Hrej as [Hrej|[Hrej|Hrej]]; [contradiction|lia|].
    rewrite Hrej. eexists. split; [reflexivity|]. cbn.
    split; [reflexivity|]. split; [reflexivity|]. split; [reflexivity|].
    split; [|reflexivity]. intros [Hx|Hx]; [contradiction|lia].
Qed.

(** X23.  What [POST /api/filaments/select] does when it accepts.  The
    bundle gets the filament at the parsed extruder, one refresh is scheduled
    on the UI thread, and the answer keeps its status.  With a connected
    publisher the handler publishes the [filament_changed] event, which names
    the filament that was at that extruder before, and then the whole filament
    config as the bundle holds it after the change; with no publisher or a
    publisher whose flag is down it publishes nothing and answers the same. *)
Theorem filament_select_publishes (studio : Studio.t) (b : bundle) (req_body : string)
    (res : Response) (extruder_idx : Z) (found : preset) w :
  Studio.preset_bundle studio = Some b ->
  parse_name req_body <> EmptyString ->
  parse_extruder req_body = Some extruder_idx ->
  (extruder_idx < static_cast_int (length (filament_presets b)))%Z ->
  filaments_find_preset b (parse_name req_body) = Some found ->
  let filament_name := parse_name req_body in
  let b' := set_filament_preset b extruder_idx filament_name in
  let run := post_api_filaments_select (Some studio) req_body res w in
  (exists o, fst run = Some o
     /\ s_instance_after o = Some (Studio.set_preset_bundle (Some b') studio)
     /\ scheduled o = [refresh_after_filament filament_name extruder_idx]
     /\ status (response o) = status res)
  /\ (forall mqtt h,
        Studio.mqtt_publisher studio = Some mqtt ->
        MqttConfigPublisher.m_mosq mqtt = Some h ->
        MqttConfigPublisher.m_connected mqtt = true ->
        let event :=
          MqttConfigPublisher.retained_call mqtt "config/presets/filament"
            (filament_changed_payload extruder_idx (filament_preset_at b extruder_idx)
               filament_name) in
        calls_of (post_api_filaments_select (Some studio) req_body res) w
        = event :: calls_of (MqttConfigPublisher.publish_filament_config mqtt
                               (preset_config b' found) filament_name extruder_idx)
                            (w ++ [event]))
  /\ (Studio.mqtt_publisher studio = None
      \/ (exists mqtt, Studio.mqtt_publisher studio = Some mqtt
                       /\ MqttConfigPublisher.m_connected mqtt = false) ->
      snd run = w).
Proof.
  intros Hb Hn Hp Hlt Hf filament_name b' run.
  pose proof (parse_extruder_range _ _ Hp) as [Hlo _].
  assert (Hrun : post_api_filaments_select (Some studio) req_body res
                 = (match Studio.mqtt_publisher studio with
                    | Some mqtt =>
                        if MqttConfigPublisher.is_connected mqtt
                        then
                          MqttConfigPublisher.publish mqtt "config/presets/filament"
                            (filament_changed_payload extruder_idx
                               (filament_preset_at b extruder_idx) filament_name) true ;;
                          MqttConfigPublisher.publish_filament_config mqtt
                            (preset_config b' found) filament_name extruder_idx
                        else mret tt
                    | None => mret tt
                    end ;;
                    mret (Some (Build_Selected _
                                  (Some (Studio.set_preset_bundle (Some b') studio))
                                  (set_content
                                     ("{" +:+ quoted "status" +:+ ":" +:+ quoted "selected"
                                      +:+ "," +:+ quoted "name" +:+ ":" +:+ dq
                                      +:+ json_escape filament_name +:+ dq +:+ ","
                                      +:+ quoted "extruder" +:+ ":" +:+ show_int extruder_idx
                                      +:+ "}")
                                     "application/json" res)
                                  [refresh_after_filament filament_name extruder_idx])))).
  { unfold post_api_filaments_select. rewrite Hb, Hp.
    destruct (String.eqb_spec (parse_name req_body) EmptyString) as [He|_];
      [contradiction|].
    destruct (Z.ltb_spec extruder_idx 0) as [Hneg|_]; [lia|].
    destruct (Z.leb_spec (static_cast_int (length (filament_presets b))) extruder_idx)
      as [Hge|_]; [lia|].
    cbn [orb]. rewrite Hf.
    destruct (Z.ltb_spec extruder_idx (static_cast_int (length (filament_presets b))))
      as [_|Hge]; [reflexivity|lia]. }
  subst run. rewrite Hrun. split; [|split].
  - rewrite run_then_ret. eexists. split; [reflexivity|]. cbn. repeat split.
  - intros mqtt h Hq Hm Hc event. rewrite calls_of_then_ret, Hq.
    unfold MqttConfigPublisher.is_connected. rewrite Hc.
    apply (calls_of_event_then mqtt h); [assumption|assumption|].
    apply extends_publish_filament_config.
  - intros Hd. rewrite run_then_ret. cbn [snd].
    destruct Hd as [Hq|(mqtt & Hq & Hc)]; rewrite Hq; [reflexivity|].
    unfold MqttConfigPublisher.is_connected. now rewrite Hc.
Qed.

(** X24.  [POST /api/printers/select].  A missing name is answered with 400
    and an unknown printer with 404, and nothing else happens.  When
    [select_preset_by_name] refuses, the answer is 400 and the handler stops
    there: no compatibility update, no refresh, no publish.  When it accepts,
    the compatibility of the other presets is updated, one refresh is
    scheduled and the answer keeps its status; a connected publisher then
    publishes the [printer_changed] event, which names the printer that was
    selected before, followed by the whole printer config as the bundle holds
    it after the update. *)
Theorem printer_select_outcome (studio : Studio.t) (b : bundle) (req_body : string)
    (res : Response) w :
  Studio.preset_bundle studio = Some b ->
  let printer_name := parse_name req_body in
  let run := post_api_printers_select (Some studio) req_body res w in
  let selected := printers_select_preset_by_name b printer_name in
  (printer_name = EmptyString ->
   run = (Build_Selected _ (Some studio) (missing_name res) [], w))
  /\ (printer_name <> EmptyString -> printers_find_preset b printer_name = None ->
      snd run = w /\ s_instance_after (fst run) = Some studio
      /\ scheduled (fst run) = [] /\ status (response (fst run)) = 404%Z)
  /\ (forall found, printer_name <> EmptyString ->
        printers_find_preset b printer_name = Some found -> fst selected = false ->
        snd run = w
        /\ s_instance_after (fst run)
           = Some (Studio.set_preset_bundle (Some (snd selected)) studio)
        /\ scheduled (fst run) = [] /\ status (response (fst run)) = 400%Z)
  /\ (forall found, printer_name <> EmptyString ->
        printers_find_preset b printer_name = Some found -> fst selected = true ->
        let b' := update_compatible (snd selected) in
        s_instance_after (fst run) = Some (Studio.set_preset_bundle (Some b') studio)
        /\ scheduled (fst run) = [refresh_after_printer printer_name]
        /\ status (response (fst run)) = status res
        /\ (forall mqtt h,
              Studio.mqtt_publisher studio = Some mqtt ->
              MqttConfigPublisher.m_mosq mqtt = Some h ->
              MqttConfigPublisher.m_connected mqtt = true ->
              let event :=
                MqttConfigPublisher.retained_call mqtt "config/presets/printer"
                  (printer_changed_payload (printers_get_selected_preset_name b)
                     printer_name) in
              calls_of (post_api_printers_select (Some studio) req_body res) w
              = event :: calls_of (MqttConfigPublisher.publish_printer_config mqtt
                                     (preset_config b' found) printer_name)
                                  (w ++ [event]))
        /\ (Studio.mqtt_publisher studio = None
            \/ (exists mqtt, Studio.mqtt_publisher studio = Some mqtt
                             /\ MqttConfigPublisher.m_connected mqtt = false) ->
            snd run = w)).
Proof.
  intros Hb printer_name run selected. subst run.
  unfold post_api_printers_select. rewrite Hb. fold printer_name.
  split; [|split; [|split]].
  - intros Hn. rewrite Hn. reflexivity.
  - intros Hn Hf.
    destruct (String.eqb_spec printer_name EmptyString) as [He|_]; [contradiction|].
    rewrite Hf. cbn. repeat split.
  - intros found Hn Hf Hs.
    destruct (String.eqb_spec printer_name EmptyString) as [He|_]; [contradiction|].
    rewrite Hf. subst selected.
    destruct (printers_select_preset_by_name b printer_name) as [sel b1].
    cbn [fst] in Hs. subst sel. cbn. repeat split.
  - intros found Hn Hf Hs.
    destruct (String.eqb_spec printer_name EmptyString) as [He|_]; [contradiction|].
    rewrite Hf. subst selected.
    destruct (printers_select_preset_by_name b printer_name) as [sel b1].
    cbn [fst] in Hs. subst sel. cbn [negb snd].
    rewrite run_then_ret. cbn [fst s_instance_after scheduled response set_content status].
    split; [reflexivity|]. split; [reflexivity|]. split; [reflexivity|]. split.
    + intros mqtt h Hq Hm Hc. rewrite calls_of_then_ret, Hq.
      unfold MqttConfigPublisher.is_connected. rewrite Hc.
      apply (calls_of_event_then mqtt h); [assumption|assumption|].
      apply extends_publish_printer_config.
    + intros Hd. cbn [snd].
      destruct Hd as [Hq|(mqtt & Hq & Hc)]; rewrite Hq; [reflexivity|].
      unfold MqttConfigPublisher.is_connected. now rewrite Hc.
Qed.

End Presets.

Section PresetsExamples.

Import Fixtures HttpSlicerApi.

Lemma filament_select_rejections_witness :
  exists o,
    post_api_filaments_select (Some workshop)
      ("{" +:+ quoted "name" +:+ ":" +:+ quoted "Generic PLA" +:+ ","
       +:+ quoted "extruder" +:+ ":2}") blank []
    = (Some o, [])
    /\ s_instance_after o = Some workshop
    /\ scheduled o = []
    /\ status (response o) = 400%Z.
Proof.
  destruct (filament_select_rejections workshop
              {| selected_printer := "Ender"; loaded := ["Generic PETG"; "Generic PETG"] |}
              ("{" +:+ quoted "name" +:+ ":" +:+ quoted "Generic PLA" +:+ ","
               +:+ quoted "extruder" +:+ ":2}") blank [] eq_refl) as [_ Hr].
  destruct (Hr 2%Z) as (o & Ho & Hs & Hu & _ & H400 & _);
    [vm_compute; reflexivity|right; left; vm_compute; discriminate|].
  exists o. split; [exact Ho|]. split; [exact Hs|]. split; [exact Hu|].
  apply H400. right. vm_compute. discriminate.
Defined.

Lemma filament_select_publishes_witness :
  let req_body := "{" +:+ quoted "name" +:+ ":" +:+ quoted "Generic PLA" +:+ ","
                  +:+ quoted "extruder" +:+ ":1}" in
  exists o,
    fst (post_api_filaments_select (Some workshop) req_body blank []) = Some o
    /\ s_instance_after o
       = Some (Studio.set_preset_bundle
                 (Some {| selected_printer := "Ender";
                          loaded := ["Generic PETG"; "Generic PLA"] |}) workshop)
    /\ scheduled o = [refresh_after_filament "Generic PLA" 1].
Proof.
  intros req_body.
  destruct (filament_select_publishes workshop
              {| selected_printer := "Ender"; loaded := ["Generic PETG"; "Generic PETG"] |}
              req_body blank 1%Z "Generic PLA" [])
    as ((o & Ho & Hs & Hu & _) & _);
    [reflexivity|vm_compute; discriminate|vm_compute; reflexivity|vm_compute; reflexivity
    |vm_compute; reflexivity|].
  exists o. split; [exact Ho|]. split; [exact Hs|exact Hu].
Defined.

Lemma printer_select_outcome_witness :
  status (response (fst (post_api_printers_select (Some workshop)
                           ("{" +:+ quoted "name" +:+ ":" +:+ quoted "Ender" +:+ "}")
                           blank []))) = 400%Z
  /\ scheduled (fst (post_api_printers_select (Some workshop)
                       ("{" +:+ quoted "name" +:+ ":" +:+ quoted "Voron" +:+ "}")
                       blank []))
     = [refresh_after_printer "Voron"].
Proof.
  destruct (printer_select_outcome workshop
              {| selected_printer := "Ender"; loaded := ["Generic PETG"; "Generic PETG"] |}
              ("{" +:+ quoted "name" +:+ ":" +:+ quoted "Ender" +:+ "}") blank [] eq_refl)
    as (_ & _ & Hrefused & _).
  destruct (printer_select_outcome workshop
              {| selected_printer := "Ender"; loaded := ["Generic PETG"; "Generic PETG"] |}
              ("{" +:+ quoted "name" +:+ ":" +:+ quoted "Voron" +:+ "}") blank [] eq_refl)
    as (_ & _ & _ & Haccepted).
  split.
  - apply (Hrefused "Ender"); [vm_compute; discriminate|vm_compute; reflexivity
                              |vm_compute; reflexivity].
  - apply (Haccepted "Voron"); [vm_compute; discriminate|vm_compute; reflexivity
                               |vm_compute; reflexivity].
Defined.

End PresetsExamples.

Section StudioMore.

Context `{PresetBundle} `{Platform} `{Mosquitto}.

Import HttpSlicerApi.

(** X25.  The handlers and the life of the studio.  After [destroy()] there
    is no instance and both select handlers answer 500; after [create()] and
    until a bundle is set they answer 500 as well, the filament handler even
    for a body on which [std::stoi] would throw; neither changes, schedules
    or publishes anything.  A [create()] on an instance that exists returns
    it as it is. *)
Theorem studio_gates_handlers (s_instance : option Studio.t) (req_body : string)
    (res : Response) w :
  let gone := fst (Studio.destroy s_instance) in
  let fresh := Studio.create gone in
  Studio.is_initialized gone = false
  /\ post_api_printers_select gone req_body res w
     = (Build_Selected _ None (studio_not_initialized res) [], w)
  /\ post_api_filaments_select gone req_body res w
     = (Some (Build_Selected _ None (studio_not_initialized res) []), w)
  /\ Studio.is_initialized fresh = true
  /\ post_api_printers_select fresh req_body res w
     = (Build_Selected _ fresh (bundle_not_available res) [], w)
  /\ post_api_filaments_select fresh req_body res w
     = (Some (Build_Selected _ fresh (bundle_not_available res) []), w)
  /\ Studio.create fresh = fresh
  /\ Studio.create (Studio.create s_instance) = Studio.create s_instance.
Proof.
  intros gone fresh.
  assert (Hg : gone = None) by (subst gone; now destruct s_instance).
  subst fresh. rewrite Hg. cbn. repeat split. now destruct s_instance.
Qed.

Lemma init_mqtt_cases (a : MqttConfigPublisher.Answers) (self : nat) (host : string)
    (port : Z) (id : string) (s : Studio.t) (bus : ConfigChangeDispatcher.t) p :
  Studio.mqtt_publisher s = Some p ->
  let r := MqttConfigPublisher.connect a (MqttConfigPublisher.configure host port id p) in
  Studio.init_mqtt a self host port id s bus
  = (fst (fst r),
     {| Studio.m_preset_bundle := Studio.m_preset_bundle s;
        Studio.m_mqtt_publisher := Some (snd (fst r)) |},
     if fst (fst r) then MqttConfigPublisher.register_with_dispatcher self bus else bus,
     snd r).
Proof.
  intros Hp r. subst r. unfold Studio.init_mqtt. unfold Studio.mqtt_publisher in Hp.
  rewrite Hp.
  destruct (MqttConfigPublisher.connect a (MqttConfigPublisher.configure host port id p))
    as [[connected p'] calls].
  now destruct connected.
Qed.



Lemma publisher_disconnect_off (q : MqttConfigPublisher.t) :
  MqttConfigPublisher.m_mosq q = None \/ MqttConfigPublisher.m_connected q = false ->
  MqttConfigPublisher.disconnect q = (q, []).
Proof.
  intros Hq. unfold MqttConfigPublisher.disconnect.
  destruct (MqttConfigPublisher.m_mosq q) as [h|]; [|reflexivity].
  destruct Hq as [Hq|Hq]; [discriminate|]. now rewrite Hq.
Qed.

Lemma publisher_destroy_off (q : MqttConfigPublisher.t) :
  MqttConfigPublisher.m_mosq q = None \/ MqttConfigPublisher.m_connected q = false ->
  MqttConfigPublisher.destroy q
  = match MqttConfigPublisher.m_mosq q with
    | Some h => [MqttConfigPublisher.mosquitto_destroy h]
    | None => []
    end
    ++ (if MqttConfigPublisher.m_initialized q
        then [MqttConfigPublisher.mosquitto_lib_cleanup] else []).
Proof.
  intros Hq. unfold MqttConfigPublisher.destroy.
  now rewrite publisher_disconnect_off.
Qed.

Lemma studio_destroy_calls (st : Studio.t) (q : MqttConfigPublisher.t) :
  Studio.mqtt_publisher st = Some q ->
  snd (Studio.destroy (Some st))
  = snd (MqttConfigPublisher.disconnect q)
    ++ MqttConfigPublisher.destroy (fst (MqttConfigPublisher.disconnect q)).
Proof.
  intros Hq. unfold Studio.destroy, Studio.shutdown.
  unfold Studio.mqtt_publisher in Hq. rewrite Hq.
  now destruct (MqttConfigPublisher.disconnect q).
Qed.

(** X29.  What [Studio::destroy] does to the publisher.  The instance is
    gone afterwards.  A studio without a publisher calls nothing.  Otherwise
    the publisher is disconnected and then destroyed: with a client and the
    flag up the loop is stopped and the client disconnected before it is
    destroyed; with the flag down the client is destroyed as it is; the
    library is cleaned up exactly when it was initialised.  So a studio that
    is destroyed after an [init_mqtt] that returned true, but before the
    connect callback came in, destroys its client without stopping the loop
    that [connect()] started. *)
Theorem studio_destroy_releases_client (s : Studio.t)
    (a : MqttConfigPublisher.Answers) (self : nat) (host : string) (port : Z)
    (id : string) (bus : ConfigChangeDispatcher.t) :
  fst (Studio.destroy (Some s)) = None
  /\ (Studio.mqtt_publisher s = None -> snd (Studio.destroy (Some s)) = [])
  /\ (forall p, Studio.mqtt_publisher s = Some p ->
        let cleanup := if MqttConfigPublisher.m_initialized p
                       then [MqttConfigPublisher.mosquitto_lib_cleanup] else [] in
        (MqttConfigPublisher.m_mosq p = None -> snd (Studio.destroy (Some s)) = cleanup)
        /\ (forall h, MqttConfigPublisher.m_mosq p = Some h ->
              MqttConfigPublisher.m_connected p = true ->
              snd (Studio.destroy (Some s))
              = [MqttConfigPublisher.mosquitto_loop_stop h true;
                 MqttConfigPublisher.mosquitto_disconnect h;
                 MqttConfigPublisher.mosquitto_destroy h] ++ cleanup)
        /\ (forall h, MqttConfigPublisher.m_mosq p = Some h ->
              MqttConfigPublisher.m_connected p = false ->
              snd (Studio.destroy (Some s))
              = [MqttConfigPublisher.mosquitto_destroy h] ++ cleanup)
        /\ (MqttConfigPublisher.m_connected p = false ->
            fst (fst (fst (Studio.init_mqtt a self host port id s bus))) = true ->
            exists h,
              snd (Studio.destroy
                     (Some (snd (fst (fst (Studio.init_mqtt a self host port id s bus))))))
              = [MqttConfigPublisher.mosquitto_destroy h;
                 MqttConfigPublisher.mosquitto_lib_cleanup])).
Proof.
  split; [reflexivity|]. split.
  - intros Hn. unfold Studio.destroy, Studio.shutdown.
    unfold Studio.mqtt_publisher in Hn. now rewrite Hn.
  - intros p Hp cleanup.
    assert (Hoff : forall (st : Studio.t) (q : MqttConfigPublisher.t),
              Studio.mqtt_publisher st = Some q ->
              MqttConfigPublisher.m_mosq q = None
              \/ MqttConfigPublisher.m_connected q = false ->
              snd (Studio.destroy (Some st))
              = match MqttConfigPublisher.m_mosq q with
                | Some h => [MqttConfigPublisher.mosquitto_destroy h]
                | None => []
                end
                ++ (if MqttConfigPublisher.m_initialized q
                    then [MqttConfigPublisher.mosquitto_lib_cleanup] else [])).
    { intros st q Hst Hq. rewrite (studio_destroy_calls st q Hst).
      rewrite publisher_disconnect_off by assumption. cbn [fst snd app].
      now apply publisher_destroy_off. }
    split; [|split; [|split]].
    + intros Hm. rewrite (Hoff s p Hp) by (now left). now rewrite Hm.
    + intros h Hm Hc. rewrite (studio_destroy_calls s p Hp).
      unfold MqttConfigPublisher.disconnect at 1 2. rewrite Hm, Hc. cbn [fst snd].
      rewrite publisher_destroy_off by (now right).
      cbn [MqttConfigPublisher.set_connected MqttConfigPublisher.m_mosq
           MqttConfigPublisher.m_initialized].
      now rewrite Hm.
    + intros h Hm Hc. rewrite (Hoff s p Hp) by (now right). now rewrite Hm.
    + intros Hc Hr. rewrite (init_mqtt_cases a self host port id s bus p Hp) in *.
      cbn [fst snd] in *.
      destruct (connect_state a (MqttConfigPublisher.configure host port id p) Hc)
        as (Hdown & _ & Hinit & Hclient).
      destruct (Hclient Hr) as (h & Hm & _). exists h.
      erewrite Hoff; [|reflexivity|now right].
      cbn [Studio.m_mqtt_publisher]. now rewrite Hm, Hinit.
Qed.

End StudioMore.

Section StudioMoreExamples.

Import Fixtures.


Lemma studio_destroy_releases_client_witness :
  let a := {| MqttConfigPublisher.new_result := Some 4;
              MqttConfigPublisher.connect_rc := 0;
              MqttConfigPublisher.loop_start_rc := 0 |} in
  let first := Studio.init_mqtt a 9 "localhost" 1883 "corvusprint-config"
                 Studio.init ConfigChangeDispatcher.create in
  snd (Studio.destroy (Some Studio.init)) = []
  /\ exists h, snd (Studio.destroy (Some (snd (fst (fst first)))))
               = [MqttConfigPublisher.mosquitto_destroy h;
                  MqttConfigPublisher.mosquitto_lib_cleanup].
Proof.
  intros a first.
  destruct (studio_destroy_releases_client Studio.init a 9 "localhost" 1883
              "corvusprint-config" ConfigChangeDispatcher.create)
    as (_ & _ & Hpub).
  destruct (Hpub MqttConfigPublisher.create eq_refl) as (Hnone & _ & _ & Hearly).
  split; [apply Hnone; reflexivity|]. apply Hearly; reflexivity.
Defined.

End StudioMoreExamples.

Section HttpMore.

Context `{BackgroundSlicingProcess}.

Import HttpSlicerApi SlicingEventDispatcher.

Lemma HttpEventSink_receive_twice (c : ISlicingEventSink.call) api :
  HttpEventSink_receive c (HttpEventSink_receive c api) = HttpEventSink_receive c api.
Proof. now destruct c. Qed.

Lemma after_events_repeat (c : ISlicingEventSink.call) (n : nat) api :
  after_events (repeat c (S n)) api = HttpEventSink_receive c api.
Proof.
  induction n as [|n IH]; [reflexivity|].
  change (after_events (repeat c (S n)) (HttpEventSink_receive c api)
          = HttpEventSink_receive c api).
  revert IH. generalize (HttpEventSink_receive_twice c api). cbn [repeat].
  unfold after_events. cbn [fold_left]. intros Ht IH.
  destruct n as [|n].
  - cbn [repeat fold_left]. exact Ht.
  - cbn [repeat fold_left] in *. rewrite Ht. exact IH.
Qed.

(** X27.  The HTTP sink does not mind being installed more than once: the
    cache it feeds holds the latest value only, so however many references
    the dispatcher has to it, the facade ends up as if each event had come in
    once, and [GET /api/status] answers the same.  With no reference the
    facade never changes. *)
Theorem http_sink_duplicates_harmless d (s : nat) (cs : list ISlicingEventSink.call)
    api res :
  (1 <= references s d ->
   after_events (received_by s (dispatch_all d cs)) api = after_events cs api
   /\ get_api_status (after_events (received_by s (dispatch_all d cs)) api) res
      = get_api_status (after_events cs api) res)
  /\ (references s d = 0 ->
      after_events (received_by s (dispatch_all d cs)) api = api).
Proof.
  rewrite received_by_dispatch_all. split.
  - intros Hn. destruct (references s d) as [|n]; [lia|].
    assert (Heq : after_events (flat_map (fun c => repeat c (S n)) cs) api
                  = after_events cs api).
    { revert api. induction cs as [|c cs IH]; intros api; [reflexivity|].
      cbn [flat_map]. rewrite after_events_app, after_events_repeat.
      change (after_events (c :: cs) api) with (after_events cs (HttpEventSink_receive c api)).
      apply IH. }
    split; [exact Heq|now rewrite Heq].
  - intros ->. induction cs as [|c cs IH]; [reflexivity|exact IH].
Qed.

End HttpMore.

Section HttpMoreExamples.

Import Fixtures HttpSlicerApi SlicingEventDispatcher.

Lemma http_sink_duplicates_harmless_witness :
  let d := add_sink (Some 3) (add_sink (Some 3) create) in
  let cs := [ISlicingEventSink.on_export_began;
             ISlicingEventSink.on_process_finished SlicingCompletedInfo.default] in
  let api := @HttpSlicerApi.create simple_process defaults (Some Idle) in
  get_api_status (after_events (received_by 3 (dispatch_all d cs)) api) blank
  = get_api_status (after_events cs api) blank.
Proof.
  intros d cs api.
  destruct (@http_sink_duplicates_harmless simple_process d 3 cs api blank) as [Hdup _].
  apply Hdup. vm_compute. lia.
Defined.

End HttpMoreExamples.

Section SinkLife.

Context `{Mosquitto}.

Import MqttEventSink.

Lemma event_sink_drops (s : MqttEventSink.t) (is_helio : bool) (c : ISlicingEventSink.call) w :
  m_mosq s = None \/ m_connected s = false -> receive s is_helio c w = (tt, w).
Proof.
  intros Hn. destruct c; cbn [receive];
    unfold on_slicing_update, on_slicing_completed, on_process_finished, on_export_began,
      on_export_finished; now apply event_publish_not_connected.
Qed.

(** X28.  The life of an MQTT event sink.  A sink whose constructor got no
    client never connects, calls the library no more, drops every event, and
    its destructor only cleans the library up.  With a client, [connect()]
    returns true exactly when [mosquitto_connect] and [mosquitto_loop_start]
    both succeed, and it leaves the flag down: until the connect callback
    comes in every event is dropped, and a destructor that runs in that state
    destroys the client without stopping the loop or disconnecting.  Once the
    callback has reported code 0 the destructor stops the loop and
    disconnects first.  Credentials are set only for a non-empty user name. *)
Theorem event_sink_lifecycle (a : MqttConfigPublisher.Answers) (config : MqttConfig.t)
    (is_helio : bool) (c : ISlicingEventSink.call) w :
  let s0 := fst (create a config) in
  let s1 := snd (fst (connect a s0)) in
  (MqttConfigPublisher.new_result a = None ->
   connect a s0 = (false, s0, [])
   /\ receive s0 is_helio c w = (tt, w)
   /\ destroy s0 = [mosquitto_lib_cleanup])
  /\ (forall h, MqttConfigPublisher.new_result a = Some h ->
      (fst (fst (connect a s0)) = true
       <-> MqttConfigPublisher.connect_rc a = MOSQ_ERR_SUCCESS
           /\ MqttConfigPublisher.loop_start_rc a = MOSQ_ERR_SUCCESS)
      /\ is_connected s1 = false
      /\ receive s1 is_helio c w = (tt, w)
      /\ destroy s1 = [mosquitto_destroy h; mosquitto_lib_cleanup]
      /\ destroy (on_connect_callback 0 s1)
         = [mosquitto_loop_stop h true; mosquitto_disconnect h;
            mosquitto_destroy h; mosquitto_lib_cleanup])
  /\ (forall h u pw, In (mosquitto_username_pw_set h u pw) (snd (create a config)) ->
      u = MqttConfig.username config /\ u <> EmptyString
      /\ (pw = None <-> MqttConfig.password config = EmptyString)).
Proof.
  intros s0 s1. split; [|split].
  - intros Hn. subst s1 s0. unfold create. rewrite Hn. cbn [fst].
    split; [reflexivity|]. split; [|reflexivity].
    apply event_sink_drops. now left.
  - intros h Hh.
    assert (Hs0 : s0 = {| m_config := config; m_mosq := Some h; m_connected := false;
                          m_initialized := true |})
      by (subst s0; unfold create; now rewrite Hh).
    assert (Hs1 : s1 = s0).
    { subst s1. rewrite Hs0. unfold connect. cbn [m_mosq m_connected].
      destruct (negb (MqttConfigPublisher.connect_rc a =? MOSQ_ERR_SUCCESS)%Z);
        [reflexivity|].
      now destruct (negb (MqttConfigPublisher.loop_start_rc a =? MOSQ_ERR_SUCCESS)%Z). }
    rewrite Hs1. split; [|split; [|split; [|split]]].
    + rewrite Hs0. unfold connect. cbn [m_mosq m_connected].
      destruct (Z.eqb_spec (MqttConfigPublisher.connect_rc a) MOSQ_ERR_SUCCESS) as [Hc|Hc];
        cbn [negb fst]; [|split; [discriminate|intros [Hx _]; contradiction]].
      destruct (Z.eqb_spec (MqttConfigPublisher.loop_start_rc a) MOSQ_ERR_SUCCESS)
        as [Hl|Hl]; cbn [negb fst]; [tauto|].
      split; [discriminate|intros [_ Hx]; contradiction].
    + now rewrite Hs0.
    + apply event_sink_drops. right. now rewrite Hs0.
    + now rewrite Hs0.
    + now rewrite Hs0.
  - intros h u pw Hin. unfold create in Hin.
    destruct (MqttConfigPublisher.new_result a) as [h'|]; cbn [snd] in Hin.
    + apply in_app_or in Hin as [Hin|Hin];
        [destruct Hin as [Hx|[Hx|[]]]; discriminate|].
      apply in_app_or in Hin as [Hin|Hin];
        [destruct Hin as [Hx|[Hx|[Hx|[]]]]; discriminate|].
      destruct (String.eqb_spec (MqttConfig.username config) EmptyString) as [Hu|Hu];
        cbn [negb] in Hin; [destruct Hin|].
      destruct Hin as [Hx|[]]. injection Hx as _ <- <-.
      split; [reflexivity|]. split; [exact Hu|].
      destruct (String.eqb_spec (MqttConfig.password config) EmptyString) as [Hp|Hp].
      * tauto.
      * split; [discriminate|contradiction].
    + destruct Hin as [Hx|[Hx|[]]]; discriminate.
Qed.

End SinkLife.

Section SinkLifeExamples.

Import Fixtures MqttEventSink.

Lemma event_sink_lifecycle_witness :
  let a := {| MqttConfigPublisher.new_result := Some 2;
              MqttConfigPublisher.connect_rc := 0;
              MqttConfigPublisher.loop_start_rc := 0 |} in
  let s1 := snd (fst (connect a (fst (create a MqttConfig.default)))) in
  fst (fst (connect a (fst (create a MqttConfig.default)))) = true
  /\ receive s1 false ISlicingEventSink.on_export_began [] = (tt, [])
  /\ destroy s1 = [mosquitto_destroy 2; mosquitto_lib_cleanup].
Proof.
  intros a s1.
  destruct (event_sink_lifecycle a MqttConfig.default false
              ISlicingEventSink.on_export_began [])
    as (_ & Hclient & _).
  destruct (Hclient 2 eq_refl) as (Hiff & _ & Hdrop & Hdestroy & _).
  split; [apply Hiff; split; reflexivity|]. split; [exact Hdrop|exact Hdestroy].
Defined.

End SinkLifeExamples.
